(** * CVD synthesis prediction platform: the prediction-session pipeline

    A shallow embedding of the [CVDPlatform] component (both variants kept in
    the repository): the form validator, the submit handler with its remote
    call, the cookie-backed history store and the paginated view, together
    with the platform pieces they lean on (strings of UTF-16 code units,
    [JSON.stringify] / [JSON.parse], [document.cookie]). *)

From Stdlib Require Import Ascii String.
From Stdlib Require Import List ZArith NArith QArith Qround Bool Lia Lqa.
From Stdlib Require Import DecimalN Sorted.
From Stdlib Require DecimalFacts.
Import ListNotations.

Set Warnings "-register-all".

(* ================================================================== *)
(** ** JavaScript strings *)
(* ================================================================== *)

Module JS.

(** A string is its sequence of UTF-16 code units. *)
Abbreviation char := N (only parsing).
Definition jsstring := list char.

Definition str (s : string) : jsstring :=
  List.map N_of_ascii (list_ascii_of_string s).

Fixpoint eqb (s t : jsstring) : bool :=
  match s, t with
  | [], [] => true
  | a :: s', b :: t' => N.eqb a b && eqb s' t'
  | _, _ => false
  end.

Fixpoint starts_with (p s : jsstring) : bool :=
  match p, s with
  | [], _ => true
  | a :: p', b :: s' => N.eqb a b && starts_with p' s'
  | _ :: _, [] => false
  end.

Fixpoint contains (c : char) (s : jsstring) : bool :=
  match s with
  | [] => false
  | a :: s' => N.eqb a c || contains c s'
  end.

(** [s.split(sep)] for a non-empty separator: [skip] counts the code units
    of a separator occurrence still to be passed over, [cur] holds the part
    being read, most recent unit first. *)
Fixpoint split_go (sep s : jsstring) (skip : nat) (cur : jsstring)
  : list jsstring :=
  match s with
  | [] => [rev cur]
  | c :: s' =>
      match skip with
      | S k => split_go sep s' k cur
      | O =>
          if starts_with sep s
          then rev cur :: split_go sep s' (length sep - 1) []
          else split_go sep s' 0 (c :: cur)
      end
  end.

Definition split (s sep : jsstring) : list jsstring :=
  match sep with
  | [] => List.map (fun c => [c]) s
  | _ => split_go sep s 0 []
  end.

Fixpoint join (sep : jsstring) (parts : list jsstring) : jsstring :=
  match parts with
  | [] => []
  | [p] => p
  | p :: rest => p ++ sep ++ join sep rest
  end.

Definition is_upper (c : char) : bool := (65 <=? c)%N && (c <=? 90)%N.

(** [s.toLowerCase()] on the Basic Latin letters, the only ones the
    component lower-cases (its own field identifiers). *)
Definition toLowerCase (s : jsstring) : jsstring :=
  List.map (fun c => if is_upper c then (c + 32)%N else c) s.

(** [s.replace(/([A-Z])/g, ' $1')]. *)
Fixpoint space_before_capitals (s : jsstring) : jsstring :=
  match s with
  | [] => []
  | c :: s' =>
      if is_upper c then 32%N :: c :: space_before_capitals s'
      else c :: space_before_capitals s'
  end.

(** *** Numbers

    A finite number is kept as the decimal [m * 10^e] it prints as; the
    rounding of doubles is not part of the model.  Negative zero is
    identified with zero, as [===] does. *)
Inductive number :=
| NaN
| PosInfinity
| NegInfinity
| Fin (m : Z) (e : Z).

Definition isNaN (x : number) : bool :=
  match x with NaN => true | _ => false end.

Definition isFinite (x : number) : bool :=
  match x with Fin _ _ => true | _ => false end.

(** [x <= 0]; any comparison with [NaN] is false. *)
Definition le_zero (x : number) : bool :=
  match x with
  | NaN => false
  | PosInfinity => false
  | NegInfinity => true
  | Fin m _ => (m <=? 0)%Z
  end.

Definition of_Z (z : Z) : number := Fin z 0.

Fixpoint digits_of_uint (u : Decimal.uint) : list N :=
  match u with
  | Decimal.Nil => []
  | Decimal.D0 u' => 0%N :: digits_of_uint u'
  | Decimal.D1 u' => 1%N :: digits_of_uint u'
  | Decimal.D2 u' => 2%N :: digits_of_uint u'
  | Decimal.D3 u' => 3%N :: digits_of_uint u'
  | Decimal.D4 u' => 4%N :: digits_of_uint u'
  | Decimal.D5 u' => 5%N :: digits_of_uint u'
  | Decimal.D6 u' => 6%N :: digits_of_uint u'
  | Decimal.D7 u' => 7%N :: digits_of_uint u'
  | Decimal.D8 u' => 8%N :: digits_of_uint u'
  | Decimal.D9 u' => 9%N :: digits_of_uint u'
  end.

(** Decimal digits of a natural number, most significant first. *)
Definition digits (n : N) : list N := digits_of_uint (N.to_uint n).

Definition digit_char (d : N) : char := (48 + d)%N.

Definition digit_chars (ds : list N) : jsstring := List.map digit_char ds.

Fixpoint drop_zeros (ds : list N) : list N :=
  match ds with
  | 0%N :: ds' => drop_zeros ds'
  | _ => ds
  end.

(** The significant digits of [m] and the number of trailing zeros taken
    off them. *)
Definition significant (m : N) : list N * nat :=
  let ds := digits m in
  let sig := rev (drop_zeros (rev ds)) in
  (sig, (length ds - length sig)%nat).

Definition zeros (n : nat) : jsstring := repeat (digit_char 0) n.

(** [Number::toString] on the digits [ds] of a positive number whose value
    is [0.ds * 10^n]. *)
Definition format_digits (ds : list N) (n : Z) : jsstring :=
  let k := Z.of_nat (length ds) in
  if ((k <=? n) && (n <=? 21))%Z then
    digit_chars ds ++ zeros (Z.to_nat (n - k))
  else if ((0 <? n) && (n <=? 21))%Z then
    digit_chars (firstn (Z.to_nat n) ds) ++ str "." ++
    digit_chars (skipn (Z.to_nat n) ds)
  else if ((-6 <? n) && (n <=? 0))%Z then
    str "0." ++ zeros (Z.to_nat (- n)) ++ digit_chars ds
  else
    let e := (n - 1)%Z in
    let mantissa :=
      match ds with
      | [] => []
      | [d] => [digit_char d]
      | d :: rest => digit_char d :: str "." ++ digit_chars rest
      end in
    mantissa ++ str "e" ++ (if (e <? 0)%Z then str "-" else str "+") ++
    digit_chars (digits (Z.to_N (Z.abs e))).

Definition Number_toString (x : number) : jsstring :=
  match x with
  | NaN => str "NaN"
  | PosInfinity => str "Infinity"
  | NegInfinity => str "-Infinity"
  | Fin m e =>
      if (m =? 0)%Z then str "0"
      else
        let '(ds, z) := significant (Z.to_N (Z.abs m)) in
        let n := (e + Z.of_nat z + Z.of_nat (length ds))%Z in
        (if (m <? 0)%Z then str "-" else []) ++ format_digits ds n
  end.

End JS.

(* ================================================================== *)
(** ** JavaScript values and JSON *)
(* ================================================================== *)

Module JSON.
Import JS.

(** The values that travel through [JSON.stringify] and [JSON.parse].  An
    object is the list of its own properties in insertion order, which is
    the order JavaScript enumerates them in when no key is an array index,
    as is the case of every key the component writes. *)
Inductive jsval :=
| JUndefined
| JNull
| JBool (b : bool)
| JNum (x : number)
| JStr (s : jsstring)
| JArr (items : list jsval)
| JObj (props : list (jsstring * jsval)).

Fixpoint lookup (k : jsstring) (props : list (jsstring * jsval))
  : option jsval :=
  match props with
  | [] => None
  | (k', v) :: rest => if eqb k' k then Some v else lookup k rest
  end.

(** Assignment to a property: an existing key keeps its place. *)
Fixpoint obj_set (props : list (jsstring * jsval)) (k : jsstring) (v : jsval)
  : list (jsstring * jsval) :=
  match props with
  | [] => [(k, v)]
  | (k', v') :: rest =>
      if eqb k' k then (k', v) :: rest else (k', v') :: obj_set rest k v
  end.

(** *** JSON.stringify *)

Definition hex_char (d : N) : char :=
  if (d <? 10)%N then (48 + d)%N else (87 + d)%N.

Definition unicode_escape (c : char) : jsstring :=
  str "\u" ++
  [hex_char ((c / 4096) mod 16); hex_char ((c / 256) mod 16);
   hex_char ((c / 16) mod 16); hex_char (c mod 16)]%N.

Definition is_high_surrogate (c : char) : bool :=
  (55296 <=? c)%N && (c <=? 56319)%N.
Definition is_low_surrogate (c : char) : bool :=
  (56320 <=? c)%N && (c <=? 57343)%N.

Definition escape_char (c : char) : jsstring :=
  if (c =? 8)%N then str "\b"
  else if (c =? 9)%N then str "\t"
  else if (c =? 10)%N then str "\n"
  else if (c =? 12)%N then str "\f"
  else if (c =? 13)%N then str "\r"
  else if (c =? 34)%N then [92; 34]%N
  else if (c =? 92)%N then [92; 92]%N
  else if (c <? 32)%N then unicode_escape c
  else [c].

Fixpoint quote_body (s : jsstring) : jsstring :=
  match s with
  | [] => []
  | c :: s' =>
      if is_high_surrogate c then
        match s' with
        | d :: s'' =>
            if is_low_surrogate d then c :: d :: quote_body s''
            else unicode_escape c ++ quote_body s'
        | [] => unicode_escape c
        end
      else if is_low_surrogate c then unicode_escape c ++ quote_body s'
      else escape_char c ++ quote_body s'
  end.

(** [QuoteJSONString]. *)
Definition quote (s : jsstring) : jsstring := [34%N] ++ quote_body s ++ [34%N].

(** [SerializeJSONProperty] without replacer or indentation; [None] stands
    for the result [undefined]. *)
Fixpoint serialize (v : jsval) : option jsstring :=
  match v with
  | JUndefined => None
  | JNull => Some (str "null")
  | JBool true => Some (str "true")
  | JBool false => Some (str "false")
  | JNum x => Some (if isFinite x then Number_toString x else str "null")
  | JStr s => Some (quote s)
  | JArr items =>
      Some (str "[" ++
            join (str ",")
              (List.map (fun x => match serialize x with
                                  | Some t => t
                                  | None => str "null"
                                  end) items) ++
            str "]")
  | JObj props =>
      Some (str "{" ++
            join (str ",")
              (List.flat_map
                 (fun kv => match serialize (snd kv) with
                            | Some t => [quote (fst kv) ++ str ":" ++ t]
                            | None => []
                            end) props) ++
            str "}")
  end.

(** [JSON.stringify(v)] for a value that is not [undefined] at top level,
    which is every use in the component. *)
Definition stringify (v : jsval) : jsstring :=
  match serialize v with
  | Some t => t
  | None => str "undefined"
  end.

(** *** JSON.parse *)

Definition is_ws (c : char) : bool :=
  (c =? 32)%N || (c =? 9)%N || (c =? 10)%N || (c =? 13)%N.

Fixpoint skip_ws (s : jsstring) : jsstring :=
  match s with
  | c :: s' => if is_ws c then skip_ws s' else s
  | [] => []
  end.

Definition is_digit (c : char) : bool := (48 <=? c)%N && (c <=? 57)%N.

Fixpoint take_digits (s : jsstring) : list N * jsstring :=
  match s with
  | c :: s' =>
      if is_digit c then
        let '(ds, rest) := take_digits s' in ((c - 48)%N :: ds, rest)
      else ([], s)
  | [] => ([], [])
  end.

Definition hex_value (c : char) : option N :=
  if is_digit c then Some (c - 48)%N
  else if ((97 <=? c) && (c <=? 102))%N then Some (c - 87)%N
  else if ((65 <=? c) && (c <=? 70))%N then Some (c - 55)%N
  else None.

Definition hex4_value (a b c d : char) : option N :=
  match hex_value a, hex_value b, hex_value c, hex_value d with
  | Some x, Some y, Some z, Some w =>
      Some (x * 4096 + y * 256 + z * 16 + w)%N
  | _, _, _, _ => None
  end.

(** The characters of a string literal after its opening quote. *)
Fixpoint parse_string_body (s : jsstring) (acc : jsstring)
  : option (jsstring * jsstring) :=
  match s with
  | [] => None
  | c :: s' =>
      if (c =? 34)%N then Some (rev acc, s')
      else if (c =? 92)%N then
        match s' with
        | [] => None
        | e :: s'' =>
            if (e =? 34)%N then parse_string_body s'' (34%N :: acc)
            else if (e =? 92)%N then parse_string_body s'' (92%N :: acc)
            else if (e =? 47)%N then parse_string_body s'' (47%N :: acc)
            else if (e =? 98)%N then parse_string_body s'' (8%N :: acc)
            else if (e =? 102)%N then parse_string_body s'' (12%N :: acc)
            else if (e =? 110)%N then parse_string_body s'' (10%N :: acc)
            else if (e =? 114)%N then parse_string_body s'' (13%N :: acc)
            else if (e =? 116)%N then parse_string_body s'' (9%N :: acc)
            else if (e =? 117)%N then
              match s'' with
              | h1 :: h2 :: h3 :: h4 :: s3 =>
                  match hex4_value h1 h2 h3 h4 with
                  | Some u => parse_string_body s3 (u :: acc)
                  | None => None
                  end
              | _ => None
              end
            else None
        end
      else if (c <? 32)%N then None
      else parse_string_body s' (c :: acc)
  end.

Definition of_digits (ds : list N) : N :=
  fold_left (fun acc d => (acc * 10 + d)%N) ds 0%N.

(** The number [m * 10^e] with the trailing zeros of [m] moved into the
    exponent, the form in which finite numbers are kept. *)
Definition normal (neg : bool) (m : N) (e : Z) : number :=
  if (m =? 0)%N then Fin 0 0
  else
    let '(sig, z) := significant m in
    let v := Z.of_N (of_digits sig) in
    Fin (if neg then - v else v) (e + Z.of_nat z).

Definition parse_exponent (s : jsstring) : option (Z * jsstring) :=
  match s with
  | c :: s' =>
      if ((c =? 101) || (c =? 69))%N then
        let '(neg, s1) :=
          match s' with
          | sg :: s'' =>
              if (sg =? 45)%N then (true, s'')
              else if (sg =? 43)%N then (false, s'')
              else (false, s')
          | [] => (false, s')
          end in
        match take_digits s1 with
        | ([], _) => None
        | (ds, rest) =>
            let v := Z.of_N (of_digits ds) in
            Some (if neg then (- v)%Z else v, rest)
        end
      else Some (0%Z, s)
  | [] => Some (0%Z, s)
  end.

Definition parse_fraction (s : jsstring) : option (list N * jsstring) :=
  match s with
  | c :: s' =>
      if (c =? 46)%N then
        match take_digits s' with
        | ([], _) => None
        | (ds, rest) => Some (ds, rest)
        end
      else Some ([], s)
  | [] => Some ([], s)
  end.

Definition parse_number (s : jsstring) : option (number * jsstring) :=
  let '(neg, s0) :=
    match s with
    | c :: s' => if (c =? 45)%N then (true, s') else (false, s)
    | [] => (false, s)
    end in
  match take_digits s0 with
  | ([], _) => None
  | (d :: ds, s1) =>
      if ((d =? 0)%N && negb (Nat.eqb (length ds) 0)) then None
      else
        match parse_fraction s1 with
        | None => None
        | Some (fs, s2) =>
            match parse_exponent s2 with
            | None => None
            | Some (ex, s3) =>
                Some (normal neg (of_digits (d :: ds ++ fs))
                        (ex - Z.of_nat (length fs)), s3)
            end
        end
  end.

Definition parser := jsstring -> option (jsval * jsstring).

(** The elements of an array that is not empty, up to its closing
    bracket; [n] bounds the number of elements still to come. *)
Fixpoint parse_elements (pv : parser) (n : nat) (s : jsstring)
  (acc : list jsval) : option (jsval * jsstring) :=
  match n with
  | O => None
  | S n' =>
      match pv s with
      | None => None
      | Some (v, r) =>
          match skip_ws r with
          | c :: r' =>
              if (c =? 44)%N then parse_elements pv n' r' (v :: acc)
              else if (c =? 93)%N then Some (JArr (rev (v :: acc)), r')
              else None
          | [] => None
          end
      end
  end.

Fixpoint parse_members (pv : parser) (n : nat) (s : jsstring)
  (acc : list (jsstring * jsval)) : option (jsval * jsstring) :=
  match n with
  | O => None
  | S n' =>
      match skip_ws s with
      | q :: s1 =>
          if (q =? 34)%N then
            match parse_string_body s1 [] with
            | None => None
            | Some (k, s2) =>
                match skip_ws s2 with
                | c :: s3 =>
                    if (c =? 58)%N then
                      match pv s3 with
                      | None => None
                      | Some (v, r) =>
                          match skip_ws r with
                          | d :: r' =>
                              if (d =? 44)%N
                              then parse_members pv n' r' (obj_set acc k v)
                              else if (d =? 125)%N
                              then Some (JObj (obj_set acc k v), r')
                              else None
                          | [] => None
                          end
                      end
                    else None
                | [] => None
                end
            end
          else None
      | [] => None
      end
  end.

(** One JSON value, leading white space included.  [fuel] bounds the
    nesting depth and the number of elements of a container; any fuel
    above the length of the text is enough. *)
Fixpoint parse_value (fuel : nat) (s : jsstring) {struct fuel}
  : option (jsval * jsstring) :=
  match fuel with
  | O => None
  | S f =>
      match skip_ws s with
      | [] => None
      | c :: rest =>
          if (c =? 34)%N then
            match parse_string_body rest [] with
            | Some (t, r) => Some (JStr t, r)
            | None => None
            end
          else if (c =? 91)%N then
            match skip_ws rest with
            | d :: r =>
                if (d =? 93)%N then Some (JArr [], r)
                else parse_elements (parse_value f) f rest []
            | [] => None
            end
          else if (c =? 123)%N then
            match skip_ws rest with
            | d :: r =>
                if (d =? 125)%N then Some (JObj [], r)
                else parse_members (parse_value f) f rest []
            | [] => None
            end
          else if starts_with (str "true") (c :: rest)
          then Some (JBool true, skipn 4 (c :: rest))
          else if starts_with (str "false") (c :: rest)
          then Some (JBool false, skipn 5 (c :: rest))
          else if starts_with (str "null") (c :: rest)
          then Some (JNull, skipn 4 (c :: rest))
          else
            match parse_number (c :: rest) with
            | Some (x, r) => Some (JNum x, r)
            | None => None
            end
      end
  end.

Definition parse_with (fuel : nat) (text : jsstring) : option jsval :=
  match parse_value fuel text with
  | Some (v, rest) =>
      match skip_ws rest with
      | [] => Some v
      | _ :: _ => None
      end
  | None => None
  end.

(** [JSON.parse(text)]; [None] stands for the [SyntaxError] it throws. *)
Definition parse (text : jsstring) : option jsval :=
  parse_with (S (length text)) text.

(** A parser that leaves less than it was given. *)
Definition shrinking (pv : parser) : Prop :=
  forall t v r, pv t = Some (v, r) -> (length r < length t)%nat.

End JSON.

(* ================================================================== *)
(** ** The browser around the component *)
(* ================================================================== *)

(** [document.cookie], after RFC 6265 sections 5.2 and 5.3 as far as the
    component can observe it.  An assignment keeps what stands before the
    first semicolon and cuts it at its first equals sign into a name and a
    value, with the blanks around each removed; it is ignored when there is
    no equals sign or no name, and otherwise stored under the name.  The
    attributes, the expiry and the size limits are left out.  Reading gives
    the stored pairs joined by "; ". *)
Module Cookie.
Import JS.

Definition jar := list (jsstring * jsstring).

Definition is_blank (c : char) : bool := (c =? 32)%N || (c =? 9)%N.

Fixpoint drop_blanks (s : jsstring) : jsstring :=
  match s with
  | c :: s' => if is_blank c then drop_blanks s' else s
  | [] => []
  end.

Definition trim (s : jsstring) : jsstring :=
  rev (drop_blanks (rev (drop_blanks s))).

(** The part before the first [c] and the part after it, if [c] occurs. *)
Fixpoint cut_at (c : char) (s : jsstring) : jsstring * option jsstring :=
  match s with
  | [] => ([], None)
  | a :: s' =>
      if (a =? c)%N then ([], Some s')
      else let '(l, r) := cut_at c s' in (a :: l, r)
  end.

Fixpoint store (j : jar) (name value : jsstring) : jar :=
  match j with
  | [] => [(name, value)]
  | (n, v) :: rest =>
      if eqb n name then (n, value) :: rest else (n, v) :: store rest name value
  end.

Definition assign (j : jar) (s : jsstring) : jar :=
  let pair := fst (cut_at 59%N s) in
  match cut_at 61%N pair with
  | (name, Some value) =>
      if eqb (trim name) [] then j else store j (trim name) (trim value)
  | (_, None) => j
  end.

Definition entry_text (nv : jsstring * jsstring) : jsstring :=
  fst nv ++ str "=" ++ snd nv.

Definition read (j : jar) : jsstring :=
  join (str "; ") (List.map entry_text j).

(** The value stored under a name. *)
Fixpoint get (j : jar) (name : jsstring) : option jsstring :=
  match j with
  | [] => None
  | (n, v) :: rest => if eqb n name then Some v else get rest name
  end.

(** What [assign] makes of every cookie: no semicolon in it and no equals
    sign in its name; and one cookie per name. *)
Definition entry_ok (nv : jsstring * jsstring) : Prop :=
  contains 59%N (fst nv) = false /\ contains 59%N (snd nv) = false /\
  contains 61%N (fst nv) = false.

Definition jar_ok (j : jar) : Prop :=
  Forall entry_ok j /\ NoDup (List.map fst j).

End Cookie.

Import JS JSON.

(** Date formatting is left to the platform. *)
Class Platform := {
  toUTCString : Z -> jsstring;
  toISOString : Z -> jsstring
}.

(** A remote call either fails in transport or comes back with a response;
    [body] is the text of the response, [None] when it cannot be read. *)
Record Response := {
  ok : bool;
  status : Z;
  statusText : jsstring;
  body : option jsstring
}.

Inductive FetchResult :=
| NetworkFailure
| Responded (r : Response).

(** [await response.json()]: [None] when the promise rejects. *)
Definition response_json (r : Response) : option jsval :=
  match body r with
  | Some t => parse t
  | None => None
  end.

(** What one run of a handler reads from its surroundings: the outcome of
    [fetch], a value of [Math.random()], and the clock at [Date.now()], at
    [new Date()] for the time stamp and at [new Date()] in [setCookie]. *)
Record Env := {
  fetch : FetchResult;
  random : Q;
  date_now : Z;
  timestamp_now : Z;
  cookie_now : Z
}.

Inductive Variant := Default | Destructive.

Inductive Event :=
| Toast (title description : jsstring) (variant : Variant)
| ConsoleLog (label : jsstring)
| ConsoleError (label : jsstring)
| CookieAssign (s : jsstring)
| Fetch (url body : jsstring).

(* ================================================================== *)
(** ** Data model *)
(* ================================================================== *)

Definition props := list (jsstring * jsval).

(** [interface PredictionRecord]; [params] is the object copied from the
    form, [prediction] the value taken from the response as it came. *)
Record PredictionRecord := {
  id : jsstring;
  material : jsstring;
  params : props;
  prediction : jsval;
  timestamp : jsstring;
  remarks : option jsstring
}.

Definition js_of_record (r : PredictionRecord) : jsval :=
  JObj ([(str "id", JStr (id r));
         (str "material", JStr (material r));
         (str "params", JObj (params r));
         (str "prediction", prediction r);
         (str "timestamp", JStr (timestamp r))] ++
        match remarks r with
        | Some t => [(str "remarks", JStr t)]
        | None => []
        end).

Definition js_of_history (h : list PredictionRecord) : jsval :=
  JArr (List.map js_of_record h).

(** The records a parsed value stands for, when it is an array of objects
    with the properties of [PredictionRecord] in the order the component
    writes them. *)
Definition record_of_js (v : jsval) : option PredictionRecord :=
  match v with
  | JObj ((k1, JStr i) :: (k2, JStr m) :: (k3, JObj p) :: rest) =>
      if eqb k1 (str "id") && eqb k2 (str "material") && eqb k3 (str "params")
      then
        let '(pr, rest') :=
          match rest with
          | (k4, x) :: rest' =>
              if eqb k4 (str "prediction") then (x, rest')
              else (JUndefined, rest)
          | [] => (JUndefined, rest)
          end in
        match rest' with
        | [(k5, JStr t)] =>
            if eqb k5 (str "timestamp")
            then Some {| id := i; material := m; params := p;
                         prediction := pr; timestamp := t; remarks := None |}
            else None
        | [(k5, JStr t); (k6, JStr r)] =>
            if eqb k5 (str "timestamp") && eqb k6 (str "remarks")
            then Some {| id := i; material := m; params := p;
                         prediction := pr; timestamp := t; remarks := Some r |}
            else None
        | _ => None
        end
      else None
  | _ => None
  end.

Fixpoint records_of_js (items : list jsval) : option (list PredictionRecord) :=
  match items with
  | [] => Some []
  | v :: rest =>
      match record_of_js v, records_of_js rest with
      | Some r, Some rs => Some (r :: rs)
      | _, _ => None
      end
  end.

Definition history_of_js (v : jsval) : option (list PredictionRecord) :=
  match v with
  | JArr items => records_of_js items
  | _ => None
  end.

(** The state of the component ([useState] cells) and of the world it
    acts on: the cookie jar and the trace of what it emitted, newest
    first. *)
#[projections(primitive)]
Record State := {
  selectedMaterial : jsstring;
  formData : props;
  isLoading : bool;
  currentPrediction : option jsval;
  history : list PredictionRecord;
  filteredHistory : list PredictionRecord;
  currentPage : Z;
  filterMaterial : jsstring;
  filterPrediction : jsstring;
  editingRemarks : option jsstring;
  tempRemarks : jsstring;
  cookies : Cookie.jar;
  events : list Event
}.

Definition setIsLoading (b : bool) (st : State) : State :=
  {| selectedMaterial := selectedMaterial st; formData := formData st;
     isLoading := b; currentPrediction := currentPrediction st;
     history := history st; filteredHistory := filteredHistory st;
     currentPage := currentPage st; filterMaterial := filterMaterial st;
     filterPrediction := filterPrediction st;
     editingRemarks := editingRemarks st; tempRemarks := tempRemarks st;
     cookies := cookies st; events := events st |}.

Definition setCurrentPrediction (p : option jsval) (st : State) : State :=
  {| selectedMaterial := selectedMaterial st; formData := formData st;
     isLoading := isLoading st; currentPrediction := p;
     history := history st; filteredHistory := filteredHistory st;
     currentPage := currentPage st; filterMaterial := filterMaterial st;
     filterPrediction := filterPrediction st;
     editingRemarks := editingRemarks st; tempRemarks := tempRemarks st;
     cookies := cookies st; events := events st |}.

Definition setHistory (h : list PredictionRecord) (st : State) : State :=
  {| selectedMaterial := selectedMaterial st; formData := formData st;
     isLoading := isLoading st; currentPrediction := currentPrediction st;
     history := h; filteredHistory := filteredHistory st;
     currentPage := currentPage st; filterMaterial := filterMaterial st;
     filterPrediction := filterPrediction st;
     editingRemarks := editingRemarks st; tempRemarks := tempRemarks st;
     cookies := cookies st; events := events st |}.

Definition setFilteredHistory (h : list PredictionRecord) (st : State)
  : State :=
  {| selectedMaterial := selectedMaterial st; formData := formData st;
     isLoading := isLoading st; currentPrediction := currentPrediction st;
     history := history st; filteredHistory := h;
     currentPage := currentPage st; filterMaterial := filterMaterial st;
     filterPrediction := filterPrediction st;
     editingRemarks := editingRemarks st; tempRemarks := tempRemarks st;
     cookies := cookies st; events := events st |}.

Definition setCurrentPage (p : Z) (st : State) : State :=
  {| selectedMaterial := selectedMaterial st; formData := formData st;
     isLoading := isLoading st; currentPrediction := currentPrediction st;
     history := history st; filteredHistory := filteredHistory st;
     currentPage := p; filterMaterial := filterMaterial st;
     filterPrediction := filterPrediction st;
     editingRemarks := editingRemarks st; tempRemarks := tempRemarks st;
     cookies := cookies st; events := events st |}.

Definition setFilterMaterial (m : jsstring) (st : State) : State :=
  {| selectedMaterial := selectedMaterial st; formData := formData st;
     isLoading := isLoading st; currentPrediction := currentPrediction st;
     history := history st; filteredHistory := filteredHistory st;
     currentPage := currentPage st; filterMaterial := m;
     filterPrediction := filterPrediction st;
     editingRemarks := editingRemarks st; tempRemarks := tempRemarks st;
     cookies := cookies st; events := events st |}.

Definition setFilterPrediction (p : jsstring) (st : State) : State :=
  {| selectedMaterial := selectedMaterial st; formData := formData st;
     isLoading := isLoading st; currentPrediction := currentPrediction st;
     history := history st; filteredHistory := filteredHistory st;
     currentPage := currentPage st; filterMaterial := filterMaterial st;
     filterPrediction := p;
     editingRemarks := editingRemarks st; tempRemarks := tempRemarks st;
     cookies := cookies st; events := events st |}.

Definition setEditingRemarks (e : option jsstring) (st : State) : State :=
  {| selectedMaterial := selectedMaterial st; formData := formData st;
     isLoading := isLoading st; currentPrediction := currentPrediction st;
     history := history st; filteredHistory := filteredHistory st;
     currentPage := currentPage st; filterMaterial := filterMaterial st;
     filterPrediction := filterPrediction st;
     editingRemarks := e; tempRemarks := tempRemarks st;
     cookies := cookies st; events := events st |}.

Definition setTempRemarks (t : jsstring) (st : State) : State :=
  {| selectedMaterial := selectedMaterial st; formData := formData st;
     isLoading := isLoading st; currentPrediction := currentPrediction st;
     history := history st; filteredHistory := filteredHistory st;
     currentPage := currentPage st; filterMaterial := filterMaterial st;
     filterPrediction := filterPrediction st;
     editingRemarks := editingRemarks st; tempRemarks := t;
     cookies := cookies st; events := events st |}.

Definition setSelectedMaterial (m : jsstring) (st : State) : State :=
  {| selectedMaterial := m; formData := formData st;
     isLoading := isLoading st; currentPrediction := currentPrediction st;
     history := history st; filteredHistory := filteredHistory st;
     currentPage := currentPage st; filterMaterial := filterMaterial st;
     filterPrediction := filterPrediction st;
     editingRemarks := editingRemarks st; tempRemarks := tempRemarks st;
     cookies := cookies st; events := events st |}.

Definition emit (e : Event) (st : State) : State :=
  {| selectedMaterial := selectedMaterial st; formData := formData st;
     isLoading := isLoading st; currentPrediction := currentPrediction st;
     history := history st; filteredHistory := filteredHistory st;
     currentPage := currentPage st; filterMaterial := filterMaterial st;
     filterPrediction := filterPrediction st;
     editingRemarks := editingRemarks st; tempRemarks := tempRemarks st;
     cookies := cookies st; events := e :: events st |}.

(** [document.cookie = s]. *)
Definition assignCookie (s : jsstring) (st : State) : State :=
  emit (CookieAssign s)
  {| selectedMaterial := selectedMaterial st; formData := formData st;
     isLoading := isLoading st; currentPrediction := currentPrediction st;
     history := history st; filteredHistory := filteredHistory st;
     currentPage := currentPage st; filterMaterial := filterMaterial st;
     filterPrediction := filterPrediction st;
     editingRemarks := editingRemarks st; tempRemarks := tempRemarks st;
     cookies := Cookie.assign (cookies st) s; events := events st |}.

Notation "st |> f" := (f st) (at level 45, left associativity, only parsing).

(* ================================================================== *)
(** ** The component: what both variants share *)
(* ================================================================== *)

(** [ToString], as a template literal applies it. *)
Fixpoint to_string (v : jsval) : jsstring :=
  match v with
  | JUndefined => str "undefined"
  | JNull => str "null"
  | JBool true => str "true"
  | JBool false => str "false"
  | JNum x => Number_toString x
  | JStr s => s
  | JArr items =>
      join (str ",")
        (List.map (fun x => match x with
                            | JUndefined | JNull => []
                            | _ => to_string x
                            end) items)
  | JObj _ => str "[object Object]"
  end.

(** [!!v] for the value of a property read; [None] is a missing property. *)
Definition truthy (v : option jsval) : bool :=
  match v with
  | None | Some JUndefined | Some JNull => false
  | Some (JBool b) => b
  | Some (JNum x) =>
      match x with
      | NaN => false
      | Fin m _ => negb (m =? 0)%Z
      | _ => true
      end
  | Some (JStr s) => negb (eqb s [])
  | Some (JArr _) | Some (JObj _) => true
  end.

(** [data.prediction]: reading a property of [null] throws ([None]); a
    value without the property gives [undefined]. *)
Definition get_prediction (data : jsval) : option jsval :=
  match data with
  | JNull | JUndefined => None
  | JObj ps =>
      match lookup (str "prediction") ps with
      | Some v => Some v
      | None => Some JUndefined
      end
  | _ => Some JUndefined
  end.

Definition recordsPerPage : Z := 10.

Definition getCookie (document_cookie name : jsstring) : option jsstring :=
  let value := str "; " ++ document_cookie in
  let parts := split value (str "; " ++ name ++ str "=") in
  if Nat.eqb (length parts) 2 then
    match split (last parts []) (str ";") with
    | first :: _ => if eqb first [] then None else Some first
    | [] => None
    end
  else None.

(** The string [setCookie] assigns to [document.cookie]. *)
Definition cookie_string {P : Platform} (now : Z) (name value : jsstring)
  (days : Z) : jsstring :=
  let expires := (now + days * 24 * 60 * 60 * 1000)%Z in
  name ++ str "=" ++ value ++ str ";expires=" ++ toUTCString expires ++
  str ";path=/".

Definition setCookie {P : Platform} (now : Z) (name value : jsstring)
  (st : State) : State :=
  assignCookie (cookie_string now name value 30) st.

Definition handleInputChange (field : jsstring) (value : jsval) (st : State)
  : State :=
  {| selectedMaterial := selectedMaterial st;
     formData := obj_set (formData st) field value;
     isLoading := isLoading st; currentPrediction := currentPrediction st;
     history := history st; filteredHistory := filteredHistory st;
     currentPage := currentPage st; filterMaterial := filterMaterial st;
     filterPrediction := filterPrediction st;
     editingRemarks := editingRemarks st; tempRemarks := tempRemarks st;
     cookies := cookies st; events := events st |}.

(** The text put in a validation message for a field identifier. *)
Definition field_words (field : jsstring) : jsstring :=
  toLowerCase (space_before_capitals field).

Definition missing (fd : props) (field : jsstring) : bool :=
  negb (truthy (lookup field fd)).

Definition bad_number (fd : props) (field : jsstring) : bool :=
  match lookup field fd with
  | Some (JNum value) => le_zero value || isNaN value
  | _ => false
  end.

(** [validateForm], over the two field lists a variant declares. *)
Definition validate_with (requiredFields numericFields : list jsstring)
  (st : State) : bool * State :=
  match find (missing (formData st)) requiredFields with
  | Some field =>
      (false,
       emit (Toast (str "Validation Error")
               (str "Please select " ++ field_words field) Destructive) st)
  | None =>
      match find (bad_number (formData st)) numericFields with
      | Some field =>
          (false,
           emit (Toast (str "Validation Error")
                   (str "Please enter a valid " ++ field_words field)
                   Destructive) st)
      | None => (true, st)
      end
  end.

(** The record a submission builds and what is done with it, the same in
    every branch that records a prediction. *)
Definition newRecord {P : Platform} (env : Env) (st : State) (label : jsval)
  : PredictionRecord :=
  {| id := Number_toString (of_Z (date_now env));
     material := selectedMaterial st;
     params := formData st;
     prediction := label;
     timestamp := toISOString (timestamp_now env);
     remarks := None |}.

Definition record_prediction {P : Platform} (env : Env) (label : jsval)
  (st : State) : State :=
  let st1 := setCurrentPrediction (Some label) st in
  let newHistory := newRecord env st label :: history st in
  st1 |> setHistory newHistory
      |> setCookie (cookie_now env) (str "cvd_history")
           (stringify (js_of_history newHistory))
      |> emit (Toast (str "Prediction Complete")
                 (str "Result: " ++ to_string label) Default).

Definition handleRemarksEdit {P : Platform} (now : Z) (recordId : jsstring)
  (text : jsstring) (st : State) : State :=
  let updatedHistory :=
    List.map (fun record =>
                if eqb (id record) recordId
                then {| id := id record; material := material record;
                        params := params record;
                        prediction := prediction record;
                        timestamp := timestamp record;
                        remarks := Some text |}
                else record) (history st) in
  st |> setHistory updatedHistory
     |> setCookie now (str "cvd_history")
          (stringify (js_of_history updatedHistory))
     |> setEditingRemarks None
     |> setTempRemarks [].

(** The effect run on mount: the value handed to [setHistory] and
    [setFilteredHistory] (the initial empty array when neither is called)
    and what is written to the console. *)
Definition load (document_cookie : jsstring) : jsval * list Event :=
  match getCookie document_cookie (str "cvd_history") with
  | Some savedHistory =>
      match parse savedHistory with
      | Some parsed => (parsed, [])
      | None =>
          (JArr [], [ConsoleError (str "Error parsing history from cookies:")])
      end
  | None => (JArr [], [])
  end.

(** The effect that follows every change of the history or of a filter. *)
Definition filterEffect (st : State) : State :=
  let filtered := history st in
  let filtered :=
    if negb (eqb (filterMaterial st) (str "all"))
    then filter (fun record => eqb (material record) (filterMaterial st))
           filtered
    else filtered in
  let filtered :=
    if negb (eqb (filterPrediction st) (str "all"))
    then filter (fun record =>
                   match prediction record with
                   | JStr p => eqb p (filterPrediction st)
                   | _ => false
                   end) filtered
    else filtered in
  st |> setFilteredHistory filtered |> setCurrentPage 1.

(** [Array.prototype.slice(start, end)]. *)
Definition slice {A} (l : list A) (start stop : Z) : list A :=
  let len := Z.of_nat (length l) in
  let k := if (start <? 0)%Z then Z.max (len + start) 0 else Z.min start len in
  let fin := if (stop <? 0)%Z then Z.max (len + stop) 0 else Z.min stop len in
  firstn (Z.to_nat (Z.max (fin - k) 0)) (skipn (Z.to_nat k) l).

(** [Math.ceil(a / b)] on integers. *)
Definition ceil_div (a b : Z) : Z := Qceiling (inject_Z a / inject_Z b).

Definition totalPages (st : State) : Z :=
  ceil_div (Z.of_nat (length (filteredHistory st))) recordsPerPage.
Definition startIndex (st : State) : Z := ((currentPage st - 1) * recordsPerPage)%Z.
Definition endIndex (st : State) : Z := (startIndex st + recordsPerPage)%Z.
Definition currentRecords (st : State) : list PredictionRecord :=
  slice (filteredHistory st) (startIndex st) (endIndex st).

(** The two page buttons, rendered when there is more than one page and
    disabled at the first and at the last page. *)
Definition onPreviousPage (st : State) : State :=
  if ((1 <? totalPages st) && negb (currentPage st =? 1))%Z
  then setCurrentPage (Z.max 1 (currentPage st - 1)) st
  else st.

Definition onNextPage (st : State) : State :=
  if ((1 <? totalPages st) && negb (currentPage st =? totalPages st))%Z
  then setCurrentPage (Z.min (totalPages st) (currentPage st + 1)) st
  else st.

(** [x || 0], what the numeric inputs store of [parseFloat(...)] and
    [parseInt(...)]. *)
Definition or_zero (x : number) : number :=
  if truthy (Some (JNum x)) then x else of_Z 0.

(** [onChange] of a numeric input; [parsed] is what [parseFloat] or
    [parseInt] made of the text in the input. *)
Definition onNumberChange (field : jsstring) (parsed : number) (st : State)
  : State :=
  handleInputChange field (JNum (or_zero parsed)) st.

(** [onValueChange] of a select. *)
Definition onSelectChange (field : jsstring) (value : jsstring) (st : State)
  : State :=
  handleInputChange field (JStr value) st.

(** [record.remarks || ''] and [record.remarks || 'No remarks']. *)
Definition remarks_or (r : PredictionRecord) (default : jsstring)
  : jsstring :=
  match remarks r with
  | Some t => if eqb t [] then default else t
  | None => default
  end.

(** The buttons of the remark editor of one record: open, type, cancel
    and save. *)
Definition onEditRemarks (record : PredictionRecord) (st : State) : State :=
  st |> setEditingRemarks (Some (id record))
     |> setTempRemarks (remarks_or record []).

Definition onRemarksInput (text : jsstring) (st : State) : State :=
  setTempRemarks text st.

Definition onCancelRemarks (st : State) : State :=
  st |> setEditingRemarks None |> setTempRemarks [].

Definition onSaveRemarks {P : Platform} (now : Z) (record : PredictionRecord)
  (st : State) : State :=
  handleRemarksEdit now (id record) (tempRemarks st) st.

(** The remark shown under a record. *)
Definition shownRemarks (record : PredictionRecord) : jsstring :=
  remarks_or record (str "No remarks").

(** The branch a submission ends in, after the states of the submission
    state machine. *)
Inductive Outcome := Rejected | Succeeded | Degraded | Aborted.

Definition predictions : list jsval :=
  [JStr (str "excellent"); JStr (str "qualified"); JStr (str "no yield")].

(** [predictions[Math.floor(Math.random() * predictions.length)]]. *)
Definition sample (r : Q) : jsval :=
  let i := Qfloor (r * inject_Z (Z.of_nat (length predictions))) in
  if (i <? 0)%Z then JUndefined
  else nth (Z.to_nat i) predictions JUndefined.

(* ================================================================== *)
(** ** The variant that calls the prediction server *)
(* ================================================================== *)

Module Remote.

(** [interface PredictionParams]. *)
Record PredictionParams := {
  substrateType : jsstring;
  metalChalcogenRatio : number;
  hArRatio : number;
  pressureType : jsstring;
  metalTemperature : number;
  chalcogenTemperature : number;
  substratePosition : jsstring;
  reactionTime : number;
  saltAddition : jsstring
}.

(** The object a [PredictionParams] value is at run time. *)
Definition object (p : PredictionParams) : props :=
  [(str "substrateType", JStr (substrateType p));
   (str "metalChalcogenRatio", JNum (metalChalcogenRatio p));
   (str "hArRatio", JNum (hArRatio p));
   (str "pressureType", JStr (pressureType p));
   (str "metalTemperature", JNum (metalTemperature p));
   (str "chalcogenTemperature", JNum (chalcogenTemperature p));
   (str "substratePosition", JStr (substratePosition p));
   (str "reactionTime", JNum (reactionTime p));
   (str "saltAddition", JStr (saltAddition p))].

Definition requiredFields : list jsstring :=
  [str "substrateType"; str "pressureType"; str "substratePosition";
   str "saltAddition"].

Definition numericFields : list jsstring :=
  [str "metalChalcogenRatio"; str "hArRatio"; str "metalTemperature";
   str "chalcogenTemperature"; str "reactionTime"].

Definition validateForm (st : State) : bool * State :=
  validate_with requiredFields numericFields st.

Definition materialMap : list (jsstring * jsstring) :=
  [(str "ws2", str "WSe2");
   (str "mos2", str "MoS2");
   (str "wse2", str "WSe2");
   (str "mose2", str "MoSe2")].

Fixpoint materialMap_get (m : list (jsstring * jsstring)) (key : jsstring)
  : option jsstring :=
  match m with
  | [] => None
  | (k, v) :: rest => if eqb k key then Some v else materialMap_get rest key
  end.

(** [materialMap[selectedMaterial] || 'WSe2']. *)
Definition apiMaterial (selected : jsstring) : jsstring :=
  match materialMap_get materialMap selected with
  | Some code => if eqb code [] then str "WSe2" else code
  | None => str "WSe2"
  end.

Definition apiUrl (selected : jsstring) : jsstring :=
  str "http://127.0.0.1:5000/predict/" ++ apiMaterial selected.

(** The [try] block; [None] in the first component when it throws. *)
Definition try_submit {P : Platform} (env : Env) (st : State)
  : option Outcome * State :=
  let st :=
    st |> emit (ConsoleLog (str "Sending request to:"))
       |> emit (ConsoleLog (str "Request data:"))
       |> emit (Fetch (apiUrl (selectedMaterial st))
                  (stringify (JObj (formData st)))) in
  match fetch env with
  | NetworkFailure => (None, st)
  | Responded response =>
      let st := emit (ConsoleLog (str "Response status:")) st in
      if ok response then
        match response_json response with
        | None => (None, st)
        | Some data =>
            let st := emit (ConsoleLog (str "Response data:")) st in
            match get_prediction data with
            | None => (None, st)
            | Some label => (Some Succeeded, record_prediction env label st)
            end
        end
      else
        let st := emit (ConsoleError (str "API Error:")) st in
        match body response with
        | None => (None, st)
        | Some _ =>
            (Some Aborted,
             st |> emit (ConsoleError (str "Error details:"))
                |> emit (Toast (str "API Error")
                           (str "Server returned " ++
                            Number_toString (of_Z (status response)) ++
                            str ": " ++ statusText response)
                           Destructive))
        end
  end.

Definition run_submit {P : Platform} (env : Env) (st : State)
  : Outcome * State :=
  match validateForm st with
  | (false, st') => (Rejected, st')
  | (true, st') =>
      let st1 := st' |> setIsLoading true |> setCurrentPrediction None in
      match try_submit env st1 with
      | (Some o, st2) => (o, setIsLoading false st2)
      | (None, st2) =>
          (Aborted,
           st2 |> emit (ConsoleError (str "Network error:"))
               |> emit (Toast (str "Network Error")
                          (str "Failed to connect to the prediction server. Please check if the server is running.")
                          Destructive)
               |> setIsLoading false)
      end
  end.

Definition handleSubmit {P : Platform} (env : Env) (st : State) : State :=
  snd (run_submit env st).

Definition handleDeleteRecord {P : Platform} (now : Z) (recordId : jsstring)
  (st : State) : State :=
  let updatedHistory :=
    filter (fun record => negb (eqb (id record) recordId)) (history st) in
  st |> setHistory updatedHistory
     |> setCookie now (str "cvd_history")
          (stringify (js_of_history updatedHistory))
     |> emit (Toast (str "Record Deleted")
                (str "Prediction record has been removed from history.")
                Default).

(** The state after the first render, before the mount effect. *)
Definition initial (jar : Cookie.jar) : State :=
  {| selectedMaterial := str "ws2";
     formData :=
       object {| substrateType := []; metalChalcogenRatio := of_Z 0;
                 hArRatio := of_Z 0; pressureType := [];
                 metalTemperature := of_Z 0; chalcogenTemperature := of_Z 0;
                 substratePosition := []; reactionTime := of_Z 0;
                 saltAddition := [] |};
     isLoading := false; currentPrediction := None;
     history := []; filteredHistory := [];
     currentPage := 1; filterMaterial := str "all";
     filterPrediction := str "all";
     editingRemarks := None; tempRemarks := [];
     cookies := jar; events := [] |}.

(** The material options of the page. *)
Record MaterialOption := {
  value : jsstring;
  label : jsstring;
  fullName : jsstring;
  ratio : jsstring;
  metal : jsstring;
  chalcogen : jsstring;
  color : jsstring
}.

Definition materials : list MaterialOption :=
  [{| value := str "ws2"; label := str "WS" ++ [8322%N];
      fullName := str "Tungsten Disulfide";
      ratio := str "W/S"; metal := str "W"; chalcogen := str "S";
      color := str "from-blue-500 to-indigo-600" |};
   {| value := str "mos2"; label := str "MoS" ++ [8322%N];
      fullName := str "Molybdenum Disulfide";
      ratio := str "Mo/S"; metal := str "Mo"; chalcogen := str "S";
      color := str "from-emerald-500 to-teal-600" |};
   {| value := str "wse2"; label := str "WSe" ++ [8322%N];
      fullName := str "Tungsten Diselenide";
      ratio := str "W/Se"; metal := str "W"; chalcogen := str "Se";
      color := str "from-purple-500 to-violet-600" |};
   {| value := str "mose2"; label := str "MoSe" ++ [8322%N];
      fullName := str "Molybdenum Diselenide";
      ratio := str "Mo/Se"; metal := str "Mo"; chalcogen := str "Se";
      color := str "from-orange-500 to-red-600" |}].

Definition getPredictionColor (prediction : jsval) : jsstring :=
  match prediction with
  | JStr p =>
      if eqb p (str "excellent") then
        str "bg-emerald-50 text-emerald-700 border-emerald-200 ring-emerald-100"
      else if eqb p (str "qualified") then
        str "bg-amber-50 text-amber-700 border-amber-200 ring-amber-100"
      else if eqb p (str "no yield") then
        str "bg-rose-50 text-rose-700 border-rose-200 ring-rose-100"
      else str "bg-slate-50 text-slate-700 border-slate-200 ring-slate-100"
  | _ => str "bg-slate-50 text-slate-700 border-slate-200 ring-slate-100"
  end.

Definition getCurrentMaterial (st : State) : option MaterialOption :=
  find (fun m => eqb (value m) (selectedMaterial st)) materials.

(** A material button, with the effect that clears the prediction when
    the selected material has changed. *)
Definition onSelectMaterial (m : MaterialOption) (st : State) : State :=
  if eqb (value m) (selectedMaterial st) then st
  else st |> setSelectedMaterial (value m) |> setCurrentPrediction None.

End Remote.

(* ================================================================== *)
(** ** The variant that simulates a prediction when the call fails *)
(* ================================================================== *)

Module Simulated.

Record PredictionParams := {
  substrateType : jsstring;
  wSRatio : number;
  hArRatio : number;
  pressureType : jsstring;
  wTemperature : number;
  sTemperature : number;
  substratePosition : jsstring;
  reactionTime : number;
  saltAddition : jsstring
}.

Definition object (p : PredictionParams) : props :=
  [(str "substrateType", JStr (substrateType p));
   (str "wSRatio", JNum (wSRatio p));
   (str "hArRatio", JNum (hArRatio p));
   (str "pressureType", JStr (pressureType p));
   (str "wTemperature", JNum (wTemperature p));
   (str "sTemperature", JNum (sTemperature p));
   (str "substratePosition", JStr (substratePosition p));
   (str "reactionTime", JNum (reactionTime p));
   (str "saltAddition", JStr (saltAddition p))].

Definition requiredFields : list jsstring :=
  [str "substrateType"; str "pressureType"; str "substratePosition";
   str "saltAddition"].

Definition numericFields : list jsstring :=
  [str "wSRatio"; str "hArRatio"; str "wTemperature"; str "sTemperature";
   str "reactionTime"].

Definition validateForm (st : State) : bool * State :=
  validate_with requiredFields numericFields st.

(** The [try] block; [None] in the first component when it throws. *)
Definition try_submit {P : Platform} (env : Env) (st : State)
  : option Outcome * State :=
  let st :=
    emit (Fetch (str "/predict/" ++ selectedMaterial st)
            (stringify (JObj (formData st)))) st in
  match fetch env with
  | NetworkFailure => (None, st)
  | Responded response =>
      if ok response then
        match response_json response with
        | None => (None, st)
        | Some data =>
            match get_prediction data with
            | None => (None, st)
            | Some label => (Some Succeeded, record_prediction env label st)
            end
        end
      else
        (Some Degraded, record_prediction env (sample (random env)) st)
  end.

Definition run_submit {P : Platform} (env : Env) (st : State)
  : Outcome * State :=
  match validateForm st with
  | (false, st') => (Rejected, st')
  | (true, st') =>
      let st1 := st' |> setIsLoading true |> setCurrentPrediction None in
      match try_submit env st1 with
      | (Some o, st2) => (o, setIsLoading false st2)
      | (None, st2) =>
          (Degraded,
           st2 |> emit (ConsoleError (str "Prediction error:"))
               |> record_prediction env (sample (random env))
               |> setIsLoading false)
      end
  end.

Definition handleSubmit {P : Platform} (env : Env) (st : State) : State :=
  snd (run_submit env st).

Record MaterialOption := {
  value : jsstring;
  label : jsstring;
  fullName : jsstring
}.

Definition materials : list MaterialOption :=
  [{| value := str "ws2"; label := str "WS" ++ [8322%N];
      fullName := str "Tungsten Disulfide" |};
   {| value := str "mos2"; label := str "MoS" ++ [8322%N];
      fullName := str "Molybdenum Disulfide" |};
   {| value := str "wse2"; label := str "WSe" ++ [8322%N];
      fullName := str "Tungsten Diselenide" |};
   {| value := str "mose2"; label := str "MoSe" ++ [8322%N];
      fullName := str "Molybdenum Diselenide" |}].

Definition getPredictionColor (prediction : jsval) : jsstring :=
  match prediction with
  | JStr p =>
      if eqb p (str "excellent") then
        str "bg-green-100 text-green-800 border-green-200"
      else if eqb p (str "qualified") then
        str "bg-yellow-100 text-yellow-800 border-yellow-200"
      else if eqb p (str "no yield") then
        str "bg-red-100 text-red-800 border-red-200"
      else str "bg-gray-100 text-gray-800 border-gray-200"
  | _ => str "bg-gray-100 text-gray-800 border-gray-200"
  end.

Definition getCurrentMaterial (st : State) : option MaterialOption :=
  find (fun m => eqb (value m) (selectedMaterial st)) materials.

(** A material button; this variant has no effect on the selected
    material. *)
Definition onSelectMaterial (m : MaterialOption) (st : State) : State :=
  setSelectedMaterial (value m) st.

End Simulated.

(* ================================================================== *)
(** ** Notions used to state the properties *)
(* ================================================================== *)

(** The [value]s of the four material options offered on the page. *)
Definition materials : list jsstring :=
  [str "ws2"; str "mos2"; str "wse2"; str "mose2"].

Definition jsstring_eq_dec (s t : jsstring) : {s = t} + {s <> t} :=
  list_eq_dec N.eq_dec s t.

(** [sub] is [l] with some elements left out, the others in their order. *)
Inductive Subseq {A : Type} : list A -> list A -> Prop :=
| Subseq_nil : Subseq [] []
| Subseq_skip : forall x sub l, Subseq sub l -> Subseq sub (x :: l)
| Subseq_keep : forall x sub l, Subseq sub l -> Subseq (x :: sub) (x :: l).

Definition is_toast (e : Event) : bool :=
  match e with Toast _ _ _ => true | _ => false end.

Definition is_destructive (e : Event) : bool :=
  match e with Toast _ _ Destructive => true | _ => false end.

Definition is_cookie_write (e : Event) : bool :=
  match e with CookieAssign _ => true | _ => false end.

(** The write of the whole collection [h] to the durable slot. *)
Definition history_write {P : Platform} (now : Z) (h : list PredictionRecord)
  : jsstring :=
  cookie_string now (str "cvd_history") (stringify (js_of_history h)) 30.

Definition validation_toast (message : jsstring) : Event :=
  Toast (str "Validation Error") message Destructive.

(** A number accepted by the numeric check of the validator. *)
Definition accepted_number (x : number) : bool :=
  negb (le_zero x) && negb (isNaN x).

(** The validator as the specification words it, the numeric condition
    being the one the code applies: the message for the first offending
    field, if there is one. *)
Definition validate_spec (p : Remote.PredictionParams) : option jsstring :=
  if eqb (Remote.substrateType p) [] then
    Some (str "Please select substrate type")
  else if eqb (Remote.pressureType p) [] then
    Some (str "Please select pressure type")
  else if eqb (Remote.substratePosition p) [] then
    Some (str "Please select substrate position")
  else if eqb (Remote.saltAddition p) [] then
    Some (str "Please select salt addition")
  else if negb (accepted_number (Remote.metalChalcogenRatio p)) then
    Some (str "Please enter a valid metal chalcogen ratio")
  else if negb (accepted_number (Remote.hArRatio p)) then
    Some (str "Please enter a valid h ar ratio")
  else if negb (accepted_number (Remote.metalTemperature p)) then
    Some (str "Please enter a valid metal temperature")
  else if negb (accepted_number (Remote.chalcogenTemperature p)) then
    Some (str "Please enter a valid chalcogen temperature")
  else if negb (accepted_number (Remote.reactionTime p)) then
    Some (str "Please enter a valid reaction time")
  else None.

(** The operations on the history store and a session of them; every
    operation is followed by the filter effect. *)
Inductive Op :=
| Append (env : Env) (label : jsval)
| SetRemark (now : Z) (recordId text : jsstring)
| Delete (now : Z) (recordId : jsstring).

Definition step {P : Platform} (st : State) (op : Op) : State :=
  filterEffect
    match op with
    | Append env label => record_prediction env label st
    | SetRemark now recordId text => handleRemarksEdit now recordId text st
    | Delete now recordId => Remote.handleDeleteRecord now recordId st
    end.

Definition run {P : Platform} (ops : list Op) (st : State) : State :=
  fold_left step ops st.

(** The clock readings that became identifiers, in the order of the
    submissions. *)
Fixpoint readings (ops : list Op) : list Z :=
  match ops with
  | [] => []
  | Append env _ :: rest => date_now env :: readings rest
  | _ :: rest => readings rest
  end.

(** [Date.now().toString()]. *)
Definition id_of_reading (t : Z) : jsstring := Number_toString (of_Z t).

(** Time values lie within 8.64e15 milliseconds of the epoch. *)
Definition time_value (t : Z) : Prop :=
  (- 8640000000000000 <= t <= 8640000000000000)%Z.

(** What a reload finds in the durable slot. *)
Definition reload (st : State) : jsval * list Event :=
  load (Cookie.read (cookies st)).

(** *** A concrete platform: UTC date formatting *)

Definition pad (width : nat) (z : Z) : jsstring :=
  let ds := digit_chars (digits (Z.to_N z)) in
  zeros (width - length ds) ++ ds.

(** Year, month and day of a day count from the epoch (proleptic
    Gregorian calendar). *)
Definition civil (days : Z) : Z * Z * Z :=
  let z := (days + 719468)%Z in
  let era := (z / 146097)%Z in
  let doe := (z - era * 146097)%Z in
  let yoe := ((doe - doe / 1460 + doe / 36524 - doe / 146096) / 365)%Z in
  let doy := (doe - (365 * yoe + yoe / 4 - yoe / 100))%Z in
  let mp := ((5 * doy + 2) / 153)%Z in
  let d := (doy - (153 * mp + 2) / 5 + 1)%Z in
  let m := (if mp <? 10 then mp + 3 else mp - 9)%Z in
  let y := (yoe + era * 400 + (if m <=? 2 then 1 else 0))%Z in
  (y, m, d).

Definition day_names : list jsstring :=
  [str "Thu"; str "Fri"; str "Sat"; str "Sun"; str "Mon"; str "Tue";
   str "Wed"].

Definition month_names : list jsstring :=
  [str "Jan"; str "Feb"; str "Mar"; str "Apr"; str "May"; str "Jun";
   str "Jul"; str "Aug"; str "Sep"; str "Oct"; str "Nov"; str "Dec"].

Definition clock_time (ms : Z) : jsstring :=
  pad 2 ((ms / 3600000) mod 24) ++ str ":" ++
  pad 2 ((ms / 60000) mod 60) ++ str ":" ++
  pad 2 ((ms / 1000) mod 60).

Definition utc_string (ms : Z) : jsstring :=
  let days := (ms / 86400000)%Z in
  let '(y, m, d) := civil days in
  nth (Z.to_nat (days mod 7)) day_names [] ++ str ", " ++
  pad 2 d ++ str " " ++ nth (Z.to_nat (m - 1)) month_names [] ++ str " " ++
  pad 4 y ++ str " " ++ clock_time ms ++ str " GMT".

Definition iso_string (ms : Z) : jsstring :=
  let '(y, m, d) := civil (ms / 86400000) in
  pad 4 y ++ str "-" ++ pad 2 m ++ str "-" ++ pad 2 d ++ str "T" ++
  clock_time ms ++ str "." ++ pad 3 (ms mod 1000) ++ str "Z".

(** Dates of the years 0 to 9999, which is where the formats above hold. *)
Definition utc_platform : Platform :=
  {| toUTCString := utc_string; toISOString := iso_string |}.

(* ================================================================== *)
(** ** Sample data *)
(* ================================================================== *)

Definition sample_params : Remote.PredictionParams :=
  {| Remote.substrateType := str "sapphire";
     Remote.metalChalcogenRatio := Fin 5 (-1);
     Remote.hArRatio := Fin 2 (-1);
     Remote.pressureType := str "atmospheric";
     Remote.metalTemperature := Fin 8 2;
     Remote.chalcogenTemperature := Fin 15 1;
     Remote.substratePosition := str "top";
     Remote.reactionTime := Fin 3 1;
     Remote.saltAddition := str "yes" |}.

(** The sample with an infinite metal/chalcogen ratio. *)
Definition infinite_params : Remote.PredictionParams :=
  {| Remote.substrateType := str "sapphire";
     Remote.metalChalcogenRatio := PosInfinity;
     Remote.hArRatio := Fin 2 (-1);
     Remote.pressureType := str "atmospheric";
     Remote.metalTemperature := Fin 8 2;
     Remote.chalcogenTemperature := Fin 15 1;
     Remote.substratePosition := str "top";
     Remote.reactionTime := Fin 3 1;
     Remote.saltAddition := str "yes" |}.

(** The sample without a pressure regime. *)
Definition incomplete_params : Remote.PredictionParams :=
  {| Remote.substrateType := str "sapphire";
     Remote.metalChalcogenRatio := Fin 5 (-1);
     Remote.hArRatio := Fin 2 (-1);
     Remote.pressureType := [];
     Remote.metalTemperature := Fin 8 2;
     Remote.chalcogenTemperature := Fin 15 1;
     Remote.substratePosition := str "top";
     Remote.reactionTime := Fin 3 1;
     Remote.saltAddition := str "yes" |}.

(** A session with the form filled in, MoS2 selected, the given history
    and the login cookie in the jar. *)
Definition session (fd : props) (h : list PredictionRecord) : State :=
  {| selectedMaterial := str "mos2";
     formData := fd;
     isLoading := false; currentPrediction := None;
     history := h; filteredHistory := h;
     currentPage := 1; filterMaterial := str "all";
     filterPrediction := str "all";
     editingRemarks := None; tempRemarks := [];
     cookies := [(str "cvd_user", str "admin")]; events := [] |}.

Definition ready : State := session (Remote.object sample_params) [].

Definition clock (t : Z) (f : FetchResult) : Env :=
  {| fetch := f; random := 7 # 10; date_now := t;
     timestamp_now := t; cookie_now := t |}.

Definition answer (text : string) : FetchResult :=
  Responded {| ok := true; status := 200; statusText := str "OK";
               body := Some (str text) |}.

Definition server_error : FetchResult :=
  Responded {| ok := false; status := 500;
               statusText := str "INTERNAL SERVER ERROR";
               body := Some (str "oops") |}.

Definition excellent_answer : FetchResult :=
  Responded {| ok := true; status := 200; statusText := str "OK";
               body := Some ([123; 34] ++ str "prediction" ++ [34; 58; 34] ++
                             str "excellent" ++ [34; 125])%N |}.

Definition sample_record (i : string) (r : option jsstring)
  : PredictionRecord :=
  {| id := str i; material := str "mos2";
     params := Remote.object sample_params;
     prediction := JStr (str "excellent");
     timestamp := str "2025-11-03T06:06:40.000Z";
     remarks := r |}.


(** The two page buttons as events, and a run of presses. *)
Inductive PageButton := Previous | Next.

Definition press (st : State) (b : PageButton) : State :=
  match b with
  | Previous => onPreviousPage st
  | Next => onNextPage st
  end.

Definition numbered (n : nat) : list PredictionRecord :=
  List.map (fun i => sample_record "r" (Some (digit_chars (digits (N.of_nat i)))))
    (seq 1 n).


(** The records whose identifier is not [recordId]. *)
Definition without (recordId : jsstring) (h : list PredictionRecord)
  : list PredictionRecord :=
  filter (fun record => negb (eqb (id record) recordId)) h.

(** What a recorded prediction tells the user. *)
Definition complete_toast (label : jsval) : Event :=
  Toast (str "Prediction Complete") (str "Result: " ++ to_string label)
    Default.

(** The body of a response that carries [label] as its outcome. *)
Definition labelled (label : string) : FetchResult :=
  Responded {| ok := true; status := 200; statusText := str "OK";
               body := Some ([123; 34] ++ str "prediction" ++ [34; 58; 34] ++
                             str label ++ [34; 125])%N |}.

(** What the mount effect writes to the console when parsing fails. *)
Definition parse_error : Event :=
  ConsoleError (str "Error parsing history from cookies:").

(** A session in which one prediction was recorded, and the same session
    after a remark with a semicolon in it was saved on that record. *)
Definition one_prediction : State :=
  Remote.handleSubmit (P := utc_platform)
    (clock 1762150000000 (labelled "excellent")) ready.

Definition remark_with_semicolon : State :=
  handleRemarksEdit (P := utc_platform) 1762150060000 (str "1762150000000")
    (str "thin; uneven") one_prediction.

(** One step of reading a decimal numeral, and the sign a whole number
    prints with. *)
Definition decimal_step (acc d : N) : N := (acc * 10 + d)%N.

Definition sign_text (t : Z) : jsstring :=
  if (t <? 0)%Z then str "-" else [].

(** A session of two predictions and a remark, and one in which the clock
    gave the same reading to two submissions. *)
Definition two_predictions : list Op :=
  [Append (clock 1762150000000 (labelled "excellent")) (JStr (str "excellent"));
   SetRemark 1762150030000 (str "1762150000000") (str "uniform film");
   Append (clock 1762150060000 (labelled "qualified")) (JStr (str "qualified"));
   Delete 1762150090000 (str "1699999999999")].

Definition same_millisecond : State :=
  Remote.handleSubmit (P := utc_platform)
    (clock 1762150000000 (labelled "qualified"))
    (Remote.handleSubmit (P := utc_platform)
       (clock 1762150000000 (labelled "excellent")) ready).

(** The text [getCookie] cuts at: "; name=". *)
Definition cookie_separator (name : jsstring) : jsstring :=
  str "; " ++ name ++ str "=".

(** The cookies of a jar as [getCookie] lays them out, each behind "; ". *)
Definition chunks (j : Cookie.jar) : jsstring :=
  flat_map (fun nv => str "; " ++ Cookie.entry_text nv) j.

(** A text that is over or goes on with a semicolon. *)
Definition at_boundary (rest : jsstring) : Prop :=
  rest = [] \/ exists r, rest = 59%N :: r.

(** The decimal numeral with the given digits. *)
Fixpoint uint_of_digits (ds : list N) : Decimal.uint :=
  match ds with
  | [] => Decimal.Nil
  | d :: rest =>
      let u := uint_of_digits rest in
      match d with
      | 0 => Decimal.D0 u | 1 => Decimal.D1 u | 2 => Decimal.D2 u
      | 3 => Decimal.D3 u | 4 => Decimal.D4 u | 5 => Decimal.D5 u
      | 6 => Decimal.D6 u | 7 => Decimal.D7 u | 8 => Decimal.D8 u
      | _ => Decimal.D9 u
      end%N
  end.

(** A finite number in the form in which numbers are kept: zero, or a
    mantissa that is not a multiple of ten. *)
Definition normal_number (x : number) : Prop :=
  match x with
  | Fin m e => (m = 0 /\ e = 0)%Z \/ (Z.abs m mod 10 <> 0)%Z
  | _ => False
  end.

(** What follows a value inside a JSON text written by [stringify]: the
    end, a comma or a closing bracket. *)
Definition delimited (rest : jsstring) : Prop :=
  match rest with
  | [] => True
  | c :: _ => c = 44%N \/ c = 93%N \/ c = 125%N
  end.

(** A text that does not go on with a digit. *)
Definition not_digit_next (rest : jsstring) : Prop :=
  match rest with
  | [] => True
  | c :: _ => is_digit c = false
  end.

(** The parts of a JSON number text: fraction digits and exponent. *)
Definition fraction_text (fs : list N) : jsstring :=
  match fs with
  | [] => []
  | _ => str "." ++ digit_chars fs
  end.

Definition exponent_text (ex : option Z) : jsstring :=
  match ex with
  | None => []
  | Some v =>
      str "e" ++ (if (v <? 0)%Z then str "-" else str "+") ++
      digit_chars (digits (Z.to_N (Z.abs v)))
  end.

Definition exponent_value (ex : option Z) : Z :=
  match ex with
  | None => 0
  | Some v => v
  end.

(** *** Values that survive serialization *)

(** Nothing undefined, every number finite and in normal form, and no key
    twice in an object. *)
Fixpoint storable (v : jsval) : Prop :=
  match v with
  | JUndefined => False
  | JNull | JBool _ | JStr _ => True
  | JNum x => normal_number x
  | JArr items =>
      (fix all (l : list jsval) : Prop :=
         match l with
         | [] => True
         | x :: r => storable x /\ all r
         end) items
  | JObj props =>
      (fix all (l : list (jsstring * jsval)) : Prop :=
         match l with
         | [] => True
         | kv :: r => storable (snd kv) /\ all r
         end) props /\ NoDup (List.map fst props)
  end.

Fixpoint size (v : jsval) : nat :=
  match v with
  | JArr items =>
      S ((fix sum (l : list jsval) : nat :=
            match l with
            | [] => O
            | x :: r => (size x + sum r)%nat
            end) items)
  | JObj props =>
      S ((fix sum (l : list (jsstring * jsval)) : nat :=
            match l with
            | [] => O
            | kv :: r => (size (snd kv) + sum r)%nat
            end) props)
  | _ => 1%nat
  end.

(** A text that begins a value: not with white space and not with a
    closing bracket. *)
Definition starts_value (text : jsstring) : Prop :=
  exists c t, text = c :: t /\ is_ws c = false /\ c <> 93%N /\ c <> 125%N.

(** [v] is written as a text that [parse_value] reads back as [v],
    whatever delimited text follows and with any fuel above the length. *)
Definition reads_back (v : jsval) : Prop :=
  exists text,
    serialize v = Some text /\ starts_value text /\
    forall fuel rest,
      delimited rest -> (length (text ++ rest) < fuel)%nat ->
      parse_value fuel (text ++ rest) = Some (v, rest).

(** The text of an array element and of an object member. *)
Definition element_text (x : jsval) : jsstring :=
  match serialize x with
  | Some t => t
  | None => str "null"
  end.

Definition member_text (kv : jsstring * jsval) : list jsstring :=
  match serialize (snd kv) with
  | Some t => [quote (fst kv) ++ str ":" ++ t]
  | None => []
  end.

(** A record whose parameters and label survive serialization. *)
Definition storable_record (r : PredictionRecord) : Prop :=
  storable (JObj (params r)) /\ storable (prediction r).

(* ================================================================== *)
(** ** The login page *)
(* ================================================================== *)

Module Auth.

Module Login.
Record Data := { username : jsstring; password : jsstring }.
End Login.

(** The registration form; only one of the two versions of the page has
    the field [labName]. *)
Module Register.
Record Data := {
  username : jsstring;
  email : jsstring;
  labName : option jsstring;
  password : jsstring;
  confirmPassword : jsstring
}.
End Register.

(** What the page emits: notices, an assignment to [document.cookie] and
    [navigate(path)]. *)
Inductive Event :=
| Toast (title description : jsstring) (variant : Variant)
| CookieAssign (s : jsstring)
| Navigate (path : jsstring).

(** The texts of the notices, which is where the two versions of the page
    differ, apart from [labName]. *)
Record Texts := {
  login_failed : jsstring;
  enter_credentials : jsstring;
  login_successful : jsstring;
  welcome_back : jsstring;
  invalid_credentials : jsstring;
  registration_failed : jsstring;
  fill_required : jsstring;
  passwords_differ : jsstring;
  registration_successful : jsstring;
  account_created : jsstring;
  send_failed : jsstring;
  enter_email : jsstring;
  email_sent : jsstring;
  link_sent : jsstring;
  has_labName : bool
}.

Definition english : Texts :=
  {| login_failed := str "Login Failed";
     enter_credentials := str "Please enter username and password";
     login_successful := str "Login Successful";
     welcome_back := str "Welcome back!";
     invalid_credentials := str "Invalid username or password";
     registration_failed := str "Registration Failed";
     fill_required := str "Please fill in all required fields";
     passwords_differ := str "Passwords do not match";
     registration_successful := str "Registration Successful";
     account_created := str "Your account has been created, please login";
     send_failed := str "Send Failed";
     enter_email := str "Please enter your email address";
     email_sent := str "Email Sent";
     link_sent := str "Password reset link has been sent to your email";
     has_labName := true |}.

(** The Chinese texts, as UTF-16 code units. *)
Definition chinese : Texts :=
  {| login_failed := [30331; 24405; 22833; 36133]%N;
     enter_credentials :=
       [35831; 36755; 20837; 29992; 25143; 21517; 21644; 23494; 30721]%N;
     login_successful := [30331; 24405; 25104; 21151]%N;
     welcome_back :=
       [27426; 36814; 22238; 26469; 65292; 31649; 29702; 21592; 65281]%N;
     invalid_credentials :=
       [29992; 25143; 21517; 25110; 23494; 30721; 38169; 35823]%N;
     registration_failed := [27880; 20876; 22833; 36133]%N;
     fill_required :=
       [35831; 22635; 20889; 25152; 26377; 24517; 22635; 23383; 27573]%N;
     passwords_differ :=
       [20004; 27425; 36755; 20837; 30340; 23494; 30721; 19981; 19968;
        33268]%N;
     registration_successful := [27880; 20876; 25104; 21151]%N;
     account_created :=
       [24744; 30340; 36134; 21495; 24050; 21019; 24314; 65292; 35831;
        30331; 24405]%N;
     send_failed := [21457; 36865; 22833; 36133]%N;
     enter_email :=
       [35831; 36755; 20837; 24744; 30340; 37038; 31665; 22320; 22336]%N;
     email_sent := [37038; 20214; 24050; 21457; 36865]%N;
     link_sent :=
       [37325; 32622; 23494; 30721; 38142; 25509; 24050; 21457; 36865;
        33267; 24744; 30340; 37038; 31665; 65292; 35831; 26597; 25910]%N;
     has_labName := false |}.

(** The state of the page and of the world it acts on; the events are
    kept newest first. *)
Record State := {
  showPassword : bool;
  activeTab : jsstring;
  loginData : Login.Data;
  registerData : Register.Data;
  forgotEmail : jsstring;
  cookies : Cookie.jar;
  events : list Event
}.

Definition emptyRegisterData (T : Texts) : Register.Data :=
  {| Register.username := []; Register.email := [];
     Register.labName := if has_labName T then Some [] else None;
     Register.password := []; Register.confirmPassword := [] |}.

(** The state after the first render. *)
Definition initial (T : Texts) (jar : Cookie.jar) : State :=
  {| showPassword := false; activeTab := str "login";
     loginData := {| Login.username := []; Login.password := [] |};
     registerData := emptyRegisterData T;
     forgotEmail := [];
     cookies := jar; events := [] |}.

Definition setShowPassword (b : bool) (st : State) : State :=
  {| showPassword := b; activeTab := activeTab st;
     loginData := loginData st; registerData := registerData st;
     forgotEmail := forgotEmail st;
     cookies := cookies st; events := events st |}.

Definition setActiveTab (t : jsstring) (st : State) : State :=
  {| showPassword := showPassword st; activeTab := t;
     loginData := loginData st; registerData := registerData st;
     forgotEmail := forgotEmail st;
     cookies := cookies st; events := events st |}.

Definition setLoginData (d : Login.Data) (st : State) : State :=
  {| showPassword := showPassword st; activeTab := activeTab st;
     loginData := d; registerData := registerData st;
     forgotEmail := forgotEmail st;
     cookies := cookies st; events := events st |}.

Definition setRegisterData (d : Register.Data) (st : State) : State :=
  {| showPassword := showPassword st; activeTab := activeTab st;
     loginData := loginData st; registerData := d;
     forgotEmail := forgotEmail st;
     cookies := cookies st; events := events st |}.

Definition setForgotEmail (e : jsstring) (st : State) : State :=
  {| showPassword := showPassword st; activeTab := activeTab st;
     loginData := loginData st; registerData := registerData st;
     forgotEmail := e;
     cookies := cookies st; events := events st |}.

Definition emit (e : Event) (st : State) : State :=
  {| showPassword := showPassword st; activeTab := activeTab st;
     loginData := loginData st; registerData := registerData st;
     forgotEmail := forgotEmail st;
     cookies := cookies st; events := e :: events st |}.

(** [document.cookie = s]. *)
Definition assignCookie (s : jsstring) (st : State) : State :=
  emit (CookieAssign s)
  {| showPassword := showPassword st; activeTab := activeTab st;
     loginData := loginData st; registerData := registerData st;
     forgotEmail := forgotEmail st;
     cookies := Cookie.assign (cookies st) s; events := events st |}.

(** The [onChange] handlers of the login inputs and the eye button. *)
Definition onLoginUsername (text : jsstring) (st : State) : State :=
  setLoginData {| Login.username := text;
                  Login.password := Login.password (loginData st) |} st.

Definition onLoginPassword (text : jsstring) (st : State) : State :=
  setLoginData {| Login.username := Login.username (loginData st);
                  Login.password := text |} st.

Definition onToggleShowPassword (st : State) : State :=
  setShowPassword (negb (showPassword st)) st.

Definition loginCookie : jsstring :=
  str "cvd_user=admin; path=/; max-age=86400".

Definition handleLogin (T : Texts) (st : State) : State :=
  let d := loginData st in
  if eqb (Login.username d) [] || eqb (Login.password d) [] then
    emit (Toast (login_failed T) (enter_credentials T) Destructive) st
  else if eqb (Login.username d) (str "admin")
          && eqb (Login.password d) (str "admin") then
    st |> assignCookie loginCookie
       |> emit (Toast (login_successful T) (welcome_back T) Default)
       |> emit (Navigate (str "/"))
  else
    emit (Toast (login_failed T) (invalid_credentials T) Destructive) st.

Definition handleRegister (T : Texts) (st : State) : State :=
  let d := registerData st in
  if eqb (Register.username d) [] || eqb (Register.email d) []
     || eqb (Register.password d) [] then
    emit (Toast (registration_failed T) (fill_required T) Destructive) st
  else if negb (eqb (Register.password d) (Register.confirmPassword d)) then
    emit (Toast (registration_failed T) (passwords_differ T) Destructive) st
  else
    st |> emit (Toast (registration_successful T) (account_created T) Default)
       |> setActiveTab (str "login")
       |> setRegisterData (emptyRegisterData T).

Definition handleForgotPassword (T : Texts) (st : State) : State :=
  if eqb (forgotEmail st) [] then
    emit (Toast (send_failed T) (enter_email T) Destructive) st
  else
    st |> emit (Toast (email_sent T) (link_sent T) Default)
       |> setForgotEmail []
       |> setActiveTab (str "login").

End Auth.

(* ================================================================== *)
(** ** Notions used to state further properties *)
(* ================================================================== *)

(** The two tests of the filter effect, each open when its filter is
    [all]. *)
Definition material_passes (st : State) (record : PredictionRecord) : bool :=
  eqb (filterMaterial st) (str "all")
  || eqb (material record) (filterMaterial st).

Definition prediction_passes (st : State) (record : PredictionRecord)
  : bool :=
  eqb (filterPrediction st) (str "all")
  || match prediction record with
     | JStr p => eqb p (filterPrediction st)
     | _ => false
     end.

(** The records of page [p] and the pages from the first to the last. *)
Definition page (st : State) (p : Z) : list PredictionRecord :=
  currentRecords (setCurrentPage p st).

Definition pages (st : State) : list (list PredictionRecord) :=
  List.map (fun i => page st (Z.of_nat i))
    (seq 1 (Z.to_nat (totalPages st))).

(** A record with its remark replaced. *)
Definition with_remarks (text : jsstring) (record : PredictionRecord)
  : PredictionRecord :=
  {| id := id record; material := material record;
     params := params record; prediction := prediction record;
     timestamp := timestamp record; remarks := Some text |}.

(** [x > 0]. *)
Definition gt_zero (x : number) : bool :=
  match x with
  | PosInfinity => true
  | Fin m _ => (0 <? m)%Z
  | _ => false
  end.

Definition is_fetch (e : Event) : bool :=
  match e with Fetch _ _ => true | _ => false end.

(** What the variant that calls the server shows when the [try] block
    throws. *)
Definition network_error_toast : Event :=
  Toast (str "Network Error")
    (str "Failed to connect to the prediction server. Please check if the server is running.")
    Destructive.

(** A response whose body [response.json()] rejects, or gives [null], of
    which no property can be read. *)
Definition unusable (r : Response) : Prop :=
  response_json r = None \/ response_json r = Some JNull.

(** The form with one numeric field at infinity. *)
Definition with_infinite_ratio (p : Remote.PredictionParams)
  : Remote.PredictionParams :=
  {| Remote.substrateType := Remote.substrateType p;
     Remote.metalChalcogenRatio := PosInfinity;
     Remote.hArRatio := Remote.hArRatio p;
     Remote.pressureType := Remote.pressureType p;
     Remote.metalTemperature := Remote.metalTemperature p;
     Remote.chalcogenTemperature := Remote.chalcogenTemperature p;
     Remote.substratePosition := Remote.substratePosition p;
     Remote.reactionTime := Remote.reactionTime p;
     Remote.saltAddition := Remote.saltAddition p |}.

(** The numbers of a form that are written and read without change. *)
Definition normal_params (p : Remote.PredictionParams) : Prop :=
  normal_number (Remote.metalChalcogenRatio p) /\
  normal_number (Remote.hArRatio p) /\
  normal_number (Remote.metalTemperature p) /\
  normal_number (Remote.chalcogenTemperature p) /\
  normal_number (Remote.reactionTime p).

(** A filled form of the variant with the fallback. *)
Definition simulated_params : Simulated.PredictionParams :=
  {| Simulated.substrateType := str "sapphire";
     Simulated.wSRatio := Fin 5 (-1);
     Simulated.hArRatio := Fin 2 (-1);
     Simulated.pressureType := str "low";
     Simulated.wTemperature := Fin 8 2;
     Simulated.sTemperature := Fin 15 1;
     Simulated.substratePosition := str "top";
     Simulated.reactionTime := Fin 3 1;
     Simulated.saltAddition := str "no" |}.

(** The record a submission makes when the response has no prediction. *)
Definition unlabelled_record {P : Platform} (env : Env) (st : State)
  : PredictionRecord :=
  newRecord env st JUndefined.

(** The object a record is written as when its label is [undefined]. *)
Definition js_without_prediction (r : PredictionRecord) : jsval :=
  JObj ([(str "id", JStr (id r));
         (str "material", JStr (material r));
         (str "params", JObj (params r));
         (str "timestamp", JStr (timestamp r))] ++
        match remarks r with
        | Some t => [(str "remarks", JStr t)]
        | None => []
        end).

(** The clock reading an operation writes the cookie at. *)
Definition op_time (op : Op) : Z :=
  match op with
  | Append env _ => cookie_now env
  | SetRemark now _ _ => now
  | Delete now _ => now
  end.


(** The navigations and the cookie assignments in a trace of the login
    page. *)
Definition is_navigation (e : Auth.Event) : bool :=
  match e with Auth.Navigate _ => true | _ => false end.

Definition is_login_cookie_write (e : Auth.Event) : bool :=
  match e with Auth.CookieAssign _ => true | _ => false end.

(** The one pair of credentials. *)
Definition admin_credentials : Auth.Login.Data :=
  {| Auth.Login.username := str "admin"; Auth.Login.password := str "admin" |}.

(** Typing a name and a password into the login form and submitting. *)
Definition login_with (T : Auth.Texts) (name pass : jsstring)
  (st : Auth.State) : Auth.State :=
  Auth.handleLogin T
    (Auth.onLoginPassword pass (Auth.onLoginUsername name st)).

(** A registration form that [handleRegister] accepts: name, e-mail
    address and password filled in and the password repeated. *)
Definition registration_filled (d : Auth.Register.Data) : Prop :=
  Auth.Register.username d <> [] /\ Auth.Register.email d <> [] /\
  Auth.Register.password d <> [] /\
  Auth.Register.password d = Auth.Register.confirmPassword d.

(** The number of capital letters of a text, and a text of Basic Latin
    characters only. *)
Definition capitals (s : jsstring) : nat :=
  length (filter is_upper s).

Definition basic_latin (s : jsstring) : Prop :=
  Forall (fun c => (c < 128)%N) s.
(* ================================================================== *)
(** ** Strings *)
(* ================================================================== *)

Lemma eqb_refl (s : jsstring) : eqb s s = true.
Proof.
  induction s as [|c s IH]; simpl; [reflexivity|].
  now rewrite N.eqb_refl, IH.
Qed.

Lemma eqb_eq (s t : jsstring) : eqb s t = true <-> s = t.
Proof.
  split.
  - revert t; induction s as [|a s IH]; intros [|b t]; simpl;
      try discriminate; [reflexivity|].
    intros H. apply andb_true_iff in H as [Hab Hst].
    apply N.eqb_eq in Hab. now rewrite Hab, (IH t Hst).
  - intros ->. apply eqb_refl.
Qed.

Lemma eqb_neq (s t : jsstring) : eqb s t = false <-> s <> t.
Proof.
  split.
  - intros H E. apply eqb_eq in E. congruence.
  - intros H. destruct (eqb s t) eqn:E; [|reflexivity].
    apply eqb_eq in E. contradiction.
Qed.

(** Texts stay folded while states are simplified. *)
Arguments str : simpl never.
Arguments stringify : simpl never.
Arguments to_string : simpl never.
Arguments Number_toString : simpl never.
Arguments cookie_string : simpl never.
Arguments Cookie.assign : simpl never.
Arguments Remote.apiUrl : simpl never.
Arguments js_of_history : simpl never.

(** Closed statements are settled by evaluation, conjunct by conjunct. *)
Ltac evaluate :=
  repeat match goal with |- _ /\ _ => split end;
  vm_compute; try reflexivity.

(* ================================================================== *)
(** ** The material map *)
(* ================================================================== *)

(** C5: the lookup has four entries, one per material option; the options
    resolve to exactly three distinct remote codes, ws2 and wse2 to the
    same one, mos2 and mose2 each to one of their own; the request goes to
    the address ending in that code. *)
Theorem materialMap_four_to_three :
  List.map fst Remote.materialMap = materials /\
  length Remote.materialMap = 4%nat /\
  Remote.apiMaterial (str "ws2") = str "WSe2" /\
  Remote.apiMaterial (str "wse2") = str "WSe2" /\
  Remote.apiMaterial (str "mos2") = str "MoS2" /\
  Remote.apiMaterial (str "mose2") = str "MoSe2" /\
  nodup jsstring_eq_dec (List.map Remote.apiMaterial materials)
    = [str "MoS2"; str "WSe2"; str "MoSe2"] /\
  NoDup [str "MoS2"; str "WSe2"; str "MoSe2"] /\
  (forall m, In m materials ->
     Remote.apiUrl m = str "http://127.0.0.1:5000/predict/" ++
                       Remote.apiMaterial m).
Proof.
  repeat split; try reflexivity.
  repeat constructor; simpl; intuition discriminate.
Qed.

(* ================================================================== *)
(** ** The validator *)
(* ================================================================== *)

Lemma validate_with_false_events required numeric st :
  fst (validate_with required numeric st) = false ->
  exists message,
    snd (validate_with required numeric st)
    = emit (validation_toast message) st.
Proof.
  unfold validate_with.
  destruct (find (missing (formData st)) required).
  - intros _. eexists. reflexivity.
  - destruct (find (bad_number (formData st)) numeric).
    + intros _. eexists. reflexivity.
    + discriminate.
Qed.

Ltac split_number x :=
  destruct x as [ | | | [ | ? | ? ] ? ]; try reflexivity.

Lemma validateForm_refines (p : Remote.PredictionParams) (st : State) :
  formData st = Remote.object p ->
  Remote.validateForm st =
  match validate_spec p with
  | Some message => (false, emit (validation_toast message) st)
  | None => (true, st)
  end.
Proof.
  intros Hfd. unfold Remote.validateForm, validate_with. rewrite Hfd.
  destruct p as [s1 n1 n2 s2 n3 n4 s3 n5 s4].
  destruct s1 as [|? ?]; [reflexivity|].
  destruct s2 as [|? ?]; [reflexivity|].
  destruct s3 as [|? ?]; [reflexivity|].
  destruct s4 as [|? ?]; [reflexivity|].
  split_number n1; split_number n2; split_number n3; split_number n4;
    split_number n5.
Qed.

(** C2, as stated, fails: a candidate whose metal/chalcogen ratio is
    positive infinity passes the validator although that field is not a
    finite number. *)
Lemma validateForm_accepts_infinity :
  fst (Remote.validateForm (session (Remote.object infinite_params) [])) = true
  /\ isFinite (Remote.metalChalcogenRatio infinite_params) = false.
Proof. split; reflexivity. Qed.

(** C2, amended: the validator checks substrate type, pressure regime,
    substrate position and salt-additive flag in that order and fails on the
    first empty one; only then it checks metal/chalcogen ratio, H2/Ar ratio,
    metal temperature, chalcogen temperature and reaction time in that
    order, each of which must be a number other than NaN and strictly
    greater than zero (positive infinity passes), and fails on the first
    that is not; a failure shows one message naming the field, returns
    false, and the submit handler then leaves the history and the cookies
    as they were and sends no request. *)
Theorem validateForm_order_and_rejection :
  forall (P : Platform) (p : Remote.PredictionParams) (st : State) (env : Env),
    formData st = Remote.object p ->
    Remote.validateForm st =
      match validate_spec p with
      | Some message => (false, emit (validation_toast message) st)
      | None => (true, st)
      end /\
    (fst (Remote.validateForm st) = true <->
       Remote.substrateType p <> [] /\ Remote.pressureType p <> [] /\
       Remote.substratePosition p <> [] /\ Remote.saltAddition p <> [] /\
       accepted_number (Remote.metalChalcogenRatio p) = true /\
       accepted_number (Remote.hArRatio p) = true /\
       accepted_number (Remote.metalTemperature p) = true /\
       accepted_number (Remote.chalcogenTemperature p) = true /\
       accepted_number (Remote.reactionTime p) = true) /\
    (fst (Remote.validateForm st) = false ->
       Remote.run_submit env st = (Rejected, snd (Remote.validateForm st)) /\
       history (Remote.handleSubmit env st) = history st /\
       cookies (Remote.handleSubmit env st) = cookies st /\
       exists message,
         events (Remote.handleSubmit env st)
         = validation_toast message :: events st).
Proof.
  intros P p st env Hfd.
  pose proof (validateForm_refines p st Hfd) as Href.
  split; [exact Href|]. split.
  - rewrite Href. unfold validate_spec.
    destruct (eqb (Remote.substrateType p) []) eqn:E1.
    { apply eqb_eq in E1. simpl. intuition congruence. }
    destruct (eqb (Remote.pressureType p) []) eqn:E2.
    { apply eqb_eq in E2. simpl. intuition congruence. }
    destruct (eqb (Remote.substratePosition p) []) eqn:E3.
    { apply eqb_eq in E3. simpl. intuition congruence. }
    destruct (eqb (Remote.saltAddition p) []) eqn:E4.
    { apply eqb_eq in E4. simpl. intuition congruence. }
    apply eqb_neq in E1, E2, E3, E4.
    destruct (accepted_number (Remote.metalChalcogenRatio p));
      [|simpl; intuition congruence].
    destruct (accepted_number (Remote.hArRatio p));
      [|simpl; intuition congruence].
    destruct (accepted_number (Remote.metalTemperature p));
      [|simpl; intuition congruence].
    destruct (accepted_number (Remote.chalcogenTemperature p));
      [|simpl; intuition congruence].
    destruct (accepted_number (Remote.reactionTime p));
      simpl; intuition congruence.
  - intros Hfalse.
    destruct (validate_with_false_events _ _ _ Hfalse) as [message Hm].
    unfold Remote.handleSubmit, Remote.run_submit.
    unfold Remote.validateForm in *.
    destruct (validate_with Remote.requiredFields Remote.numericFields st)
      as [b st'] eqn:Hv.
    simpl in Hfalse, Hm. subst b st'. simpl.
    repeat split. exists message. reflexivity.
Qed.

Lemma validateForm_order_and_rejection_witness :
  formData (session (Remote.object incomplete_params) [])
  = Remote.object incomplete_params /\
  Remote.validateForm (session (Remote.object incomplete_params) [])
  = (false,
     emit (validation_toast (str "Please select pressure type"))
       (session (Remote.object incomplete_params) [])) /\
  history (Remote.handleSubmit (P := utc_platform)
             (clock 1762150000000 excellent_answer)
             (session (Remote.object incomplete_params) [])) = [].
Proof.
  pose proof (validateForm_order_and_rejection utc_platform incomplete_params
                (session (Remote.object incomplete_params) [])
                (clock 1762150000000 excellent_answer) eq_refl)
    as [Href [_ Hrej]].
  split; [reflexivity|]. split; [exact Href|].
  destruct (Hrej eq_refl) as [_ [Hh _]]. exact Hh.
Defined.

(* ================================================================== *)
(** ** The view: pages *)
(* ================================================================== *)

Lemma ceil_div_10 (n : Z) : ceil_div n 10 = ((n + 9) / 10)%Z.
Proof.
  unfold ceil_div, Qceiling, Qfloor, Qdiv, Qmult, Qinv, Qopp, inject_Z.
  simpl. rewrite Z.mul_1_r.
  pose proof (Z.div_mod (- n) 10 ltac:(lia)) as H1.
  pose proof (Z.mod_pos_bound (- n) 10 ltac:(lia)) as H2.
  pose proof (Z.div_mod (n + 9) 10 ltac:(lia)) as H3.
  pose proof (Z.mod_pos_bound (n + 9) 10 ltac:(lia)) as H4.
  lia.
Qed.

Lemma slice_window {A} (l : list A) (start : Z) :
  (0 <= start)%Z ->
  slice l start (start + 10) = firstn 10 (skipn (Z.to_nat start) l).
Proof.
  intros Hs. unfold slice.
  assert (Hlen : length (skipn (Z.to_nat start) l)
                 = (length l - Z.to_nat start)%nat) by apply length_skipn.
  destruct (start <? 0)%Z eqn:E1; [lia|].
  destruct (start + 10 <? 0)%Z eqn:E2; [lia|].
  destruct (Z_le_gt_dec start (Z.of_nat (length l))) as [Hle|Hgt].
  - rewrite (Z.min_l start) by lia.
    destruct (Z_le_gt_dec (start + 10) (Z.of_nat (length l))) as [Hle2|Hgt2].
    + rewrite Z.min_l by lia.
      replace (Z.to_nat (Z.max (start + 10 - start) 0)) with 10%nat by lia.
      reflexivity.
    + rewrite Z.min_r by lia.
      rewrite !firstn_all2; [reflexivity| |]; rewrite Hlen; lia.
  - rewrite (Z.min_r start) by lia. rewrite Z.min_r by lia.
    replace (Z.to_nat (Z.max (Z.of_nat (length l) - Z.of_nat (length l)) 0))
      with 0%nat by lia.
    rewrite (skipn_all2 (n := Z.to_nat start)) by lia.
    rewrite Nat2Z.id, skipn_all. reflexivity.
Qed.

Lemma currentRecords_window (st : State) :
  (1 <= currentPage st)%Z ->
  currentRecords st
  = firstn 10 (skipn (Z.to_nat ((currentPage st - 1) * 10))
                 (filteredHistory st)).
Proof.
  intros Hp. unfold currentRecords, endIndex, startIndex, recordsPerPage.
  apply slice_window. lia.
Qed.

Lemma press_filteredHistory (st : State) (b : PageButton) :
  filteredHistory (press st b) = filteredHistory st.
Proof.
  destruct b; simpl; unfold onPreviousPage, onNextPage;
    match goal with |- context [if ?c then _ else _] => destruct c end;
    reflexivity.
Qed.

Lemma press_totalPages (st : State) (b : PageButton) :
  totalPages (press st b) = totalPages st.
Proof. unfold totalPages. now rewrite press_filteredHistory. Qed.

Lemma press_in_range (st : State) (b : PageButton) :
  (1 <= currentPage st <= Z.max 1 (totalPages st))%Z ->
  (1 <= currentPage (press st b) <= Z.max 1 (totalPages st))%Z.
Proof.
  intros Hr. destruct b; simpl; unfold onPreviousPage, onNextPage.
  - destruct ((1 <? totalPages st)%Z && negb (currentPage st =? 1)%Z);
      simpl; lia.
  - destruct ((1 <? totalPages st)%Z
              && negb (currentPage st =? totalPages st)%Z) eqn:E;
      simpl; [|lia].
    apply andb_true_iff in E as [E _]. apply Z.ltb_lt in E. lia.
Qed.

Lemma presses_in_range (bs : list PageButton) (st : State) :
  (1 <= currentPage st <= Z.max 1 (totalPages st))%Z ->
  (1 <= currentPage (fold_left press bs st) <= Z.max 1 (totalPages st))%Z
  /\ filteredHistory (fold_left press bs st) = filteredHistory st.
Proof.
  revert st. induction bs as [|b bs IH]; intros st Hr; simpl.
  - split; [exact Hr|reflexivity].
  - destruct (IH (press st b)) as [H1 H2].
    + rewrite press_totalPages. now apply press_in_range.
    + rewrite press_totalPages in H1. rewrite H2, press_filteredHistory.
      split; [exact H1|reflexivity].
Qed.

(** C8: the page count is the ceiling of the filtered count over ten; the
    page [p >= 1] holds the filtered records [(p-1)*10+1] to [p*10] (as
    many of them as exist); with 25 filtered records there are three pages,
    page 1 holding records 1 to 10 and page 3 records 21 to 25; the page
    buttons keep the page index, whatever is pressed after a reset to
    page 1, at least 1 and at most the last page (when there is a page at
    all), and each on its own clamps at 1 and at the page count. *)
Theorem pagination_pages_and_clamping :
  forall (st : State) (bs : list PageButton),
    let n := Z.of_nat (length (filteredHistory st)) in
    totalPages st = ((n + 9) / 10)%Z /\
    (10 * (totalPages st - 1) < n <= 10 * totalPages st)%Z /\
    ((1 <= currentPage st)%Z ->
       currentRecords st
       = firstn 10 (skipn (Z.to_nat ((currentPage st - 1) * 10))
                      (filteredHistory st)) /\
       forall j, (j < 10)%nat ->
         nth_error (currentRecords st) j
         = nth_error (filteredHistory st)
             (Z.to_nat ((currentPage st - 1) * 10) + j)) /\
    (length (filteredHistory st) = 25%nat ->
       totalPages st = 3%Z /\
       (currentPage st = 1%Z ->
          currentRecords st = firstn 10 (filteredHistory st)) /\
       (currentPage st = 3%Z ->
          currentRecords st = skipn 20 (filteredHistory st) /\
          length (currentRecords st) = 5%nat)) /\
    (1 <= currentPage (fold_left press bs (setCurrentPage 1 st))
       <= Z.max 1 (totalPages st))%Z /\
    ((1 <= currentPage st <= totalPages st)%Z ->
       (1 <= currentPage (onPreviousPage st) <= totalPages st)%Z /\
       (1 <= currentPage (onNextPage st) <= totalPages st)%Z) /\
    (forall prev : Z,
       (1 <= Z.max 1 (prev - 1))%Z /\
       (Z.min (totalPages st) (prev + 1) <= totalPages st)%Z).
Proof.
  intros st bs n.
  assert (Htp : totalPages st = ((n + 9) / 10)%Z).
  { unfold totalPages, recordsPerPage. apply ceil_div_10. }
  split; [exact Htp|]. split.
  { rewrite Htp.
    pose proof (Z.div_mod (n + 9) 10 ltac:(lia)) as H1.
    pose proof (Z.mod_pos_bound (n + 9) 10 ltac:(lia)) as H2.
    lia. }
  split.
  { intros Hp. split; [now apply currentRecords_window|].
    intros j Hj. rewrite currentRecords_window by exact Hp.
    rewrite nth_error_firstn, nth_error_skipn.
    apply Nat.ltb_lt in Hj. now rewrite Hj. }
  split.
  { intros H25. subst n. rewrite H25 in Htp.
    split; [rewrite Htp; reflexivity|]. split.
    - intros H1. rewrite currentRecords_window by lia. now rewrite H1.
    - intros H3. rewrite currentRecords_window by lia. rewrite H3.
      change (Z.to_nat ((3 - 1) * 10)) with 20%nat.
      assert (Hl : length (skipn 20 (filteredHistory st)) = 5%nat)
        by (rewrite length_skipn, H25; reflexivity).
      rewrite firstn_all2 by lia. split; [reflexivity|exact Hl]. }
  split.
  { apply (presses_in_range bs (setCurrentPage 1 st)). simpl.
    change (totalPages (setCurrentPage 1 st)) with (totalPages st). lia. }
  split.
  { intros Hr. split.
    - pose proof (press_in_range st Previous) as H. simpl in H. lia.
    - pose proof (press_in_range st Next) as H. simpl in H. lia. }
  intros prev. lia.
Qed.

Lemma pagination_pages_and_clamping_witness :
  let st := setCurrentPage 3 (session [] (numbered 25)) in
  (1 <= currentPage st)%Z /\
  length (filteredHistory st) = 25%nat /\
  totalPages st = 3%Z /\
  List.map remarks (currentRecords st)
  = List.map (fun t => Some (str t)) ["21"; "22"; "23"; "24"; "25"]%string /\
  currentPage (fold_left press [Next; Next; Previous; Next; Next]
                 (setCurrentPage 1 st)) = 3%Z.
Proof.
  intros st.
  pose proof (pagination_pages_and_clamping st [Next; Next; Next]) as T.
  cbv zeta in T.
  destruct T as [_ [_ [Hpage [H25 _]]]].
  assert (Hp : (1 <= currentPage st)%Z) by (simpl; lia).
  destruct (Hpage Hp) as [Hw _].
  destruct (H25 eq_refl) as [Ht [_ H3]].
  destruct (H3 eq_refl) as [Hs _].
  split; [exact Hp|]. split; [reflexivity|]. split; [exact Ht|].
  split; [rewrite Hs; reflexivity|reflexivity].
Defined.

(* ================================================================== *)
(** ** Deleting a record *)
(* ================================================================== *)










(* ================================================================== *)
(** ** Submitting *)
(* ================================================================== *)

Lemma validate_with_true_state required numeric st :
  fst (validate_with required numeric st) = true ->
  validate_with required numeric st = (true, st).
Proof.
  unfold validate_with.
  destruct (find (missing (formData st)) required); [discriminate|].
  destruct (find (bad_number (formData st)) numeric); [discriminate|].
  reflexivity.
Qed.

Lemma record_prediction_effect (P : Platform) (env : Env) (label : jsval)
  (st : State) :
  let st' := record_prediction env label st in
  history st' = newRecord env st label :: history st /\
  events st'
  = complete_toast label
    :: CookieAssign (history_write (cookie_now env) (history st'))
    :: events st /\
  cookies st'
  = Cookie.assign (cookies st) (history_write (cookie_now env) (history st')) /\
  currentPrediction st' = Some label /\
  selectedMaterial st' = selectedMaterial st /\
  formData st' = formData st /\
  isLoading st' = isLoading st.
Proof. repeat split. Qed.






(** [sample] cuts the unit interval into thirds, one per label. *)
Lemma sample_thirds (r : Q) :
  0 <= r -> r < 1 ->
  (r < 1 # 3 -> sample r = JStr (str "excellent")) /\
  (1 # 3 <= r -> r < 2 # 3 -> sample r = JStr (str "qualified")) /\
  (2 # 3 <= r -> sample r = JStr (str "no yield")).
Proof.
  intros H0 H1. unfold sample.
  change (inject_Z (Z.of_nat (length predictions))) with (3 # 1).
  pose proof (Qfloor_le (r * (3 # 1))) as Hlo.
  pose proof (Qlt_floor (r * (3 # 1))) as Hhi.
  set (i := Qfloor (r * (3 # 1))) in *.
  rewrite inject_Z_plus in Hhi. change (inject_Z 1) with 1 in Hhi.
  assert (Hi0 : (0 <= i)%Z).
  { apply Z.lt_succ_r. rewrite <- Z.add_1_r, Zlt_Qlt, inject_Z_plus.
    change (inject_Z 0) with 0. change (inject_Z 1) with 1. lra. }
  assert (Hi3 : (i < 3)%Z).
  { rewrite Zlt_Qlt. change (inject_Z 3) with 3. lra. }
  assert (Hcases : i = 0%Z \/ i = 1%Z \/ i = 2%Z) by lia.
  destruct Hcases as [E|[E|E]]; rewrite E in *; simpl.
  - change (inject_Z 0) with 0 in *.
    split; [reflexivity|]. split; intros; exfalso; lra.
  - change (inject_Z 1) with 1 in *.
    split; [intros; exfalso; lra|].
    split; [reflexivity|intros; exfalso; lra].
  - change (inject_Z 2) with 2 in *.
    split; [intros; exfalso; lra|].
    split; [intros; exfalso; lra|reflexivity].
Qed.

Lemma sample_in_predictions (r : Q) :
  0 <= r -> r < 1 -> In (sample r) predictions.
Proof.
  intros H0 H1. destruct (sample_thirds r H0 H1) as [Ha [Hb Hc]].
  destruct (Qlt_le_dec r (1 # 3)) as [L1|G1].
  - rewrite (Ha L1). simpl. auto.
  - destruct (Qlt_le_dec r (2 # 3)) as [L2|G2].
    + rewrite (Hb G1 L2). simpl. auto.
    + rewrite (Hc G2). simpl. auto.
Qed.






(* ================================================================== *)
(** ** Loading the history *)
(* ================================================================== *)


(* ================================================================== *)
(** ** The round trip through the cookie *)
(* ================================================================== *)

Lemma contains_app (c : char) (s t : jsstring) :
  contains c (s ++ t) = contains c s || contains c t.
Proof.
  induction s as [|a s IH]; simpl; [reflexivity|].
  now rewrite IH, orb_assoc.
Qed.

Lemma contains_rev (c : char) (s : jsstring) :
  contains c (rev s) = contains c s.
Proof.
  induction s as [|a s IH]; simpl; [reflexivity|].
  rewrite contains_app, IH. simpl. rewrite orb_false_r. apply orb_comm.
Qed.

Lemma split_go_first_part (c : char) (s cur : jsstring) :
  contains c cur = false ->
  exists first rest,
    split_go [c] s 0 cur = first :: rest /\ contains c first = false.
Proof.
  revert cur. induction s as [|a s IH]; intros cur Hcur; simpl.
  - exists (rev cur), []. split; [reflexivity|now rewrite contains_rev].
  - destruct (N.eqb c a) eqn:E; simpl.
    + exists (rev cur). eexists. split; [reflexivity|].
      now rewrite contains_rev.
    + apply IH. simpl. rewrite N.eqb_sym, E. exact Hcur.
Qed.

(** What [getCookie] returns never holds a semicolon: a value that was
    written with one cannot come back whole. *)
Lemma getCookie_no_semicolon (document_cookie name saved : jsstring) :
  getCookie document_cookie name = Some saved ->
  contains 59%N saved = false.
Proof.
  unfold getCookie.
  destruct (Nat.eqb _ 2); [|discriminate].
  set (p := last _ _).
  destruct (split_go_first_part 59%N p [] eq_refl) as [first [rest [Hs Hc]]].
  change (split p (str ";")) with (split_go [59%N] p 0 []).
  rewrite Hs.
  destruct (eqb first []); [discriminate|].
  intros H. injection H as <-. exact Hc.
Qed.

(** While every text in the history is free of semicolons, the cookie
    gives back what was written. *)
Lemma round_trip_before_the_remark :
  reload one_prediction = (js_of_history (history one_prediction), []) /\
  history_of_js (fst (reload one_prediction))
  = Some (history one_prediction).
Proof. evaluate. Qed.

(** C3, on the failing input: after a prediction is recorded and the
    remark "thin; uneven" is saved on it, the store holds the record with
    that remark and the whole collection was handed to the cookie, but the
    cookie keeps the text only up to the semicolon; the reload finds text
    that is not JSON, logs the parse error and starts from an empty
    history. *)
Theorem semicolon_in_remark_loses_history :
  List.map (fun r => (id r, remarks r)) (history remark_with_semicolon)
  = [(str "1762150000000", Some (str "thin; uneven"))] /\
  hd parse_error (events remark_with_semicolon)
  = CookieAssign
      (history_write (P := utc_platform) 1762150060000
         (history remark_with_semicolon)) /\
  contains 59%N (stringify (js_of_history (history remark_with_semicolon)))
  = true /\
  reload remark_with_semicolon = (JArr [], [parse_error]) /\
  history_of_js (fst (reload remark_with_semicolon)) = Some [] /\
  history_of_js (fst (reload remark_with_semicolon))
  <> Some (history remark_with_semicolon).
Proof. evaluate. discriminate. Qed.

(* ================================================================== *)
(** ** Identifiers made from the clock *)
(* ================================================================== *)

Lemma digits_of_uint_inj (u v : Decimal.uint) :
  digits_of_uint u = digits_of_uint v -> u = v.
Proof.
  revert v. induction u; intros v H; destruct v; simpl in H;
    try discriminate; try reflexivity;
    injection H as H; f_equal; now apply IHu.
Qed.

Lemma digits_inj (a b : N) : digits a = digits b -> a = b.
Proof.
  intros H. apply DecimalN.Unsigned.to_uint_inj.
  now apply digits_of_uint_inj.
Qed.

Lemma digit_chars_inj (ds es : list N) :
  digit_chars ds = digit_chars es -> ds = es.
Proof.
  revert es. induction ds as [|d ds IH]; intros [|e es] H; simpl in H;
    try discriminate; [reflexivity|].
  injection H as Hd Hr. unfold digit_char in Hd.
  f_equal; [lia|now apply IH].
Qed.

Lemma of_uint_acc_digits (u : Decimal.uint) (acc : positive) :
  N.pos (Pos.of_uint_acc u acc)
  = fold_left decimal_step (digits_of_uint u) (N.pos acc).
Proof.
  revert acc.
  induction u; intros acc; cbn [Pos.of_uint_acc digits_of_uint fold_left];
    try reflexivity; rewrite IHu; f_equal; unfold decimal_step; lia.
Qed.

Lemma of_uint_digits (u : Decimal.uint) :
  N.of_uint u = of_digits (digits_of_uint u).
Proof.
  unfold N.of_uint, of_digits. fold decimal_step.
  induction u; cbn [Pos.of_uint digits_of_uint fold_left];
    try reflexivity; try exact IHu; apply of_uint_acc_digits.
Qed.

Lemma of_digits_digits (n : N) : of_digits (digits n) = n.
Proof.
  unfold digits. rewrite <- of_uint_digits.
  apply DecimalN.Unsigned.of_to.
Qed.

Lemma fold_decimal_lower (ds : list N) (acc : N) :
  (acc * 10 ^ N.of_nat (length ds) <= fold_left decimal_step ds acc)%N.
Proof.
  revert acc. induction ds as [|d ds IH]; intros acc.
  - simpl. lia.
  - cbn [length fold_left]. rewrite Nat2N.inj_succ, N.pow_succ_r'.
    eapply N.le_trans; [|apply IH]. unfold decimal_step.
    rewrite N.mul_assoc. apply N.mul_le_mono_r. lia.
Qed.

(** The decimal digits of a number never start with a zero, except for
    zero itself. *)
Lemma digits_head (n : N) :
  digits n = [0%N] \/
  exists d ds, digits n = d :: ds /\ (1 <= d)%N.
Proof.
  unfold digits.
  assert (Hnorm : N.to_uint n = Decimal.unorm (N.to_uint n)).
  { rewrite <- DecimalN.Unsigned.to_of, DecimalN.Unsigned.of_to.
    reflexivity. }
  destruct (N.to_uint n) as [|u|u|u|u|u|u|u|u|u|u] eqn:E;
    try (right; simpl; eexists; eexists; split; [reflexivity|lia]).
  - unfold Decimal.unorm in Hnorm. simpl in Hnorm. discriminate.
  - left. unfold Decimal.unorm in Hnorm.
    change (Decimal.nzhead (Decimal.D0 u)) with (Decimal.nzhead u) in Hnorm.
    destruct (Decimal.nzhead u) as [|u0|u0|u0|u0|u0|u0|u0|u0|u0|u0] eqn:Hz;
      try discriminate.
    + injection Hnorm as Hu. now subst u.
    + exfalso. exact (DecimalFacts.nzhead_nonzero u u0 Hz).
Qed.

Lemma digits_length (n : N) (k : nat) :
  (n < 10 ^ N.of_nat k)%N -> (0 < k)%nat -> (length (digits n) <= k)%nat.
Proof.
  intros Hn Hk. destruct (digits_head n) as [E|[d [ds [E Hd]]]].
  - rewrite E. simpl. lia.
  - pose proof (of_digits_digits n) as Hv. rewrite E in Hv.
    unfold of_digits in Hv. fold decimal_step in Hv. simpl in Hv.
    pose proof (fold_decimal_lower ds (decimal_step 0 d)) as Hlow.
    rewrite Hv in Hlow. unfold decimal_step in Hlow.
    assert (Hpow : (10 ^ N.of_nat (length ds) < 10 ^ N.of_nat k)%N).
    { eapply N.le_lt_trans; [|exact Hn].
      eapply N.le_trans; [|exact Hlow].
      rewrite <- (N.mul_1_l (10 ^ N.of_nat (length ds))) at 1.
      apply N.mul_le_mono_r. lia. }
    apply N.pow_lt_mono_r_iff in Hpow; [|lia].
    rewrite E. simpl. lia.
Qed.

Lemma drop_zeros_length (r : list N) :
  (length (drop_zeros r) <= length r)%nat.
Proof.
  induction r as [|[|p] r IH]; simpl; lia.
Qed.

Lemma drop_zeros_split (r : list N) :
  r = repeat 0%N (length r - length (drop_zeros r)) ++ drop_zeros r.
Proof.
  induction r as [|[|p] r IH]; cbn [drop_zeros length].
  - reflexivity.
  - pose proof (drop_zeros_length r) as Hl.
    replace (S (length r) - length (drop_zeros r))%nat
      with (S (length r - length (drop_zeros r))) by lia.
    cbn [repeat app]. f_equal. exact IH.
  - rewrite Nat.sub_diag. reflexivity.
Qed.

Lemma significant_split (m : N) :
  digits m = fst (significant m) ++ repeat 0%N (snd (significant m)) /\
  (length (digits m)
   = length (fst (significant m)) + snd (significant m))%nat.
Proof.
  unfold significant. cbn [fst snd].
  set (ds := digits m).
  pose proof (drop_zeros_split (rev ds)) as Hs.
  pose proof (drop_zeros_length (rev ds)) as Hl.
  rewrite length_rev in Hs, Hl.
  rewrite length_rev. split; [|lia].
  rewrite <- (rev_involutive ds) at 1. rewrite Hs at 1.
  rewrite rev_app_distr, rev_repeat. reflexivity.
Qed.

Lemma zeros_digit_chars (z : nat) : zeros z = digit_chars (repeat 0%N z).
Proof. unfold zeros, digit_chars. now rewrite map_repeat. Qed.

(** Within 21 digits a whole number prints as its plain decimal digits. *)
Lemma id_of_reading_plain (t : Z) :
  (Z.abs t < 10 ^ 21)%Z ->
  id_of_reading t = sign_text t ++ digit_chars (digits (Z.to_N (Z.abs t))).
Proof.
  intros Hb. unfold id_of_reading, Number_toString, of_Z, sign_text.
  destruct (t =? 0)%Z eqn:E0.
  { apply Z.eqb_eq in E0. subst t. reflexivity. }
  apply Z.eqb_neq in E0.
  set (m := Z.to_N (Z.abs t)).
  destruct (significant_split m) as [Hd Hlen].
  destruct (significant m) as [sig z]. cbn [fst snd] in Hd, Hlen.
  f_equal.
  assert (H21 : (length (digits m) <= 21)%nat).
  { apply digits_length; [|lia]. subst m.
    change (10 ^ N.of_nat 21)%N with (Z.to_N (10 ^ 21)). lia. }
  unfold format_digits.
  replace ((Z.of_nat (length sig) <=? 0 + Z.of_nat z + Z.of_nat (length sig))
           && (0 + Z.of_nat z + Z.of_nat (length sig) <=? 21))%Z
    with true by (symmetry; apply andb_true_iff; split; apply Z.leb_le; lia).
  replace (Z.to_nat (0 + Z.of_nat z + Z.of_nat (length sig)
                     - Z.of_nat (length sig))) with z by lia.
  rewrite Hd, zeros_digit_chars. unfold digit_chars. now rewrite map_app.
Qed.

Lemma time_value_bound (t : Z) : time_value t -> (Z.abs t < 10 ^ 21)%Z.
Proof. unfold time_value. intros H. change (10 ^ 21)%Z with 1000000000000000000000%Z. lia. Qed.

(** Distinct clock readings give distinct identifiers. *)
Lemma id_of_reading_inj (a b : Z) :
  time_value a -> time_value b ->
  id_of_reading a = id_of_reading b -> a = b.
Proof.
  intros Ha Hb.
  rewrite (id_of_reading_plain a (time_value_bound a Ha)).
  rewrite (id_of_reading_plain b (time_value_bound b Hb)).
  unfold sign_text. change (str "-") with [45%N].
  destruct (a <? 0)%Z eqn:Ea; destruct (b <? 0)%Z eqn:Eb;
    cbn [app]; intros H.
  - injection H as H. apply digit_chars_inj, digits_inj in H.
    apply Z.ltb_lt in Ea, Eb. lia.
  - exfalso. destruct (digits (Z.to_N (Z.abs b))) as [|d ds];
      [discriminate|].
    cbn [digit_chars map] in H. injection H as H _.
    unfold digit_char in H. lia.
  - exfalso. destruct (digits (Z.to_N (Z.abs a))) as [|d ds];
      [discriminate|].
    cbn [digit_chars map] in H. injection H as H _.
    unfold digit_char in H. lia.
  - apply digit_chars_inj, digits_inj in H.
    apply Z.ltb_ge in Ea, Eb. lia.
Qed.

(* ================================================================== *)
(** ** Identifiers along a session *)
(* ================================================================== *)

Lemma run_snoc (P : Platform) (ops : list Op) (op : Op) (st : State) :
  run (ops ++ [op]) st = step (run ops st) op.
Proof. unfold run. now rewrite fold_left_app. Qed.

Lemma readings_app (a b : list Op) :
  readings (a ++ b) = readings a ++ readings b.
Proof.
  induction a as [|[env label|now i t|now i] a IH]; simpl;
    [reflexivity|now rewrite IH|exact IH|exact IH].
Qed.

Lemma sorted_snoc (l : list Z) (t : Z) :
  StronglySorted Z.lt (l ++ [t]) ->
  StronglySorted Z.lt l /\ forall x, In x l -> (x < t)%Z.
Proof.
  induction l as [|a l IH]; simpl; intros H.
  - split; [constructor|intros x []].
  - inversion H as [|? ? Hs Hf]; subst.
    destruct (IH Hs) as [Hl Hlt]. split.
    + constructor; [exact Hl|].
      rewrite Forall_forall in *. intros x Hx. apply Hf.
      apply in_or_app. now left.
    + intros x [<-|Hx]; [|now apply Hlt].
      rewrite Forall_forall in Hf. apply Hf, in_or_app. right. now left.
Qed.

Lemma sorted_filter (f : Z -> bool) (l : list Z) :
  StronglySorted Z.gt l -> StronglySorted Z.gt (filter f l).
Proof.
  induction 1 as [|a l Hs IH Hf]; simpl; [constructor|].
  destruct (f a); [|exact IH].
  constructor; [exact IH|].
  rewrite Forall_forall in *. intros x Hx.
  apply Hf. apply filter_In in Hx. tauto.
Qed.

Lemma filter_map_comm {A B} (f : B -> bool) (g : A -> B) (l : list A) :
  filter f (List.map g l) = List.map g (filter (fun x => f (g x)) l).
Proof.
  induction l as [|a l IH]; simpl; [reflexivity|].
  destruct (f (g a)); simpl; now rewrite IH.
Qed.

Lemma ids_without (recordId : jsstring) (h : list PredictionRecord) :
  List.map id (without recordId h)
  = filter (fun i => negb (eqb i recordId)) (List.map id h).
Proof. unfold without. now rewrite filter_map_comm. Qed.

Lemma ids_after_remark (recordId text : jsstring) (h : list PredictionRecord) :
  List.map id
    (List.map (fun record =>
                 if eqb (id record) recordId
                 then {| id := id record; material := material record;
                         params := params record;
                         prediction := prediction record;
                         timestamp := timestamp record;
                         remarks := Some text |}
                 else record) h)
  = List.map id h.
Proof.
  rewrite map_map. apply map_ext. intros r.
  now destruct (eqb (id r) recordId).
Qed.

Lemma ids_after_step (P : Platform) (st : State) (op : Op) :
  List.map id (history (step st op))
  = match op with
    | Append env _ => id_of_reading (date_now env) :: List.map id (history st)
    | SetRemark _ _ _ => List.map id (history st)
    | Delete _ recordId =>
        filter (fun i => negb (eqb i recordId)) (List.map id (history st))
    end.
Proof.
  destruct op as [env label|now i t|now i]; unfold step;
    change (history (filterEffect ?s)) with (history s).
  - reflexivity.
  - apply ids_after_remark.
  - apply ids_without.
Qed.

(** C9, as stated, fails: two valid submissions for which [Date.now()]
    gave the same reading leave two records with the same identifier in
    the history. *)
Lemma same_reading_duplicates_identifier :
  List.map id (history same_millisecond)
  = [str "1762150000000"; str "1762150000000"] /\
  ~ NoDup (List.map id (history same_millisecond)).
Proof.
  assert (H : List.map id (history same_millisecond)
              = [str "1762150000000"; str "1762150000000"])
    by (vm_compute; reflexivity).
  split; [exact H|].
  rewrite H. intros Hn. inversion Hn as [|? ? Hin _]; subst.
  apply Hin. now left.
Qed.

(** C9, amended: let the identifiers in the history at the start be
    pairwise distinct, and let the clock readings taken by the
    submissions of the session be time values, strictly increasing from
    one submission to the next, none of them printing as an identifier
    already in the history.  Then after any sequence of appends, remark
    edits and deletions the identifiers in the history are pairwise
    distinct, and the history consists of the records created in the
    session, whose identifiers are the decimal prints of clock readings of
    the session and decrease from the front, that is increase in creation
    order, followed by records that were there at the start. *)
Theorem session_identifiers_unique_and_increasing :
  forall (P : Platform) (ops : list Op) (st0 : State),
    NoDup (List.map id (history st0)) ->
    StronglySorted Z.lt (readings ops) ->
    Forall time_value (readings ops) ->
    (forall t, In t (readings ops) ->
               ~ In (id_of_reading t) (List.map id (history st0))) ->
    NoDup (List.map id (history (run ops st0))) /\
    exists created loaded,
      List.map id (history (run ops st0))
      = List.map id_of_reading created ++ loaded /\
      StronglySorted Z.gt created /\
      incl created (readings ops) /\
      incl loaded (List.map id (history st0)).
Proof.
  intros P ops st0 Hnd0.
  induction ops as [|op ops IH] using rev_ind; intros Hsorted Htime Hfresh.
  - split; [exact Hnd0|].
    exists [], (List.map id (history st0)).
    repeat split; [constructor|intros x []|apply incl_refl].
  - rewrite readings_app in Hsorted, Htime, Hfresh.
    assert (Hsorted' : StronglySorted Z.lt (readings ops)).
    { destruct op as [env label|now i t|now i]; simpl in Hsorted;
        [now apply sorted_snoc in Hsorted|
         now rewrite app_nil_r in Hsorted ..]. }
    apply Forall_app in Htime as [Htime' Htop].
    assert (Hfresh' : forall t, In t (readings ops) ->
                      ~ In (id_of_reading t) (List.map id (history st0))).
    { intros t Ht. apply Hfresh, in_or_app. now left. }
    destruct (IH Hsorted' Htime' Hfresh')
      as [Hnd [created [loaded [Hids [Hdesc [Hc Hl]]]]]].
    rewrite run_snoc, ids_after_step, readings_app.
    destruct op as [env label|now i t|now i]; simpl readings.
    + (* a prediction is recorded *)
      set (t := date_now env) in *.
      apply sorted_snoc in Hsorted as [_ Hlt].
      assert (Ht : time_value t) by (now inversion Htop).
      assert (Hnew : ~ In (id_of_reading t) (List.map id (history (run ops st0)))).
      { rewrite Hids. intros Hin. apply in_app_or in Hin as [Hin|Hin].
        - apply in_map_iff in Hin as [x [Hx Hin]].
          assert (Hxt : time_value x).
          { rewrite Forall_forall in Htime'. apply Htime', Hc, Hin. }
          apply (id_of_reading_inj x t Hxt Ht) in Hx. subst x.
          specialize (Hlt t (Hc t Hin)). lia.
        - apply (Hfresh t); [apply in_or_app; right; now left|].
          now apply Hl. }
      split; [now constructor|].
      exists (t :: created), loaded. split; [simpl; now rewrite Hids|].
      split.
      { constructor; [exact Hdesc|].
        rewrite Forall_forall. intros x Hx.
        specialize (Hlt x (Hc x Hx)). lia. }
      split; [|exact Hl].
      intros x [<-|Hx]; apply in_or_app; [right; now left|left; now apply Hc].
    + (* a remark is saved *)
      rewrite app_nil_r. split; [exact Hnd|].
      exists created, loaded. repeat split; assumption.
    + (* a record is deleted *)
      rewrite app_nil_r. split; [now apply NoDup_filter|].
      exists (filter (fun x => negb (eqb (id_of_reading x) i)) created),
             (filter (fun x => negb (eqb x i)) loaded).
      split; [rewrite Hids, filter_app, filter_map_comm; reflexivity|].
      split; [now apply sorted_filter|].
      split.
      * intros x Hx. apply filter_In in Hx. now apply Hc.
      * intros x Hx. apply filter_In in Hx. now apply Hl.
Qed.

Lemma session_identifiers_unique_and_increasing_witness :
  NoDup (List.map id (history (session [] [sample_record "1699999999999" None]))) /\
  StronglySorted Z.lt (readings two_predictions) /\
  Forall time_value (readings two_predictions) /\
  NoDup (List.map id
           (history (run (P := utc_platform) two_predictions
                       (session [] [sample_record "1699999999999" None])))) /\
  List.map id
    (history (run (P := utc_platform) two_predictions
                (session [] [sample_record "1699999999999" None])))
  = [str "1762150060000"; str "1762150000000"].
Proof.
  assert (Hnd : NoDup (List.map id
                         (history (session []
                                     [sample_record "1699999999999" None])))).
  { simpl. constructor; [intros []|constructor]. }
  assert (Hs : StronglySorted Z.lt (readings two_predictions)).
  { simpl. repeat constructor. }
  assert (Ht : Forall time_value (readings two_predictions)).
  { simpl. repeat constructor; unfold time_value; simpl; lia. }
  assert (Hf : forall t, In t (readings two_predictions) ->
               ~ In (id_of_reading t)
                   (List.map id
                      (history (session []
                                  [sample_record "1699999999999" None])))).
  { simpl. intros t [<-|[<-|[]]] [H|[]]; vm_compute in H; discriminate. }
  destruct (session_identifiers_unique_and_increasing utc_platform
              two_predictions
              (session [] [sample_record "1699999999999" None])
              Hnd Hs Ht Hf) as [Hunique _].
  split; [exact Hnd|]. split; [exact Hs|]. split; [exact Ht|].
  split; [exact Hunique|]. vm_compute. reflexivity.
Defined.

(* ================================================================== *)
(** ** JSON.parse: the fuel *)
(* ================================================================== *)

Lemma skip_ws_length (s : jsstring) : (length (skip_ws s) <= length s)%nat.
Proof.
  induction s as [|c s IH]; simpl; [lia|].
  destruct (is_ws c); simpl; lia.
Qed.

Lemma skip_ws_cons_length (s r : jsstring) (c : N) :
  skip_ws s = c :: r -> (length r < length s)%nat.
Proof.
  intros H. pose proof (skip_ws_length s) as Hl. rewrite H in Hl.
  simpl in Hl. lia.
Qed.

Lemma parse_string_body_length (n : nat) :
  forall s acc t r,
    (length s <= n)%nat ->
    parse_string_body s acc = Some (t, r) -> (length r < length s)%nat.
Proof.
  induction n as [|n IH]; intros s acc t r Hn H.
  - destruct s; [discriminate H|simpl in Hn; lia].
  - destruct s as [|c s]; [discriminate H|].
    simpl in Hn. cbn [parse_string_body] in H.
    destruct (c =? 34)%N.
    { injection H as _ <-. simpl. lia. }
    destruct (c =? 92)%N.
    + destruct s as [|e s]; [discriminate H|]. simpl in Hn.
      assert (Hs : forall a, parse_string_body s a = Some (t, r) ->
                             (length r < length (c :: e :: s))%nat).
      { intros a Ha. apply IH in Ha; [simpl; lia|lia]. }
      repeat match type of H with
             | context [if ?b then _ else _] =>
                 destruct b; [now apply Hs in H|]
             end.
      destruct (e =? 117)%N; [|discriminate H].
      destruct s as [|h1 [|h2 [|h3 [|h4 s]]]]; try discriminate H.
      destruct (hex4_value h1 h2 h3 h4); [|discriminate H].
      apply IH in H; simpl in *; lia.
    + destruct (c <? 32)%N; [discriminate H|].
      apply IH in H; simpl; lia.
Qed.

Lemma take_digits_length (s : jsstring) :
  forall ds r, take_digits s = (ds, r) ->
               length s = (length ds + length r)%nat.
Proof.
  induction s as [|c s IH]; intros ds r H; simpl in H.
  - injection H as <- <-. reflexivity.
  - destruct (is_digit c).
    + destruct (take_digits s) as [ds' r'] eqn:E.
      injection H as <- <-. simpl. now rewrite (IH ds' r' eq_refl).
    + injection H as <- <-. reflexivity.
Qed.

Lemma parse_fraction_length (s : jsstring) fs r :
  parse_fraction s = Some (fs, r) -> (length r <= length s)%nat.
Proof.
  unfold parse_fraction. intros H.
  destruct s as [|c s]; [injection H as _ <-; simpl; lia|].
  destruct (c =? 46)%N.
  - destruct (take_digits s) as [ds r'] eqn:E.
    apply take_digits_length in E.
    destruct ds; [discriminate H|]. injection H as _ <-. simpl. lia.
  - injection H as _ <-. lia.
Qed.

Lemma parse_exponent_length (s : jsstring) ex r :
  parse_exponent s = Some (ex, r) -> (length r <= length s)%nat.
Proof.
  unfold parse_exponent. intros H.
  destruct s as [|c s]; [injection H as _ <-; simpl; lia|].
  destruct ((c =? 101) || (c =? 69))%N; [|injection H as _ <-; lia].
  assert (Hd : forall s1, (length s1 <= length s)%nat ->
               match take_digits s1 with
               | ([], _) => None
               | (d :: ds, rest) =>
                   Some (Z.of_N (of_digits (d :: ds)), rest)
               end = Some (ex, r) \/
               match take_digits s1 with
               | ([], _) => None
               | (d :: ds, rest) =>
                   Some ((- Z.of_N (of_digits (d :: ds)))%Z, rest)
               end = Some (ex, r) ->
               (length r <= length (c :: s))%nat).
  { intros s1 Hs1 Hor. destruct (take_digits s1) as [ds r'] eqn:E.
    apply take_digits_length in E.
    destruct ds; [destruct Hor; discriminate|].
    destruct Hor as [Hor|Hor]; injection Hor as _ <-; simpl; lia. }
  destruct s as [|sg s']; [simpl in H; discriminate H|].
  destruct (sg =? 45)%N.
  { apply (Hd s'); [simpl; lia|]. right.
    destruct (take_digits s') as [[|? ?] ?]; exact H. }
  destruct (sg =? 43)%N.
  { apply (Hd s'); [simpl; lia|]. left.
    destruct (take_digits s') as [[|? ?] ?]; exact H. }
  apply (Hd (sg :: s')); [lia|]. left.
  destruct (take_digits (sg :: s')) as [[|? ?] ?]; exact H.
Qed.

Lemma parse_number_length (s : jsstring) x r :
  parse_number s = Some (x, r) -> (length r < length s)%nat.
Proof.
  unfold parse_number. intros H.
  assert (Hgo : forall neg s0,
            (length s0 <= length s)%nat ->
            match take_digits s0 with
            | ([], _) => None
            | (d :: ds, s1) =>
                if (d =? 0)%N && negb (Nat.eqb (length ds) 0) then None
                else
                  match parse_fraction s1 with
                  | None => None
                  | Some (fs, s2) =>
                      match parse_exponent s2 with
                      | None => None
                      | Some (ex, s3) =>
                          Some (normal neg (of_digits (d :: ds ++ fs))
                                  (ex - Z.of_nat (length fs)), s3)
                      end
                  end
            end = Some (x, r) -> (length r < length s)%nat).
  { intros neg s0 Hs0 Hm.
    destruct (take_digits s0) as [ds s1] eqn:E.
    apply take_digits_length in E.
    destruct ds as [|d ds]; [discriminate Hm|].
    destruct ((d =? 0)%N && negb (Nat.eqb (length ds) 0)); [discriminate Hm|].
    destruct (parse_fraction s1) as [[fs s2]|] eqn:Ef; [|discriminate Hm].
    apply parse_fraction_length in Ef.
    destruct (parse_exponent s2) as [[ex s3]|] eqn:Ee; [|discriminate Hm].
    apply parse_exponent_length in Ee.
    injection Hm as _ <-. simpl in E. lia. }
  destruct s as [|c s']; [discriminate H|].
  destruct (c =? 45)%N.
  - apply (Hgo true s'); [simpl; lia|exact H].
  - apply (Hgo false (c :: s')); [lia|exact H].
Qed.

Lemma parse_elements_length (pv : parser) (n : nat) :
  shrinking pv ->
  forall s acc v r,
    parse_elements pv n s acc = Some (v, r) -> (length r < length s)%nat.
Proof.
  intros Hpv. induction n as [|n IH]; intros s acc v r H; [discriminate H|].
  cbn [parse_elements] in H.
  destruct (pv s) as [[x r0]|] eqn:Ex; [|discriminate H].
  apply Hpv in Ex.
  destruct (skip_ws r0) as [|c r1] eqn:Ews; [discriminate H|].
  apply skip_ws_cons_length in Ews.
  destruct (c =? 44)%N.
  - apply IH in H. lia.
  - destruct (c =? 93)%N; [|discriminate H].
    injection H as _ <-. lia.
Qed.

Lemma parse_members_length (pv : parser) (n : nat) :
  shrinking pv ->
  forall s acc v r,
    parse_members pv n s acc = Some (v, r) -> (length r < length s)%nat.
Proof.
  intros Hpv. induction n as [|n IH]; intros s acc v r H; [discriminate H|].
  cbn [parse_members] in H.
  destruct (skip_ws s) as [|q s1] eqn:E1; [discriminate H|].
  apply skip_ws_cons_length in E1.
  destruct (q =? 34)%N; [|discriminate H].
  destruct (parse_string_body s1 []) as [[k s2]|] eqn:Ek; [|discriminate H].
  apply (parse_string_body_length (length s1)) in Ek; [|lia].
  destruct (skip_ws s2) as [|c s3] eqn:E2; [discriminate H|].
  apply skip_ws_cons_length in E2.
  destruct (c =? 58)%N; [|discriminate H].
  destruct (pv s3) as [[x r0]|] eqn:Ex; [|discriminate H].
  apply Hpv in Ex.
  destruct (skip_ws r0) as [|d r1] eqn:E3; [discriminate H|].
  apply skip_ws_cons_length in E3.
  destruct (d =? 44)%N.
  - apply IH in H. lia.
  - destruct (d =? 125)%N; [|discriminate H].
    injection H as _ <-. lia.
Qed.

Lemma parse_value_shrinking (fuel : nat) : shrinking (parse_value fuel).
Proof.
  induction fuel as [|f IH]; intros s v r H; [discriminate H|].
  cbn [parse_value] in H.
  destruct (skip_ws s) as [|c rest] eqn:E; [discriminate H|].
  apply skip_ws_cons_length in E.
  destruct (c =? 34)%N.
  { destruct (parse_string_body rest []) as [[t r0]|] eqn:Et;
      [|discriminate H].
    apply (parse_string_body_length (length rest)) in Et; [|lia].
    injection H as _ <-. lia. }
  destruct (c =? 91)%N.
  { destruct (skip_ws rest) as [|d r0] eqn:E2; [discriminate H|].
    apply skip_ws_cons_length in E2.
    destruct (d =? 93)%N.
    - injection H as _ <-. lia.
    - apply (parse_elements_length _ _ IH) in H. lia. }
  destruct (c =? 123)%N.
  { destruct (skip_ws rest) as [|d r0] eqn:E2; [discriminate H|].
    apply skip_ws_cons_length in E2.
    destruct (d =? 125)%N.
    - injection H as _ <-. lia.
    - apply (parse_members_length _ _ IH) in H. lia. }
  destruct (starts_with (str "true") (c :: rest)) eqn:Et.
  { injection H as _ <-.
    destruct rest as [|? [|? [|? ?]]]; simpl in Et;
      rewrite ?andb_false_r in Et; try discriminate Et.
    simpl in *. lia. }
  destruct (starts_with (str "false") (c :: rest)) eqn:Ef.
  { injection H as _ <-.
    destruct rest as [|? [|? [|? [|? ?]]]]; simpl in Ef;
      rewrite ?andb_false_r in Ef; try discriminate Ef.
    simpl in *. lia. }
  destruct (starts_with (str "null") (c :: rest)) eqn:En.
  { injection H as _ <-.
    destruct rest as [|? [|? [|? ?]]]; simpl in En;
      rewrite ?andb_false_r in En; try discriminate En.
    simpl in *. lia. }
  destruct (parse_number (c :: rest)) as [[x r0]|] eqn:Ex; [|discriminate H].
  apply parse_number_length in Ex. injection H as _ <-. simpl in Ex. lia.
Qed.

Lemma parse_elements_stable (pv1 pv2 : parser) :
  shrinking pv1 ->
  forall n1 n2 s acc,
    (length s < n1)%nat -> (length s < n2)%nat ->
    (forall t, (length t <= length s)%nat -> pv2 t = pv1 t) ->
    parse_elements pv2 n2 s acc = parse_elements pv1 n1 s acc.
Proof.
  intros Hpv. induction n1 as [|n1 IH]; intros n2 s acc H1 H2 Hagree;
    [lia|].
  destruct n2 as [|n2]; [lia|].
  cbn [parse_elements]. rewrite (Hagree s (Nat.le_refl _)).
  destruct (pv1 s) as [[x r0]|] eqn:Ex; [|reflexivity].
  apply Hpv in Ex.
  destruct (skip_ws r0) as [|c r1] eqn:Ews; [reflexivity|].
  apply skip_ws_cons_length in Ews.
  destruct (c =? 44)%N; [|reflexivity].
  apply IH; try lia. intros t Ht. apply Hagree. lia.
Qed.

Lemma parse_members_stable (pv1 pv2 : parser) :
  shrinking pv1 ->
  forall n1 n2 s acc,
    (length s < n1)%nat -> (length s < n2)%nat ->
    (forall t, (length t <= length s)%nat -> pv2 t = pv1 t) ->
    parse_members pv2 n2 s acc = parse_members pv1 n1 s acc.
Proof.
  intros Hpv. induction n1 as [|n1 IH]; intros n2 s acc H1 H2 Hagree;
    [lia|].
  destruct n2 as [|n2]; [lia|].
  cbn [parse_members].
  destruct (skip_ws s) as [|q s1] eqn:E1; [reflexivity|].
  apply skip_ws_cons_length in E1.
  destruct (q =? 34)%N; [|reflexivity].
  destruct (parse_string_body s1 []) as [[k s2]|] eqn:Ek; [|reflexivity].
  apply (parse_string_body_length (length s1)) in Ek; [|lia].
  destruct (skip_ws s2) as [|c s3] eqn:E2; [reflexivity|].
  apply skip_ws_cons_length in E2.
  destruct (c =? 58)%N; [|reflexivity].
  rewrite (Hagree s3) by lia.
  destruct (pv1 s3) as [[x r0]|] eqn:Ex; [|reflexivity].
  apply Hpv in Ex.
  destruct (skip_ws r0) as [|d r1] eqn:E3; [reflexivity|].
  apply skip_ws_cons_length in E3.
  destruct (d =? 44)%N; [|reflexivity].
  apply IH; try lia. intros t Ht. apply Hagree. lia.
Qed.

Lemma parse_value_stable (f1 : nat) :
  forall f2 s,
    (length s < f1)%nat -> (length s < f2)%nat ->
    parse_value f2 s = parse_value f1 s.
Proof.
  induction f1 as [|f1 IH]; intros f2 s H1 H2; [lia|].
  destruct f2 as [|f2]; [lia|].
  cbn [parse_value].
  destruct (skip_ws s) as [|c rest] eqn:E; [reflexivity|].
  apply skip_ws_cons_length in E.
  destruct (c =? 34)%N; [reflexivity|].
  destruct (c =? 91)%N.
  { destruct (skip_ws rest) as [|d r0]; [reflexivity|].
    destruct (d =? 93)%N; [reflexivity|].
    apply parse_elements_stable; try lia.
    - apply parse_value_shrinking.
    - intros t Ht. apply IH; lia. }
  destruct (c =? 123)%N; [|reflexivity].
  destruct (skip_ws rest) as [|d r0]; [reflexivity|].
  destruct (d =? 125)%N; [reflexivity|].
  apply parse_members_stable; try lia.
  - apply parse_value_shrinking.
  - intros t Ht. apply IH; lia.
Qed.

(** The parser does not fail for want of fuel: with any fuel above the
    length of the text it gives what [parse] gives. *)
Theorem parse_fuel_enough (fuel : nat) (text : jsstring) :
  (length text < fuel)%nat -> parse_with fuel text = parse text.
Proof.
  intros H. unfold parse, parse_with.
  rewrite (parse_value_stable (S (length text)) fuel text); [reflexivity| |];
    lia.
Qed.

(* ================================================================== *)
(** ** Reading a cookie back *)
(* ================================================================== *)

Lemma contains_false_cons (c a : N) (s : jsstring) :
  contains c (a :: s) = false -> a <> c /\ contains c s = false.
Proof.
  simpl. intros H. apply orb_false_iff in H as [Ha Hs].
  split; [now apply N.eqb_neq|exact Hs].
Qed.

Lemma starts_with_name (name n : jsstring) (w : jsstring) :
  contains 61%N n = false -> contains 61%N name = false ->
  starts_with (name ++ [61%N]) (n ++ 61%N :: w) = eqb n name.
Proof.
  revert n. induction name as [|a name IH]; intros [|b n] Hn Hname;
    cbn [app starts_with eqb].
  - now rewrite N.eqb_refl.
  - apply contains_false_cons in Hn as [Hb _].
    apply N.eqb_neq in Hb. rewrite N.eqb_sym in Hb. now rewrite Hb.
  - apply contains_false_cons in Hname as [Ha _].
    apply N.eqb_neq in Ha. now rewrite Ha.
  - apply contains_false_cons in Hn as [_ Hn].
    apply contains_false_cons in Hname as [_ Hname].
    rewrite (IH n Hn Hname), (N.eqb_sym a b). reflexivity.
Qed.

(** Text without a semicolon is passed over by a split on a separator that
    begins with one. *)
Lemma split_go_scan (p u t cur : jsstring) :
  contains 59%N u = false ->
  split_go (59%N :: p) (u ++ t) 0 cur
  = split_go (59%N :: p) t 0 (rev u ++ cur).
Proof.
  revert cur. induction u as [|a u IH]; intros cur Hu; [reflexivity|].
  apply contains_false_cons in Hu as [Ha Hu].
  cbn [app split_go starts_with].
  apply N.eqb_neq in Ha. rewrite N.eqb_sym in Ha. rewrite Ha. cbn [andb].
  rewrite (IH (a :: cur) Hu). cbn [rev]. now rewrite <- app_assoc.
Qed.

Lemma split_go_scan_cookie (name u t cur : jsstring) :
  contains 59%N u = false ->
  split_go (cookie_separator name) (u ++ t) 0 cur
  = split_go (cookie_separator name) t 0 (rev u ++ cur).
Proof. apply (split_go_scan (32%N :: name ++ [61%N])). Qed.

Lemma split_go_skip (sep u t cur : jsstring) :
  split_go sep (u ++ t) (length u) cur = split_go sep t 0 cur.
Proof.
  induction u as [|a u IH]; [reflexivity|]. cbn [app length split_go].
  exact IH.
Qed.

Lemma starts_with_refl_app (p t : jsstring) : starts_with p (p ++ t) = true.
Proof.
  induction p as [|a p IH]; [reflexivity|]. simpl.
  now rewrite N.eqb_refl, IH.
Qed.

Lemma chunks_boundary (j : Cookie.jar) : at_boundary (chunks j).
Proof.
  destruct j as [|nv j]; [now left|]. right. unfold chunks.
  cbn [flat_map]. change (str "; ") with [59%N; 32%N]. cbn [app].
  eexists. reflexivity.
Qed.

Lemma entry_text_semicolon_free (nv : jsstring * jsstring) :
  Cookie.entry_ok nv -> contains 59%N (Cookie.entry_text nv) = false.
Proof.
  intros [Hn [Hv _]]. unfold Cookie.entry_text.
  rewrite !contains_app, Hn, Hv. reflexivity.
Qed.

(** At a cookie with the name sought the separator is found. *)
Lemma chunk_hit (name v rest cur : jsstring) :
  split_go (cookie_separator name)
    (str "; " ++ Cookie.entry_text (name, v) ++ rest) 0 cur
  = rev cur :: split_go (cookie_separator name) (v ++ rest) 0 [].
Proof.
  unfold Cookie.entry_text, cookie_separator. cbn [fst snd].
  change (str "; ") with [59%N; 32%N]. change (str "=") with [61%N].
  replace (([59%N; 32%N] ++ (name ++ [61%N] ++ v) ++ rest))
    with (59%N :: (32%N :: name ++ [61%N]) ++ (v ++ rest))
    by (cbn [app]; rewrite <- !app_assoc; reflexivity).
  change ([59%N; 32%N] ++ name ++ [61%N])
    with (59%N :: (32%N :: name ++ [61%N])).
  set (tl := 32%N :: name ++ [61%N]).
  cbn [split_go].
  replace (starts_with (59%N :: tl) (59%N :: tl ++ v ++ rest)) with true
    by (symmetry; apply (starts_with_refl_app (59%N :: tl))).
  f_equal.
  replace (length (59%N :: tl) - 1)%nat with (length tl)
    by (cbn [length]; lia).
  apply split_go_skip.
Qed.

Lemma split_go_miss (sep s cur : jsstring) (c : N) :
  starts_with sep (c :: s) = false ->
  split_go sep (c :: s) 0 cur = split_go sep s 0 (c :: cur).
Proof. intros H. cbn [split_go]. now rewrite H. Qed.

(** At any other cookie it is not, and the cookie is passed over. *)
Lemma chunk_miss (name : jsstring) (nv : jsstring * jsstring)
  (rest cur : jsstring) :
  Cookie.entry_ok nv -> contains 61%N name = false ->
  eqb (fst nv) name = false ->
  split_go (cookie_separator name)
    (str "; " ++ Cookie.entry_text nv ++ rest) 0 cur
  = split_go (cookie_separator name) rest 0
      (rev (str "; " ++ Cookie.entry_text nv) ++ cur).
Proof.
  intros Hok Heq Hname.
  pose proof (entry_text_semicolon_free nv Hok) as Hfree.
  destruct Hok as [Hn [Hv Hneq]].
  assert (Hmiss : starts_with (name ++ [61%N])
                    (Cookie.entry_text nv ++ rest) = false).
  { unfold Cookie.entry_text. change (str "=") with [61%N].
    rewrite <- !app_assoc. cbn [app].
    rewrite starts_with_name; [exact Hname|exact Hneq|exact Heq]. }
  unfold cookie_separator.
  change (str "; ") with [59%N; 32%N]. change (str "=") with [61%N].
  cbn [app].
  rewrite split_go_miss.
  2:{ cbn [starts_with]. rewrite !N.eqb_refl. cbn [andb]. exact Hmiss. }
  change (32%N :: Cookie.entry_text nv ++ rest)
    with ((32%N :: Cookie.entry_text nv) ++ rest).
  rewrite split_go_scan by (simpl; exact Hfree).
  f_equal. cbn [rev]. rewrite <- !app_assoc. reflexivity.
Qed.

Lemma get_absent (j : Cookie.jar) (name : jsstring) :
  ~ In name (List.map fst j) -> Cookie.get j name = None.
Proof.
  induction j as [|[n v] j IH]; intros Hin; simpl; [reflexivity|].
  destruct (eqb n name) eqn:E.
  - apply eqb_eq in E. exfalso. apply Hin. now left.
  - apply IH. intros H. apply Hin. now right.
Qed.

Lemma split_chunks_absent (name : jsstring) (j : Cookie.jar) :
  Forall Cookie.entry_ok j -> contains 61%N name = false ->
  Cookie.get j name = None ->
  forall cur,
    split_go (cookie_separator name) (chunks j) 0 cur
    = [rev cur ++ chunks j].
Proof.
  intros Hok Heq. induction j as [|[n v] j IH]; intros Hget cur.
  - simpl. now rewrite app_nil_r.
  - simpl in Hget. destruct (eqb n name) eqn:E; [discriminate Hget|].
    inversion Hok as [|? ? Hnv Hj]; subst.
    change (chunks ((n, v) :: j))
      with ((str "; " ++ Cookie.entry_text (n, v)) ++ chunks j).
    rewrite <- app_assoc.
    rewrite chunk_miss by auto.
    rewrite (IH Hj Hget). rewrite rev_app_distr, rev_involutive.
    now rewrite <- !app_assoc.
Qed.

Lemma split_chunks_present (name : jsstring) (j : Cookie.jar) :
  Cookie.jar_ok j -> contains 61%N name = false ->
  forall v, Cookie.get j name = Some v ->
  forall cur, exists before after,
    split_go (cookie_separator name) (chunks j) 0 cur
    = [before; v ++ after] /\ at_boundary after.
Proof.
  intros [Hok Hnd] Heq.
  induction j as [|[n w] j IH]; intros v Hget cur; [discriminate Hget|].
  simpl in Hget. inversion Hok as [|? ? Hnv Hj]; subst.
  inversion Hnd as [|? ? Hnotin Hnd']; subst.
  change (chunks ((n, w) :: j))
    with ((str "; " ++ Cookie.entry_text (n, w)) ++ chunks j).
  rewrite <- app_assoc.
  destruct (eqb n name) eqn:E.
  - injection Hget as <-. apply eqb_eq in E. subst n.
    rewrite chunk_hit.
    destruct Hnv as [_ [Hw _]]. cbn [snd] in Hw.
    rewrite split_go_scan_cookie by exact Hw.
    rewrite split_chunks_absent; auto using get_absent.
    rewrite app_nil_r, rev_involutive.
    exists (rev cur), (chunks j). split; [reflexivity|apply chunks_boundary].
  - rewrite chunk_miss by auto. now apply IH.
Qed.

Lemma read_chunks (j : Cookie.jar) :
  j <> [] -> str "; " ++ Cookie.read j = chunks j.
Proof.
  unfold Cookie.read, chunks. induction j as [|nv j IH]; [contradiction|].
  intros _. destruct j as [|nv' j].
  - simpl. now rewrite app_nil_r.
  - cbn [List.map join flat_map] in *.
    rewrite <- IH by discriminate. now rewrite <- !app_assoc.
Qed.

Lemma first_part_of_value (v after : jsstring) :
  contains 59%N v = false -> at_boundary after ->
  exists rest, split (v ++ after) (str ";") = v :: rest.
Proof.
  intros Hv Hafter. change (split (v ++ after) (str ";"))
    with (split_go [59%N] (v ++ after) 0 []).
  rewrite split_go_scan by exact Hv. rewrite app_nil_r.
  destruct Hafter as [->|[r ->]].
  - exists []. simpl. now rewrite rev_involutive.
  - simpl. rewrite rev_involutive. eexists. reflexivity.
Qed.

(** What [getCookie] finds is the value the jar holds under the name,
    unless that value is empty. *)
Lemma getCookie_read (j : Cookie.jar) (name : jsstring) :
  Cookie.jar_ok j -> contains 61%N name = false ->
  getCookie (Cookie.read j) name
  = match Cookie.get j name with
    | Some v => if eqb v [] then None else Some v
    | None => None
    end.
Proof.
  intros Hjar Heq. unfold getCookie.
  fold (cookie_separator name).
  assert (Hsplit : forall s, split s (cookie_separator name)
                             = split_go (cookie_separator name) s 0 []).
  { intros s. unfold cookie_separator. reflexivity. }
  rewrite Hsplit.
  destruct j as [|nv j].
  - simpl Cookie.get. unfold Cookie.read. simpl join. rewrite app_nil_r.
    unfold cookie_separator. change (str "; ") with [59%N; 32%N].
    cbn [app]. rewrite split_go_miss.
    2:{ cbn [starts_with]. rewrite !N.eqb_refl. cbn [andb].
        destruct name; reflexivity. }
    rewrite split_go_miss; [reflexivity|].
    cbn [starts_with]. now rewrite andb_false_r.
  - rewrite read_chunks by discriminate.
    destruct (Cookie.get (nv :: j) name) as [v|] eqn:Hget.
    + destruct (split_chunks_present name (nv :: j) Hjar Heq v Hget [])
        as [before [after [Hparts Hafter]]].
      rewrite Hparts. cbn [length Nat.eqb last].
      assert (Hv : contains 59%N v = false).
      { destruct Hjar as [Hok _]. clear - Hok Hget.
        induction (nv :: j) as [|[n w] l IH]; [discriminate Hget|].
        inversion Hok as [|? ? Hnw Hl]; subst. simpl in Hget.
        destruct (eqb n name).
        - injection Hget as <-. now destruct Hnw as [_ [Hw _]].
        - now apply IH. }
      destruct (first_part_of_value v after Hv Hafter) as [rest Hfirst].
      rewrite Hfirst. reflexivity.
    + destruct Hjar as [Hok _].
      rewrite (split_chunks_absent name (nv :: j) Hok Heq Hget).
      reflexivity.
Qed.



(* ================================================================== *)
(** ** Writing a cookie *)
(* ================================================================== *)

Lemma cut_at_fst_free (c : N) (s : jsstring) :
  contains c (fst (Cookie.cut_at c s)) = false.
Proof.
  induction s as [|a s IH]; [reflexivity|]. cbn [Cookie.cut_at].
  destruct (a =? c)%N eqn:E; [reflexivity|].
  destruct (Cookie.cut_at c s) as [l r]. cbn [fst contains] in *.
  now rewrite E, IH.
Qed.

Lemma cut_at_keeps_free (d c : N) (s : jsstring) :
  contains d s = false ->
  contains d (fst (Cookie.cut_at c s)) = false /\
  forall r, snd (Cookie.cut_at c s) = Some r -> contains d r = false.
Proof.
  induction s as [|a s IH]; intros Hs.
  - split; [reflexivity|discriminate].
  - apply contains_false_cons in Hs as [Ha Hs]. cbn [Cookie.cut_at].
    destruct (a =? c)%N.
    + split; [reflexivity|]. intros r Hr. now injection Hr as <-.
    + destruct (IH Hs) as [Hl Hr].
      destruct (Cookie.cut_at c s) as [l r]. cbn [fst snd contains] in *.
      split; [|exact Hr]. apply N.eqb_neq in Ha. now rewrite Ha, Hl.
Qed.

Lemma cut_at_app (c : N) (u t : jsstring) :
  contains c u = false -> Cookie.cut_at c (u ++ c :: t) = (u, Some t).
Proof.
  induction u as [|a u IH]; intros Hu; cbn [app Cookie.cut_at].
  - now rewrite N.eqb_refl.
  - apply contains_false_cons in Hu as [Ha Hu].
    apply N.eqb_neq in Ha. rewrite Ha, (IH Hu). reflexivity.
Qed.

Lemma drop_blanks_keeps_free (d : N) (s : jsstring) :
  contains d s = false -> contains d (Cookie.drop_blanks s) = false.
Proof.
  induction s as [|a s IH]; intros Hs; [reflexivity|]. cbn [Cookie.drop_blanks].
  destruct (Cookie.is_blank a); [|exact Hs].
  apply contains_false_cons in Hs as [_ Hs]. now apply IH.
Qed.

Lemma trim_keeps_free (d : N) (s : jsstring) :
  contains d s = false -> contains d (Cookie.trim s) = false.
Proof.
  intros Hs. unfold Cookie.trim. rewrite contains_rev.
  apply drop_blanks_keeps_free. rewrite contains_rev.
  now apply drop_blanks_keeps_free.
Qed.

Lemma store_names (j : Cookie.jar) (n v : jsstring) :
  List.map fst (Cookie.store j n v)
  = if in_dec jsstring_eq_dec n (List.map fst j)
    then List.map fst j else List.map fst j ++ [n].
Proof.
  induction j as [|[n' v'] j IH]; cbn [Cookie.store List.map fst].
  - destruct (in_dec jsstring_eq_dec n []) as [[]|_]. reflexivity.
  - destruct (eqb n' n) eqn:E.
    + apply eqb_eq in E. subst n'.
      destruct (in_dec jsstring_eq_dec n (n :: List.map fst j)) as [_|Hn];
        [reflexivity|]. exfalso. apply Hn. now left.
    + apply eqb_neq in E. cbn [List.map fst]. rewrite IH.
      destruct (in_dec jsstring_eq_dec n (List.map fst j)) as [Hin|Hout];
        destruct (in_dec jsstring_eq_dec n (n' :: List.map fst j))
          as [Hin'|Hout']; try reflexivity.
      * exfalso. apply Hout'. now right.
      * exfalso. destruct Hin' as [Heq|Hin']; [now apply E|now apply Hout].
Qed.

Lemma store_ok (j : Cookie.jar) (n v : jsstring) :
  Cookie.jar_ok j -> Cookie.entry_ok (n, v) ->
  Cookie.jar_ok (Cookie.store j n v).
Proof.
  intros [Hok Hnd] Hnv. split.
  - clear Hnd. induction j as [|[n' v'] j IH]; cbn [Cookie.store].
    + now constructor.
    + inversion Hok as [|? ? Hh Ht]; subst.
      destruct (eqb n' n) eqn:E.
      * apply eqb_eq in E. subst n'. now constructor.
      * constructor; [exact Hh|now apply IH].
  - rewrite store_names.
    destruct (in_dec jsstring_eq_dec n (List.map fst j)) as [_|Hout];
      [exact Hnd|].
    apply NoDup_app; [exact Hnd|repeat constructor; intros []|].
    intros x Hx [<-|[]]. now apply Hout.
Qed.

Lemma store_get (j : Cookie.jar) (n v : jsstring) :
  Cookie.get (Cookie.store j n v) n = Some v.
Proof.
  induction j as [|[n' v'] j IH]; cbn [Cookie.store Cookie.get].
  - now rewrite eqb_refl.
  - destruct (eqb n' n) eqn:E; cbn [Cookie.get]; rewrite E;
      [reflexivity|exact IH].
Qed.

(** Whatever is assigned to [document.cookie], the jar stays well formed. *)
Lemma assign_ok (j : Cookie.jar) (s : jsstring) :
  Cookie.jar_ok j -> Cookie.jar_ok (Cookie.assign j s).
Proof.
  intros Hj. unfold Cookie.assign.
  pose proof (cut_at_fst_free 59%N s) as Hpair.
  set (pair := fst (Cookie.cut_at 59%N s)) in *.
  pose proof (cut_at_fst_free 61%N pair) as Hname.
  destruct (cut_at_keeps_free 59%N 61%N pair Hpair) as [Hn Hv].
  destruct (Cookie.cut_at 61%N pair) as [l [r|]]; cbn [fst snd] in *;
    [|exact Hj].
  destruct (eqb (Cookie.trim l) []); [exact Hj|].
  apply store_ok; [exact Hj|].
  repeat split; cbn [fst snd].
  - now apply trim_keeps_free.
  - apply trim_keeps_free. now apply Hv.
  - now apply trim_keeps_free.
Qed.

Lemma drop_blanks_id (a : N) (s : jsstring) :
  Cookie.is_blank a = false -> Cookie.drop_blanks (a :: s) = a :: s.
Proof. intros H. cbn [Cookie.drop_blanks]. now rewrite H. Qed.

(** Trimming leaves a text alone that neither begins nor ends with a
    blank. *)
Lemma trim_id (a b : N) (s : jsstring) :
  Cookie.is_blank a = false -> Cookie.is_blank b = false ->
  Cookie.trim (a :: s ++ [b]) = a :: s ++ [b].
Proof.
  intros Ha Hb. unfold Cookie.trim. rewrite (drop_blanks_id a) by exact Ha.
  change (a :: s ++ [b]) with ((a :: s) ++ [b]).
  rewrite rev_app_distr. cbn [rev app].
  rewrite (drop_blanks_id b) by exact Hb.
  change (b :: rev s ++ [a]) with ([b] ++ rev (a :: s)).
  rewrite rev_app_distr, rev_involutive. reflexivity.
Qed.

Lemma trim_word (s : jsstring) :
  forallb (fun c => negb (Cookie.is_blank c)) s = true -> Cookie.trim s = s.
Proof.
  intros H. destruct s as [|a s]; [reflexivity|].
  destruct (rev s) as [|b r] eqn:E.
  - apply (f_equal (@rev N)) in E. rewrite rev_involutive in E. subst s.
    cbn [forallb] in H. apply andb_true_iff in H as [Ha _].
    apply negb_true_iff in Ha. unfold Cookie.trim.
    rewrite (drop_blanks_id a) by exact Ha. cbn [rev app].
    now rewrite (drop_blanks_id a) by exact Ha.
  - apply (f_equal (@rev N)) in E. rewrite rev_involutive in E.
    cbn [rev] in E. subst s.
    cbn [forallb] in H. apply andb_true_iff in H as [Ha Hs].
    rewrite forallb_app in Hs. apply andb_true_iff in Hs as [_ Hb].
    cbn [forallb] in Hb. rewrite andb_true_r in Hb.
    apply negb_true_iff in Ha, Hb. now apply trim_id.
Qed.

(** The cookie written by [setCookie] holds the value as given, when name
    and value are free of semicolons and of blanks at their ends. *)
Lemma assign_cookie_string (P : Platform) (j : Cookie.jar) (now : Z)
  (name value : jsstring) (days : Z) :
  contains 59%N name = false -> contains 61%N name = false ->
  contains 59%N value = false ->
  name <> [] -> Cookie.trim name = name -> Cookie.trim value = value ->
  Cookie.get (Cookie.assign j (cookie_string now name value days)) name
  = Some value.
Proof.
  intros Hsemi Heq Hv Hne Htn Htv. unfold Cookie.assign, cookie_string.
  change (str ";expires=") with (59%N :: str "expires=").
  change (str "=") with [61%N].
  replace (name ++ [61%N] ++ value ++
           (59%N :: str "expires=") ++ toUTCString _ ++ str ";path=/")
    with ((name ++ [61%N] ++ value) ++
          59%N :: str "expires=" ++
                  toUTCString (now + days * 24 * 60 * 60 * 1000) ++
                  str ";path=/")
    by (rewrite <- !app_assoc; reflexivity).
  rewrite cut_at_app.
  2:{ rewrite !contains_app, Hsemi, Hv. reflexivity. }
  cbn [fst app]. rewrite (cut_at_app 61%N name value Heq).
  rewrite Htn, Htv.
  destruct (eqb name []) eqn:E; [apply eqb_eq in E; contradiction|].
  apply store_get.
Qed.

(** After a write of a text without semicolon that neither begins nor ends
    with a blank, the reload parses that very text. *)
Lemma reload_after_write (P : Platform) (now : Z) (text : jsstring)
  (st : State) :
  Cookie.jar_ok (cookies st) ->
  contains 59%N text = false -> text <> [] -> Cookie.trim text = text ->
  reload (setCookie now (str "cvd_history") text st)
  = match parse text with
    | Some parsed => (parsed, [])
    | None => (JArr [], [parse_error])
    end.
Proof.
  intros Hjar Hsemi Hne Htrim. unfold reload, load, setCookie, assignCookie.
  cbn [cookies emit].
  rewrite getCookie_read; [|now apply assign_ok|reflexivity].
  rewrite assign_cookie_string; try reflexivity; try assumption;
    [|discriminate].
  destruct (eqb text []) eqn:E; [apply eqb_eq in E; contradiction|].
  reflexivity.
Qed.

(* ================================================================== *)
(** ** JSON: strings come back *)
(* ================================================================== *)

Lemma hex_value_char (d : N) : (d < 16)%N -> hex_value (hex_char d) = Some d.
Proof.
  intros Hd.
  assert (H : In d [0; 1; 2; 3; 4; 5; 6; 7; 8; 9; 10; 11; 12; 13; 14; 15]%N).
  { simpl. lia. }
  simpl in H.
  repeat (destruct H as [<-|H]; [reflexivity|]). contradiction.
Qed.

Lemma hex4_value_escape (c : N) :
  (c < 65536)%N ->
  hex4_value (hex_char ((c / 4096) mod 16)) (hex_char ((c / 256) mod 16))
    (hex_char ((c / 16) mod 16)) (hex_char (c mod 16)) = Some c.
Proof.
  intros Hc. unfold hex4_value.
  rewrite !hex_value_char by (apply N.mod_lt; discriminate).
  f_equal.
  assert (E2 : (c / 256 = c / 16 / 16)%N)
    by (now rewrite N.Div0.div_div).
  assert (E3 : (c / 4096 = c / 256 / 16)%N)
    by (now rewrite N.Div0.div_div).
  pose proof (N.div_mod' c 16) as H1.
  pose proof (N.mod_lt c 16 ltac:(discriminate)) as B1.
  pose proof (N.div_mod' (c / 16) 16) as H2.
  pose proof (N.mod_lt (c / 16) 16 ltac:(discriminate)) as B2.
  pose proof (N.div_mod' (c / 256) 16) as H3.
  pose proof (N.mod_lt (c / 256) 16 ltac:(discriminate)) as B3.
  rewrite <- E2 in H2. rewrite <- E3 in H3.
  assert (H4 : ((c / 4096) mod 16 = c / 4096)%N).
  { apply N.mod_small. apply N.Div0.div_lt_upper_bound. exact Hc. }
  rewrite H4. lia.
Qed.

Lemma parse_unicode_escape (c : N) (t acc : jsstring) :
  (c < 65536)%N ->
  parse_string_body (unicode_escape c ++ t) acc
  = parse_string_body t (c :: acc).
Proof.
  intros Hc. unfold unicode_escape. change (str "\u") with [92%N; 117%N].
  cbn [app parse_string_body].
  change (92 =? 34)%N with false. change (92 =? 92)%N with true.
  change (117 =? 34)%N with false. change (117 =? 92)%N with false.
  change (117 =? 47)%N with false. change (117 =? 98)%N with false.
  change (117 =? 102)%N with false. change (117 =? 110)%N with false.
  change (117 =? 114)%N with false. change (117 =? 116)%N with false.
  change (117 =? 117)%N with true. cbv iota.
  now rewrite hex4_value_escape.
Qed.

Lemma parse_plain_char (c : N) (t acc : jsstring) :
  c <> 34%N -> c <> 92%N -> (32 <= c)%N ->
  parse_string_body (c :: t) acc = parse_string_body t (c :: acc).
Proof.
  intros H34 H92 H32. cbn [parse_string_body].
  apply N.eqb_neq in H34, H92. rewrite H34, H92.
  assert (H : (c <? 32)%N = false) by (apply N.ltb_ge; exact H32).
  now rewrite H.
Qed.

Lemma parse_escape_char (c : N) (t acc : jsstring) :
  is_high_surrogate c = false -> is_low_surrogate c = false ->
  parse_string_body (escape_char c ++ t) acc
  = parse_string_body t (c :: acc).
Proof.
  intros _ _. unfold escape_char.
  destruct (c =? 8)%N eqn:E8; [apply N.eqb_eq in E8; now subst c|].
  destruct (c =? 9)%N eqn:E9; [apply N.eqb_eq in E9; now subst c|].
  destruct (c =? 10)%N eqn:E10; [apply N.eqb_eq in E10; now subst c|].
  destruct (c =? 12)%N eqn:E12; [apply N.eqb_eq in E12; now subst c|].
  destruct (c =? 13)%N eqn:E13; [apply N.eqb_eq in E13; now subst c|].
  destruct (c =? 34)%N eqn:E34; [apply N.eqb_eq in E34; now subst c|].
  destruct (c =? 92)%N eqn:E92; [apply N.eqb_eq in E92; now subst c|].
  destruct (c <? 32)%N eqn:E32.
  - apply N.ltb_lt in E32. apply parse_unicode_escape. lia.
  - apply N.ltb_ge in E32. apply N.eqb_neq in E34, E92.
    now apply parse_plain_char.
Qed.

Lemma surrogate_plain (c : N) :
  is_high_surrogate c = true \/ is_low_surrogate c = true ->
  c <> 34%N /\ c <> 92%N /\ (32 <= c)%N /\ (c < 65536)%N.
Proof.
  unfold is_high_surrogate, is_low_surrogate.
  intros [H|H]; apply andb_true_iff in H as [H1 H2];
    apply N.leb_le in H1, H2; lia.
Qed.

(** A quoted string is read back as it was. *)
Lemma parse_quote_body (n : nat) :
  forall s rest acc,
    (length s <= n)%nat ->
    parse_string_body (quote_body s ++ 34%N :: rest) acc
    = Some (rev acc ++ s, rest).
Proof.
  induction n as [|n IH]; intros s rest acc Hn.
  - destruct s; [|simpl in Hn; lia]. cbn [quote_body app parse_string_body].
    change (34 =? 34)%N with true. cbv iota. now rewrite app_nil_r.
  - destruct s as [|c s].
    { cbn [quote_body app parse_string_body].
      change (34 =? 34)%N with true. cbv iota. now rewrite app_nil_r. }
    simpl in Hn.
    assert (Hstep : forall t a, (length t <= n)%nat ->
               parse_string_body (quote_body t ++ 34%N :: rest) (c :: a)
               = Some (rev a ++ c :: t, rest)).
    { intros t a Ht. rewrite IH by exact Ht. cbn [rev].
      now rewrite <- app_assoc. }
    cbn [quote_body].
    destruct (is_high_surrogate c) eqn:Eh.
    + destruct (surrogate_plain c (or_introl Eh)) as [H34 [H92 [H32 H16]]].
      destruct s as [|d s].
      * rewrite parse_unicode_escape by exact H16.
        apply (Hstep [] acc). simpl; lia.
      * destruct (is_low_surrogate d) eqn:El.
        -- destruct (surrogate_plain d (or_intror El)) as [D34 [D92 [D32 _]]].
           cbn [app]. rewrite parse_plain_char by assumption.
           rewrite parse_plain_char by assumption.
           rewrite IH by (simpl in Hn; lia). cbn [rev].
           rewrite <- !app_assoc. reflexivity.
        -- rewrite <- app_assoc. rewrite parse_unicode_escape by exact H16.
           apply Hstep. lia.
    + destruct (is_low_surrogate c) eqn:El.
      * destruct (surrogate_plain c (or_intror El)) as [_ [_ [_ H16]]].
        rewrite <- app_assoc. rewrite parse_unicode_escape by exact H16.
        apply Hstep. lia.
      * rewrite <- app_assoc. rewrite parse_escape_char by assumption.
        apply Hstep. lia.
Qed.

Lemma parse_quote (s rest : jsstring) :
  parse_string_body (quote_body s ++ 34%N :: rest) [] = Some (s, rest).
Proof. apply (parse_quote_body (length s)). lia. Qed.

(* ================================================================== *)
(** ** JSON: numbers come back *)
(* ================================================================== *)

Lemma digits_of_uint_lt10 (u : Decimal.uint) :
  Forall (fun d => (d < 10)%N) (digits_of_uint u).
Proof. induction u; simpl; constructor; auto; lia. Qed.

Lemma digits_lt10 (n : N) : Forall (fun d => (d < 10)%N) (digits n).
Proof. apply digits_of_uint_lt10. Qed.

Lemma digits_nonempty (n : N) : digits n <> [].
Proof.
  destruct (digits_head n) as [E|[d [ds [E _]]]]; rewrite E; discriminate.
Qed.

Lemma digits_of_uint_of_digits (ds : list N) :
  Forall (fun d => (d < 10)%N) ds ->
  digits_of_uint (uint_of_digits ds) = ds.
Proof.
  induction 1 as [|d ds Hd _ IH]; [reflexivity|]. cbn [uint_of_digits].
  assert (H : In d [0; 1; 2; 3; 4; 5; 6; 7; 8; 9]%N) by (simpl; lia).
  simpl in H.
  repeat (destruct H as [<-|H]; [simpl; now rewrite IH|]). contradiction.
Qed.

Lemma unorm_leading (d : N) (ds : list N) :
  (1 <= d)%N -> (d < 10)%N ->
  Decimal.unorm (uint_of_digits (d :: ds)) = uint_of_digits (d :: ds).
Proof.
  intros H1 H10.
  assert (H : In d [1; 2; 3; 4; 5; 6; 7; 8; 9]%N) by (simpl; lia).
  simpl in H.
  repeat (destruct H as [<-|H]; [reflexivity|]). contradiction.
Qed.

(** A numeral without leading zero is the print of its value. *)
Lemma digits_of_digits (d : N) (ds : list N) :
  (1 <= d)%N -> Forall (fun x => (x < 10)%N) (d :: ds) ->
  digits (of_digits (d :: ds)) = d :: ds.
Proof.
  intros H1 Hall. unfold digits.
  rewrite <- (digits_of_uint_of_digits (d :: ds) Hall) at 1.
  rewrite <- of_uint_digits, DecimalN.Unsigned.to_of.
  rewrite unorm_leading; [|exact H1|now inversion Hall].
  now apply digits_of_uint_of_digits.
Qed.

Lemma of_digits_app (a b : list N) :
  of_digits (a ++ b) = fold_left decimal_step b (of_digits a).
Proof. unfold of_digits. fold decimal_step. apply fold_left_app. Qed.

Lemma of_digits_leading_zeros (j : nat) (ds : list N) :
  of_digits (repeat 0%N j ++ ds) = of_digits ds.
Proof.
  rewrite of_digits_app.
  replace (of_digits (repeat 0%N j)) with 0%N; [reflexivity|].
  induction j as [|j IH]; [reflexivity|].
  unfold of_digits in *. cbn [repeat fold_left]. exact IH.
Qed.

Lemma digits_last (n : N) :
  (n mod 10 <> 0)%N ->
  exists ds d, digits n = ds ++ [d] /\ d <> 0%N.
Proof.
  intros Hmod. pose proof (digits_nonempty n) as Hne.
  pose proof (digits_lt10 n) as Hlt. pose proof (of_digits_digits n) as Hv.
  destruct (rev (digits n)) as [|d r] eqn:E.
  { apply (f_equal (@rev N)) in E. rewrite rev_involutive in E.
    contradiction. }
  apply (f_equal (@rev N)) in E. rewrite rev_involutive in E.
  cbn [rev] in E. exists (rev r), d. split; [exact E|].
  intros ->. apply Hmod. rewrite E in Hv.
  rewrite of_digits_app in Hv. cbn [fold_left] in Hv.
  unfold decimal_step in Hv. rewrite <- Hv.
  rewrite N.add_0_r. apply N.Div0.mod_mul.
Qed.

Lemma drop_zeros_repeat (t : nat) (r : list N) :
  drop_zeros (repeat 0%N t ++ r) = drop_zeros r.
Proof. induction t as [|t IH]; [reflexivity|exact IH]. Qed.

Lemma drop_zeros_head (d : N) (r : list N) :
  d <> 0%N -> drop_zeros (d :: r) = d :: r.
Proof. intros Hd. destruct d; [contradiction|reflexivity]. Qed.

(** The significant digits of a padded numeral. *)
Lemma significant_padded (n : N) (j t : nat) :
  (n mod 10 <> 0)%N ->
  of_digits (repeat 0%N j ++ digits n ++ repeat 0%N t) <> 0%N /\
  significant (of_digits (repeat 0%N j ++ digits n ++ repeat 0%N t))
  = (digits n, t).
Proof.
  intros Hmod. rewrite of_digits_leading_zeros.
  assert (Hn : n <> 0%N) by (intros ->; now apply Hmod).
  destruct (digits_head n) as [E|[d [ds [E Hd]]]].
  { exfalso. pose proof (of_digits_digits n) as Hv. rewrite E in Hv.
    now apply Hn. }
  pose proof (digits_lt10 n) as Hlt.
  assert (Hprint : digits (of_digits (digits n ++ repeat 0%N t))
                   = digits n ++ repeat 0%N t).
  { rewrite E. cbn [app]. apply digits_of_digits; [exact Hd|].
    rewrite E in Hlt. change (d :: ds ++ repeat 0%N t)
      with ((d :: ds) ++ repeat 0%N t).
    apply Forall_app. split; [exact Hlt|].
    apply Forall_forall. intros x Hx. apply repeat_spec in Hx. subst x. lia. }
  split.
  - intros H0. rewrite H0 in Hprint. rewrite E in Hprint.
    vm_compute in Hprint. cbn [app] in Hprint.
    injection Hprint as Hd0 _. subst d. lia.
  - unfold significant. rewrite Hprint.
    destruct (digits_last n Hmod) as [ds' [d' [E' Hd']]].
    rewrite rev_app_distr, rev_repeat, drop_zeros_repeat.
    rewrite E', rev_app_distr. cbn [rev app].
    rewrite (drop_zeros_head d' (rev ds') Hd').
    change (d' :: rev ds') with ([d'] ++ rev ds').
    rewrite rev_app_distr, rev_involutive. cbn [rev app].
    f_equal. rewrite !length_app, repeat_length. cbn [length]. lia.
Qed.

Lemma normal_padded (neg : bool) (n : N) (j t : nat) (ex : Z) :
  (n mod 10 <> 0)%N ->
  normal neg (of_digits (repeat 0%N j ++ digits n ++ repeat 0%N t)) ex
  = Fin (if neg then - Z.of_N n else Z.of_N n) (ex + Z.of_nat t).
Proof.
  intros Hmod. destruct (significant_padded n j t Hmod) as [Hne Hsig].
  unfold normal. apply N.eqb_neq in Hne. rewrite Hne, Hsig.
  now rewrite of_digits_digits.
Qed.

Lemma take_digits_chars (ds : list N) (rest : jsstring) :
  Forall (fun d => (d < 10)%N) ds -> not_digit_next rest ->
  take_digits (digit_chars ds ++ rest) = (ds, rest).
Proof.
  intros Hds Hrest. induction Hds as [|d ds Hd _ IH].
  - destruct rest as [|c rest]; [reflexivity|]. simpl in Hrest.
    cbn [digit_chars List.map app take_digits]. now rewrite Hrest.
  - cbn [digit_chars List.map app take_digits].
    fold (digit_chars ds). rewrite IH.
    assert (Hdig : is_digit (digit_char d) = true).
    { unfold is_digit, digit_char. apply andb_true_iff.
      split; apply N.leb_le; lia. }
    rewrite Hdig. f_equal. f_equal. unfold digit_char. lia.
Qed.

Lemma delimited_not_digit (rest : jsstring) :
  delimited rest -> not_digit_next rest.
Proof.
  destruct rest as [|c rest]; [trivial|]. simpl.
  intros [-> | [-> | ->]]; reflexivity.
Qed.

Lemma parse_exponent_text (ex : option Z) (rest : jsstring) :
  delimited rest ->
  parse_exponent (exponent_text ex ++ rest) = Some (exponent_value ex, rest).
Proof.
  intros Hrest. destruct ex as [v|]; cbn [exponent_text exponent_value].
  - change (str "e") with [101%N]. cbn [app].
    unfold parse_exponent. change ((101 =? 101) || (101 =? 69))%N with true.
    cbv iota.
    pose proof (digits_nonempty (Z.to_N (Z.abs v))) as Hne.
    pose proof (digits_lt10 (Z.to_N (Z.abs v))) as Hlt.
    pose proof (of_digits_digits (Z.to_N (Z.abs v))) as Hval.
    destruct (v <? 0)%Z eqn:Ev.
    + change (str "-") with [45%N]. cbn [app].
      change (45 =? 45)%N with true. cbv iota.
      rewrite take_digits_chars; [|exact Hlt|now apply delimited_not_digit].
      destruct (digits (Z.to_N (Z.abs v))) as [|d ds] eqn:E;
        [contradiction|].
      rewrite Hval. f_equal. f_equal. apply Z.ltb_lt in Ev. lia.
    + change (str "+") with [43%N]. cbn [app].
      change (43 =? 45)%N with false. change (43 =? 43)%N with true.
      cbv iota.
      rewrite take_digits_chars; [|exact Hlt|now apply delimited_not_digit].
      destruct (digits (Z.to_N (Z.abs v))) as [|d ds] eqn:E;
        [contradiction|].
      rewrite Hval. f_equal. f_equal. apply Z.ltb_ge in Ev. lia.
  - cbn [app]. unfold parse_exponent.
    destruct rest as [|c rest]; [reflexivity|]. simpl in Hrest.
    destruct Hrest as [-> | [-> | ->]]; reflexivity.
Qed.

Lemma exponent_text_head (ex : option Z) (rest : jsstring) :
  delimited rest ->
  not_digit_next (exponent_text ex ++ rest) /\
  match exponent_text ex ++ rest with
  | c :: _ => (c =? 46)%N = false
  | [] => True
  end.
Proof.
  intros Hrest. destruct ex as [v|]; cbn [exponent_text].
  - change (str "e") with [101%N]. cbn [app not_digit_next]. now split.
  - cbn [app]. split; [now apply delimited_not_digit|].
    destruct rest as [|c rest]; [trivial|]. simpl in Hrest.
    destruct Hrest as [-> | [-> | ->]]; reflexivity.
Qed.

Lemma parse_fraction_text (fs : list N) (ex : option Z) (rest : jsstring) :
  Forall (fun d => (d < 10)%N) fs -> delimited rest ->
  parse_fraction (fraction_text fs ++ exponent_text ex ++ rest)
  = Some (fs, exponent_text ex ++ rest).
Proof.
  intros Hfs Hrest.
  destruct (exponent_text_head ex rest Hrest) as [Hnd H46].
  destruct fs as [|f fs]; cbn [fraction_text].
  - cbn [app]. unfold parse_fraction.
    destruct (exponent_text ex ++ rest) as [|c s]; [reflexivity|].
    now rewrite H46.
  - change (str ".") with [46%N]. rewrite <- app_assoc. cbn [app].
    unfold parse_fraction. change (46 =? 46)%N with true. cbv iota.
    rewrite take_digits_chars; [reflexivity|exact Hfs|exact Hnd].
Qed.

(** How a JSON number text is read: sign, whole digits, fraction digits
    and exponent. *)
Lemma parse_number_text (neg : bool) (d : N) (ws fs : list N)
  (ex : option Z) (rest : jsstring) :
  Forall (fun x => (x < 10)%N) (d :: ws) -> (d = 0%N -> ws = []) ->
  Forall (fun x => (x < 10)%N) fs -> delimited rest ->
  parse_number ((if neg then str "-" else []) ++ digit_chars (d :: ws) ++
                fraction_text fs ++ exponent_text ex ++ rest)
  = Some (normal neg (of_digits (d :: ws ++ fs))
            (exponent_value ex - Z.of_nat (length fs)), rest).
Proof.
  intros Hws Hzero Hfs Hrest.
  assert (Hafter : not_digit_next
                     (fraction_text fs ++ exponent_text ex ++ rest)).
  { destruct fs as [|f fs]; cbn [fraction_text].
    - cbn [app]. now apply exponent_text_head.
    - change (str ".") with [46%N]. cbn [app not_digit_next]. reflexivity. }
  assert (Hgo :
    match take_digits (digit_chars (d :: ws) ++
                       fraction_text fs ++ exponent_text ex ++ rest) with
    | ([], _) => None
    | (d0 :: ds, s1) =>
        if (d0 =? 0)%N && negb (Nat.eqb (length ds) 0) then None
        else
          match parse_fraction s1 with
          | None => None
          | Some (fs0, s2) =>
              match parse_exponent s2 with
              | None => None
              | Some (ex0, s3) =>
                  Some (normal neg (of_digits (d0 :: ds ++ fs0))
                          (ex0 - Z.of_nat (length fs0)), s3)
              end
          end
    end
    = Some (normal neg (of_digits (d :: ws ++ fs))
              (exponent_value ex - Z.of_nat (length fs)), rest)).
  { rewrite take_digits_chars by assumption.
    assert (Hlead : (d =? 0)%N && negb (Nat.eqb (length ws) 0) = false).
    { destruct (d =? 0)%N eqn:E0; [|reflexivity].
      apply N.eqb_eq in E0. now rewrite (Hzero E0). }
    rewrite Hlead, parse_fraction_text by assumption.
    now rewrite parse_exponent_text by assumption. }
  unfold parse_number. destruct neg.
  - change (str "-") with [45%N]. cbn [app].
    change (45 =? 45)%N with true. cbv iota. exact Hgo.
  - cbn [app]. cbn [digit_chars List.map app] in *.
    assert (H45 : (digit_char d =? 45)%N = false).
    { apply N.eqb_neq. unfold digit_char. lia. }
    rewrite H45. exact Hgo.
Qed.

Lemma normal_of_padding (neg : bool) (n : N) (j t : nat) (ex e : Z)
  (l : list N) :
  (n mod 10 <> 0)%N ->
  l = repeat 0%N j ++ digits n ++ repeat 0%N t ->
  (ex + Z.of_nat t = e)%Z ->
  normal neg (of_digits l) ex
  = Fin (if neg then - Z.of_N n else Z.of_N n) e.
Proof. intros Hmod -> <-. now apply normal_padded. Qed.

Lemma fraction_text_cons (f : N) (fs : list N) :
  fraction_text (f :: fs) = str "." ++ digit_chars (f :: fs).
Proof. reflexivity. Qed.

Lemma digit_chars_app (a b : list N) :
  digit_chars (a ++ b) = digit_chars a ++ digit_chars b.
Proof. apply map_app. Qed.

(** The print of a positive number is read back as that number. *)
Lemma parse_format_digits (neg : bool) (n : N) (e : Z) (rest : jsstring) :
  (n mod 10 <> 0)%N -> delimited rest ->
  parse_number
    ((if neg then str "-" else []) ++
     format_digits (digits n) (e + Z.of_nat (length (digits n))) ++ rest)
  = Some (Fin (if neg then - Z.of_N n else Z.of_N n) e, rest).
Proof.
  intros Hmod Hrest.
  assert (Hn : n <> 0%N) by (intros ->; now apply Hmod).
  pose proof (digits_lt10 n) as Hlt.
  destruct (digits_head n) as [E|[d1 [ds1 [E Hd1]]]].
  { exfalso. pose proof (of_digits_digits n) as Hv. rewrite E in Hv.
    now apply Hn. }
  assert (Hnz : d1 = 0%N -> @nil N = ds1 /\ False) by lia.
  unfold format_digits.
  set (k := Z.of_nat (length (digits n))).
  set (nn := (e + k)%Z).
  assert (Hk : k = Z.of_nat (S (length ds1))) by (subst k; now rewrite E).
  destruct ((k <=? nn)%Z && (nn <=? 21)%Z) eqn:C1.
  { (* whole number *)
    apply andb_true_iff in C1 as [C1 _]. apply Z.leb_le in C1.
    set (t := Z.to_nat (nn - k)).
    replace ((if neg then str "-" else []) ++
             (digit_chars (digits n) ++ zeros t) ++ rest)
      with ((if neg then str "-" else []) ++
            digit_chars (d1 :: (ds1 ++ repeat 0%N t)) ++
            fraction_text [] ++ exponent_text None ++ rest).
    2:{ rewrite E, zeros_digit_chars.
        change (d1 :: ds1 ++ repeat 0%N t) with ((d1 :: ds1) ++ repeat 0%N t).
        rewrite digit_chars_app, <- !app_assoc. reflexivity. }
    rewrite parse_number_text; try assumption.
    - f_equal. f_equal. apply (normal_of_padding neg n 0 t); try assumption.
      + rewrite app_nil_r, E. reflexivity.
      + cbn [exponent_value length]. subst t nn. lia.
    - rewrite E in Hlt.
      change (d1 :: ds1 ++ repeat 0%N t) with ((d1 :: ds1) ++ repeat 0%N t).
      apply Forall_app. split; [exact Hlt|].
      apply Forall_forall. intros x Hx. apply repeat_spec in Hx. subst x. lia.
    - intros H0. now destruct (Hnz H0).
    - constructor. }
  destruct ((0 <? nn)%Z && (nn <=? 21)%Z) eqn:C2.
  { (* digits on both sides of the point *)
    apply andb_true_iff in C2 as [C2 C2']. apply Z.ltb_lt in C2.
    apply Z.leb_le in C2'.
    assert (Hnk : (nn < k)%Z).
    { apply andb_false_iff in C1 as [C1|C1];
        [now apply Z.leb_gt in C1|apply Z.leb_gt in C1; lia]. }
    destruct (Z.to_nat nn) as [|a] eqn:Ea; [lia|].
    rewrite E. cbn [firstn skipn].
    destruct (skipn a ds1) as [|f fs] eqn:Es.
    { exfalso. apply (f_equal (@length N)) in Es.
      rewrite length_skipn in Es. simpl in Es. lia. }
    replace ((if neg then str "-" else []) ++
             (digit_chars (d1 :: firstn a ds1) ++ str "." ++
              digit_chars (f :: fs)) ++ rest)
      with ((if neg then str "-" else []) ++
            digit_chars (d1 :: firstn a ds1) ++
            fraction_text (f :: fs) ++ exponent_text None ++ rest)
      by (rewrite fraction_text_cons, <- !app_assoc; reflexivity).
    assert (Hsplit : firstn a ds1 ++ f :: fs = ds1)
      by (rewrite <- Es; apply firstn_skipn).
    rewrite E in Hlt. inversion Hlt as [|? ? Hd1' Hds1]; subst.
    rewrite <- Hsplit in Hds1. apply Forall_app in Hds1 as [Hl Hr].
    rewrite parse_number_text; try assumption.
    - f_equal. f_equal. apply (normal_of_padding neg n 0 0); try assumption.
      + cbn [repeat app]. rewrite app_nil_r, E, Hsplit. reflexivity.
      + cbn [exponent_value].
        assert (Hlen : length ds1 = (a + length (f :: fs))%nat).
        { rewrite <- Hsplit at 1. rewrite length_app, length_firstn.
          apply (f_equal (@length N)) in Es. rewrite length_skipn in Es.
          simpl in Es. simpl. lia. }
        subst nn. lia.
    - now constructor.
    - intros H0. now destruct (Hnz H0). }
  destruct ((-6 <? nn)%Z && (nn <=? 0)%Z) eqn:C3.
  { (* leading zeros after the point *)
    apply andb_true_iff in C3 as [_ C3]. apply Z.leb_le in C3.
    set (u := Z.to_nat (- nn)).
    assert (Hfs : exists f fs, repeat 0%N u ++ digits n = f :: fs).
    { rewrite E. destruct u; simpl; eauto. }
    destruct Hfs as [f [fs Hfs]].
    replace ((if neg then str "-" else []) ++
             (str "0." ++ zeros u ++ digit_chars (digits n)) ++ rest)
      with ((if neg then str "-" else []) ++
            digit_chars [0%N] ++
            fraction_text (f :: fs) ++ exponent_text None ++ rest).
    2:{ rewrite fraction_text_cons, <- Hfs, digit_chars_app,
          zeros_digit_chars, <- !app_assoc. reflexivity. }
    rewrite parse_number_text; try assumption.
    - f_equal. f_equal.
      apply (normal_of_padding neg n (S u) 0); try assumption.
      + cbn [repeat app]. rewrite app_nil_r, <- Hfs. reflexivity.
      + cbn [exponent_value].
        assert (Hlen : length (f :: fs) = (u + length (digits n))%nat)
          by (rewrite <- Hfs, length_app, repeat_length; reflexivity).
        rewrite Hlen. subst u nn k. lia.
    - repeat constructor.
    - reflexivity.
    - rewrite <- Hfs. apply Forall_app. split; [|exact Hlt].
      apply Forall_forall. intros x Hx. apply repeat_spec in Hx. subst x. lia. }
  (* exponent form *)
  rewrite E in *.
  replace ((if neg then str "-" else []) ++
           (match ds1 with
            | [] => [digit_char d1]
            | _ :: _ => digit_char d1 :: str "." ++ digit_chars ds1
            end ++ str "e" ++
            (if (nn - 1 <? 0)%Z then str "-" else str "+") ++
            digit_chars (digits (Z.to_N (Z.abs (nn - 1))))) ++ rest)
    with ((if neg then str "-" else []) ++
          digit_chars [d1] ++
          fraction_text ds1 ++ exponent_text (Some (nn - 1)%Z) ++ rest).
  2:{ unfold exponent_text. destruct ds1 as [|f fs].
      - cbn [fraction_text digit_chars List.map app].
        rewrite <- !app_assoc. reflexivity.
      - rewrite fraction_text_cons. cbn [digit_chars List.map app].
        rewrite <- !app_assoc. reflexivity. }
  inversion Hlt as [|? ? Hd1' Hds1]; subst.
  rewrite parse_number_text; try assumption.
  - f_equal. f_equal. apply (normal_of_padding neg n 0 0); try assumption.
    + cbn [repeat app]. rewrite app_nil_r, E. reflexivity.
    + cbn [exponent_value]. subst nn k. cbn [length]. lia.
  - repeat constructor. exact Hd1'.
  - reflexivity.
Qed.

(** [JSON.parse] reads the print of a finite number back as that number. *)
Lemma parse_Number_toString (x : number) (rest : jsstring) :
  normal_number x -> delimited rest ->
  parse_number (Number_toString x ++ rest) = Some (x, rest).
Proof.
  intros Hx Hrest. destruct x as [| | |m e]; try contradiction.
  destruct Hx as [[-> ->]|Hmod].
  - apply (parse_number_text false 0%N [] [] None rest); auto.
    repeat constructor.
  - assert (Hm : m <> 0%Z) by (intros ->; now apply Hmod).
    set (n := Z.to_N (Z.abs m)).
    assert (HmodN : (n mod 10 <> 0)%N).
    { subst n. intros H. apply Hmod.
      apply (f_equal Z.of_N) in H. rewrite N2Z.inj_mod in H.
      rewrite Z2N.id in H by lia. exact H. }
    destruct (significant_padded n 0 0 HmodN) as [_ Hsig].
    cbn [repeat app] in Hsig. rewrite app_nil_r, of_digits_digits in Hsig.
    unfold Number_toString.
    apply Z.eqb_neq in Hm. rewrite Hm. fold n. rewrite Hsig.
    replace (e + Z.of_nat 0 + Z.of_nat (length (digits n)))%Z
      with (e + Z.of_nat (length (digits n)))%Z by lia.
    rewrite <- app_assoc.
    rewrite (parse_format_digits (m <? 0)%Z n e rest HmodN Hrest).
    f_equal. f_equal. f_equal.
    destruct (m <? 0)%Z eqn:Es; subst n;
      [apply Z.ltb_lt in Es|apply Z.ltb_ge in Es]; lia.
Qed.

(* ================================================================== *)
(** ** JSON: values come back *)
(* ================================================================== *)

Lemma storable_items (items : list jsval) :
  storable (JArr items) <-> Forall storable items.
Proof.
  cbn [storable]. induction items as [|x r IH].
  - split; constructor.
  - split.
    + intros [Hx Hr]. constructor; [exact Hx|now apply IH].
    + intros H. inversion H; subst. split; [assumption|now apply IH].
Qed.

Lemma storable_props (props : list (jsstring * jsval)) :
  storable (JObj props) <->
  Forall (fun kv => storable (snd kv)) props /\ NoDup (List.map fst props).
Proof.
  cbn [storable].
  assert (H : (fix all (l : list (jsstring * jsval)) : Prop :=
                 match l with
                 | [] => True
                 | kv :: r => storable (snd kv) /\ all r
                 end) props
              <-> Forall (fun kv => storable (snd kv)) props).
  { induction props as [|kv r IH].
    - split; constructor.
    - split.
      + intros [Hx Hr]. constructor; [exact Hx|now apply IH].
      + intros H. inversion H; subst. split; [assumption|now apply IH]. }
  tauto.
Qed.

Lemma size_items (items : list jsval) (x : jsval) :
  In x items -> (size x < size (JArr items))%nat.
Proof.
  cbn [size]. induction items as [|y r IH]; intros []; subst.
  - lia.
  - specialize (IH H). lia.
Qed.

Lemma size_props (props : list (jsstring * jsval)) kv :
  In kv props -> (size (snd kv) < size (JObj props))%nat.
Proof.
  cbn [size]. induction props as [|y r IH]; intros []; subst.
  - lia.
  - specialize (IH H). lia.
Qed.

Lemma skip_ws_value (text rest : jsstring) :
  starts_value text -> skip_ws (text ++ rest) = text ++ rest.
Proof.
  intros [c [t [-> [Hws _]]]]. cbn [app skip_ws]. now rewrite Hws.
Qed.

Lemma skip_ws_delimiter (c : N) (rest : jsstring) :
  is_ws c = false -> skip_ws (c :: rest) = c :: rest.
Proof. intros H. cbn [skip_ws]. now rewrite H. Qed.

Lemma parse_number_head (c : N) (s : jsstring) r :
  parse_number (c :: s) = Some r -> c = 45%N \/ is_digit c = true.
Proof.
  unfold parse_number. intros H. destruct (c =? 45)%N eqn:E.
  - left. now apply N.eqb_eq.
  - right. cbn [take_digits] in H.
    destruct (is_digit c); [reflexivity|discriminate H].
Qed.

Lemma number_reads_back (x : number) :
  normal_number x -> reads_back (JNum x).
Proof.
  intros Hx. exists (Number_toString x).
  assert (Hfin : isFinite x = true) by (destruct x; try contradiction; reflexivity).
  pose proof (parse_Number_toString x [] Hx I) as Hp.
  rewrite app_nil_r in Hp.
  destruct (Number_toString x) as [|c t] eqn:E; [discriminate Hp|].
  destruct (parse_number_head c t _ Hp) as [Hc|Hc].
  - subst c. split; [cbn [serialize]; now rewrite Hfin, E|].
    split; [exists 45%N, t; repeat split; discriminate|].
    intros fuel rest Hrest Hlen. destruct fuel as [|f]; [simpl in Hlen; lia|].
    rewrite <- E in *. pose proof (parse_Number_toString x rest Hx Hrest) as Hq.
    rewrite E in *. cbn [app] in *. cbn [parse_value skip_ws].
    change (is_ws 45) with false. cbv iota.
    change (45 =? 34)%N with false. change (45 =? 91)%N with false.
    change (45 =? 123)%N with false. cbv iota.
    change (starts_with (str "true") (45%N :: t ++ rest)) with false.
    change (starts_with (str "false") (45%N :: t ++ rest)) with false.
    change (starts_with (str "null") (45%N :: t ++ rest)) with false.
    cbv iota. now rewrite Hq.
  - assert (Hrange : (48 <= c <= 57)%N).
    { unfold is_digit in Hc. apply andb_true_iff in Hc as [H1 H2].
      apply N.leb_le in H1, H2. lia. }
    assert (Hne : forall k : N, (k < 48 \/ 57 < k)%N -> (c =? k)%N = false).
    { intros k Hk. apply N.eqb_neq. lia. }
    assert (Hws : is_ws c = false).
    { unfold is_ws. rewrite !Hne by lia. reflexivity. }
    split; [cbn [serialize]; now rewrite Hfin, E|].
    split.
    { exists c, t. repeat split; [exact Hws|lia|lia]. }
    intros fuel rest Hrest Hlen. destruct fuel as [|f]; [simpl in Hlen; lia|].
    rewrite <- E in *. pose proof (parse_Number_toString x rest Hx Hrest) as Hq.
    rewrite E in *. cbn [app] in *. cbn [parse_value skip_ws].
    rewrite Hws. rewrite !Hne by lia.
    assert (Hlit : forall a l, (a < 48 \/ 57 < a)%N ->
                   starts_with (a :: l) (c :: t ++ rest) = false).
    { intros a l Ha. cbn [starts_with]. rewrite N.eqb_sym, Hne by exact Ha.
      reflexivity. }
    change (str "true") with (116%N :: str "rue").
    change (str "false") with (102%N :: str "alse").
    change (str "null") with (110%N :: str "ull").
    rewrite !Hlit by lia. now rewrite Hq.
Qed.

(** Lengths of concatenated texts, for the fuel conditions. *)
Ltac lengths :=
  repeat (progress cbn [length] in * || rewrite length_app in * ).

Lemma element_text_reads_back (x : jsval) :
  reads_back x ->
  starts_value (element_text x) /\
  forall fuel rest,
    delimited rest -> (length (element_text x ++ rest) < fuel)%nat ->
    parse_value fuel (element_text x ++ rest) = Some (x, rest).
Proof.
  intros [text [Hs [Hv Hp]]]. unfold element_text. rewrite Hs. now split.
Qed.

(** The elements of an array are read back one after the other. *)
Lemma parse_elements_texts (items : list jsval) :
  items <> [] -> Forall reads_back items ->
  forall f cnt rest acc,
    let text := join (str ",") (List.map element_text items) ++ 93%N :: rest in
    (length text < cnt)%nat -> (length text < f)%nat ->
    parse_elements (parse_value f) cnt text acc
    = Some (JArr (rev acc ++ items), rest).
Proof.
  induction items as [|x items IH]; [contradiction|].
  intros _ Hall f cnt rest acc text Hcnt Hf.
  inversion Hall as [|? ? Hx Hitems]; subst.
  destruct (element_text_reads_back x Hx) as [_ Hparse].
  destruct cnt as [|cnt]; [lia|]. cbn [parse_elements].
  destruct items as [|y items].
  - subst text. cbn [List.map join] in *.
    rewrite Hparse; [|simpl; auto|exact Hf].
    rewrite skip_ws_delimiter by reflexivity.
    change (93 =? 44)%N with false. change (93 =? 93)%N with true. cbv iota.
    cbn [rev]. reflexivity.
  - subst text. cbn [List.map join] in *.
    change (str ",") with [44%N] in *.
    rewrite <- !app_assoc in *. cbn [app] in *.
    rewrite Hparse; [|simpl; auto|exact Hf].
    rewrite skip_ws_delimiter by reflexivity.
    change (44 =? 44)%N with true. cbv iota.
    specialize (IH ltac:(discriminate) Hitems f cnt rest (x :: acc)).
    cbn [List.map join] in IH. change (str ",") with [44%N] in IH.
    rewrite IH by (lengths; lia). cbn [rev]. rewrite <- app_assoc.
    reflexivity.
Qed.

Lemma obj_set_fresh (acc : list (jsstring * jsval)) (k : jsstring)
  (v : jsval) :
  ~ In k (List.map fst acc) -> obj_set acc k v = acc ++ [(k, v)].
Proof.
  induction acc as [|[k' v'] acc IH]; intros Hk; [reflexivity|].
  cbn [obj_set]. destruct (eqb k' k) eqn:E.
  - apply eqb_eq in E. exfalso. apply Hk. now left.
  - cbn [app]. f_equal. apply IH. intros H. apply Hk. now right.
Qed.

Lemma member_text_reads_back (kv : jsstring * jsval) :
  reads_back (snd kv) ->
  member_text kv
  = [34%N :: quote_body (fst kv) ++ 34%N :: 58%N :: element_text (snd kv)].
Proof.
  intros [text [Hs _]]. unfold member_text, element_text, quote.
  rewrite Hs. change (str ":") with [58%N].
  cbn [app]. rewrite <- !app_assoc. reflexivity.
Qed.

(** The members of an object are read back one after the other. *)
Lemma parse_members_texts (props : list (jsstring * jsval)) :
  props <> [] -> Forall (fun kv => reads_back (snd kv)) props ->
  NoDup (List.map fst props) ->
  forall f cnt rest acc,
    let text := join (str ",") (flat_map member_text props) ++ 125%N :: rest in
    (forall k, In k (List.map fst props) -> ~ In k (List.map fst acc)) ->
    (length text < cnt)%nat -> (length text < f)%nat ->
    parse_members (parse_value f) cnt text acc
    = Some (JObj (acc ++ props), rest).
Proof.
  induction props as [|[k v] props IH]; [contradiction|].
  intros _ Hall Hnd f cnt rest acc text Hfresh Hcnt Hf.
  inversion Hall as [|? ? Hv Hprops]; subst. cbn [snd] in Hv.
  inversion Hnd as [|? ? Hk Hnd']; subst.
  destruct (element_text_reads_back v Hv) as [_ Hparse].
  pose proof (member_text_reads_back (k, v) Hv) as Hm. cbn [fst snd] in Hm.
  assert (Hset : obj_set acc k v = acc ++ [(k, v)]).
  { apply obj_set_fresh. apply Hfresh. now left. }
  destruct cnt as [|cnt]; [lia|]. cbn [parse_members].
  destruct props as [|[k2 v2] props].
  - subst text. cbn [flat_map] in *. rewrite Hm in *. cbn [app join] in *.
    rewrite skip_ws_delimiter by reflexivity.
    change (34 =? 34)%N with true. cbv iota.
    rewrite <- !app_assoc in *. cbn [app] in *.
    rewrite parse_quote.
    rewrite skip_ws_delimiter by reflexivity.
    change (58 =? 58)%N with true. cbv iota.
    rewrite Hparse; [|simpl; auto|].
    2:{ lengths. lia. }
    rewrite skip_ws_delimiter by reflexivity.
    change (125 =? 44)%N with false. change (125 =? 125)%N with true.
    cbv iota. now rewrite Hset.
  - inversion Hprops as [|? ? Hv2 _]; subst. cbn [snd] in Hv2.
    pose proof (member_text_reads_back (k2, v2) Hv2) as Hm2.
    subst text. cbn [flat_map] in *. rewrite Hm, Hm2 in *.
    cbn [app join] in *. change (str ",") with [44%N] in *.
    rewrite skip_ws_delimiter by reflexivity.
    change (34 =? 34)%N with true. cbv iota.
    rewrite <- !app_assoc in *. cbn [app] in *.
    rewrite parse_quote.
    rewrite skip_ws_delimiter by reflexivity.
    change (58 =? 58)%N with true. cbv iota.
    rewrite Hparse; [|simpl; auto|].
    2:{ lengths. lia. }
    rewrite skip_ws_delimiter by reflexivity.
    change (44 =? 44)%N with true. cbv iota.
    rewrite Hset.
    assert (Hfresh' : forall k0, In k0 (List.map fst ((k2, v2) :: props)) ->
                      ~ In k0 (List.map fst (acc ++ [(k, v)]))).
    { intros k0 Hin Hacc. rewrite map_app in Hacc.
      apply in_app_or in Hacc as [Hacc|[<-|[]]].
      - apply (Hfresh k0); [now right|exact Hacc].
      - apply Hk. exact Hin. }
    specialize (IH ltac:(discriminate) Hprops Hnd' f cnt rest
                  (acc ++ [(k, v)]) Hfresh').
    cbn [flat_map] in IH. rewrite ?Hm2 in IH. cbn [app join] in IH.
    change (str ",") with [44%N] in IH.
    rewrite <- !app_assoc in IH. cbn [app] in IH.
    rewrite IH.
    + rewrite <- ?app_assoc. reflexivity.
    + lengths. lia.
    + lengths. lia.
Qed.

Lemma join_starts_value (sep p : jsstring) (ps : list jsstring)
  (rest : jsstring) :
  starts_value p -> starts_value (join sep (p :: ps) ++ rest).
Proof.
  intros [c [t [-> H]]]. destruct ps as [|q ps].
  - exists c, (t ++ rest). split; [reflexivity|exact H].
  - exists c, (t ++ sep ++ join sep (q :: ps) ++ rest). split; [|exact H].
    change (join sep ((c :: t) :: q :: ps))
      with ((c :: t) ++ sep ++ join sep (q :: ps)).
    cbn [app]. rewrite <- !app_assoc. reflexivity.
Qed.

Lemma array_reads_back (items : list jsval) :
  Forall reads_back items -> reads_back (JArr items).
Proof.
  intros Hall.
  exists (91%N :: join [44%N] (List.map element_text items) ++ [93%N]).
  split; [reflexivity|].
  split; [eexists 91%N, _; repeat split; discriminate|].
  intros fuel rest Hrest Hlen. destruct fuel as [|f]; [simpl in Hlen; lia|].
  cbn [app] in *. rewrite <- app_assoc in *. cbn [app] in *.
  cbn [parse_value skip_ws]. change (is_ws 91) with false. cbv iota.
  change (91 =? 34)%N with false. change (91 =? 91)%N with true. cbv iota.
  destruct items as [|x items].
  - cbn [List.map join app]. rewrite skip_ws_delimiter by reflexivity.
    change (93 =? 93)%N with true. reflexivity.
  - inversion Hall as [|? ? Hx _]; subst.
    destruct (element_text_reads_back x Hx) as [Hsv _].
    destruct (join_starts_value [44%N] (element_text x)
                (List.map element_text items) (93%N :: rest) Hsv)
      as [c [t [E [Hws [H93 _]]]]].
    cbn [List.map] in *. rewrite E. rewrite skip_ws_delimiter by exact Hws.
    apply N.eqb_neq in H93. rewrite H93. rewrite <- E.
    pose proof (parse_elements_texts (x :: items) ltac:(discriminate) Hall
                  f f rest []) as Hpe.
    cbv zeta in Hpe. cbn [List.map rev app] in Hpe.
    change (str ",") with [44%N] in Hpe.
    apply Hpe; cbn [length] in Hlen; lia.
Qed.

Lemma object_reads_back (props : list (jsstring * jsval)) :
  Forall (fun kv => reads_back (snd kv)) props ->
  NoDup (List.map fst props) -> reads_back (JObj props).
Proof.
  intros Hall Hnd.
  exists (123%N :: join [44%N] (flat_map member_text props) ++ [125%N]).
  split; [reflexivity|].
  split; [eexists 123%N, _; repeat split; discriminate|].
  intros fuel rest Hrest Hlen. destruct fuel as [|f]; [simpl in Hlen; lia|].
  cbn [app] in *. rewrite <- app_assoc in *. cbn [app] in *.
  cbn [parse_value skip_ws]. change (is_ws 123) with false. cbv iota.
  change (123 =? 34)%N with false. change (123 =? 91)%N with false.
  change (123 =? 123)%N with true. cbv iota.
  destruct props as [|[k v] props].
  - cbn [flat_map join app]. rewrite skip_ws_delimiter by reflexivity.
    change (125 =? 125)%N with true. reflexivity.
  - inversion Hall as [|? ? Hv _]; subst. cbn [snd] in Hv.
    pose proof (member_text_reads_back (k, v) Hv) as Hm. cbn [fst snd] in Hm.
    assert (Hsv : starts_value
                    (34%N :: quote_body k ++ 34%N :: 58%N :: element_text v)).
    { eexists 34%N, _. repeat split; discriminate. }
    destruct (join_starts_value [44%N] _
                (flat_map member_text props) (125%N :: rest) Hsv)
      as [c [t [E [Hws [_ H125]]]]].
    pose proof (parse_members_texts ((k, v) :: props) ltac:(discriminate)
                  Hall Hnd f f rest []) as Hpm.
    cbv zeta in Hpm. cbn [flat_map] in *. rewrite Hm in *.
    cbn [app] in *. change (str ",") with [44%N] in Hpm.
    rewrite E. rewrite skip_ws_delimiter by exact Hws.
    apply N.eqb_neq in H125. rewrite H125. rewrite <- E.
    apply Hpm; [intros ? _ []|cbn [length] in Hlen; lia..].
Qed.

(** Every storable value is written as a text that reads back as it. *)
Lemma storable_reads_back (n : nat) :
  forall v, (size v <= n)%nat -> storable v -> reads_back v.
Proof.
  induction n as [|n IH]; intros v Hn Hv.
  - destruct v; cbn [size] in Hn; lia.
  - destruct v as [| |b|x|s|items|props].
    + contradiction.
    + exists (str "null"). split; [reflexivity|].
      split; [eexists 110%N, _; repeat split; discriminate|].
      intros fuel rest _ Hlen.
      destruct fuel as [|f]; [simpl in Hlen; lia|reflexivity].
    + exists (if b then str "true" else str "false").
      split; [now destruct b|].
      split; [destruct b; eexists _, _; repeat split; discriminate|].
      intros fuel rest _ Hlen.
      destruct fuel as [|f]; [simpl in Hlen; lia|]. now destruct b.
    + now apply number_reads_back.
    + exists (quote s). split; [reflexivity|].
      split; [eexists 34%N, _; repeat split; discriminate|].
      intros fuel rest _ Hlen. destruct fuel as [|f]; [simpl in Hlen; lia|].
      unfold quote. cbn [app]. rewrite <- app_assoc. cbn [app].
      cbn [parse_value skip_ws]. change (is_ws 34) with false. cbv iota.
      change (34 =? 34)%N with true. cbv iota.
      now rewrite parse_quote.
    + apply array_reads_back. apply storable_items in Hv.
      rewrite Forall_forall in *. intros x Hx. apply IH; [|now apply Hv].
      pose proof (size_items items x Hx). lia.
    + apply storable_props in Hv as [Hv Hnd].
      apply object_reads_back; [|exact Hnd].
      rewrite Forall_forall in *. intros kv Hkv. apply IH; [|now apply Hv].
      pose proof (size_props props kv Hkv). lia.
Qed.

(** [JSON.parse(JSON.stringify(v))] gives [v] back for every storable
    value. *)
Theorem parse_stringify (v : jsval) :
  storable v -> parse (stringify v) = Some v.
Proof.
  intros Hv.
  destruct (storable_reads_back (size v) v (le_n _) Hv) as [text [Hs [_ Hp]]].
  unfold stringify, parse, parse_with. rewrite Hs.
  specialize (Hp (S (length text)) [] I). rewrite app_nil_r in Hp.
  rewrite Hp by lia. reflexivity.
Qed.

(* ================================================================== *)
(** ** The history comes back from the cookie *)
(* ================================================================== *)

Lemma record_of_js_of_record (r : PredictionRecord) :
  record_of_js (js_of_record r) = Some r.
Proof. destruct r as [i m p pr t [rm|]]; reflexivity. Qed.

Lemma history_of_js_of_history (h : list PredictionRecord) :
  history_of_js (js_of_history h) = Some h.
Proof.
  unfold js_of_history. cbn [history_of_js].
  induction h as [|r h IH]; [reflexivity|].
  cbn [List.map records_of_js]. now rewrite record_of_js_of_record, IH.
Qed.

Lemma storable_js_of_record (r : PredictionRecord) :
  storable_record r -> storable (js_of_record r).
Proof.
  intros [Hp Hl]. unfold js_of_record. apply storable_props. split.
  - destruct (remarks r); cbn [app];
      repeat (constructor; [first [exact I|exact Hp|exact Hl]|]);
      constructor.
  - destruct (remarks r); vm_compute;
      repeat (constructor; [cbn [In]; intuition discriminate|]);
      constructor.
Qed.

Lemma storable_js_of_history (h : list PredictionRecord) :
  Forall storable_record h -> storable (js_of_history h).
Proof.
  intros Hh. apply storable_items. apply Forall_map.
  eapply Forall_impl; [|exact Hh]. apply storable_js_of_record.
Qed.

Lemma stringify_history_brackets (h : list PredictionRecord) :
  exists body, stringify (js_of_history h) = 91%N :: body ++ [93%N].
Proof. eexists. reflexivity. Qed.

(** What the component writes to the cookie is read back as the same
    history on the next mount, as long as the records are storable and
    their serialization has no semicolon in it. *)
Theorem history_survives_reload (P : Platform) (now : Z)
  (h : list PredictionRecord) (st : State) :
  Cookie.jar_ok (cookies st) ->
  Forall storable_record h ->
  contains 59%N (stringify (js_of_history h)) = false ->
  let st' := setCookie now (str "cvd_history") (stringify (js_of_history h)) st in
  reload st' = (js_of_history h, []) /\
  history_of_js (fst (reload st')) = Some h.
Proof.
  intros Hjar Hh Hsemi st'.
  assert (Hr : reload st' = (js_of_history h, [])).
  { subst st'. destruct (stringify_history_brackets h) as [body Hb].
    rewrite reload_after_write; try assumption.
    - now rewrite parse_stringify by now apply storable_js_of_history.
    - rewrite Hb. discriminate.
    - rewrite Hb. now apply trim_id. }
  split; [exact Hr|]. rewrite Hr. apply history_of_js_of_history.
Qed.

(** The law at a history of one record whose remark has a comma where
    the lost one had a semicolon. *)
Example history_survives_reload_sample :
  let h := [sample_record "1762150000000" (Some (str "thin, uneven"))] in
  let st := setCookie (P := utc_platform) 1762150060000 (str "cvd_history")
              (stringify (js_of_history h)) ready in
  reload st = (js_of_history h, []) /\
  history_of_js (fst (reload st)) = Some h.
Proof.
  apply (history_survives_reload utc_platform).
  - split; vm_compute.
    + repeat constructor.
    + repeat (constructor; [cbn [In]; intuition discriminate|]). constructor.
  - constructor; [split; [|exact I]|constructor].
    apply storable_props. split.
    + repeat (constructor;
              [first [exact I|right; vm_compute; discriminate]|]).
      constructor.
    + vm_compute.
      repeat (constructor; [cbn [In]; intuition discriminate|]). constructor.
  - vm_compute. reflexivity.
Qed.

(* ================================================================== *)
(** * Further properties of the code *)
(* ================================================================== *)

(* ================================================================== *)
(** ** The filter effect *)
(* ================================================================== *)

Lemma filter_andb {A} (f g : A -> bool) (l : list A) :
  filter g (filter f l) = filter (fun x => f x && g x) l.
Proof.
  induction l as [|a l IH]; [reflexivity|]. cbn [filter].
  destruct (f a); cbn [filter andb]; [|exact IH].
  destruct (g a); now rewrite IH.
Qed.

Lemma filter_true {A} (l : list A) : filter (fun _ => true) l = l.
Proof. induction l as [|a l IH]; [reflexivity|]. cbn. now rewrite IH. Qed.

Lemma filter_Subseq {A} (f : A -> bool) (l : list A) : Subseq (filter f l) l.
Proof.
  induction l as [|a l IH]; [constructor|]. cbn [filter].
  destruct (f a); now constructor.
Qed.

Lemma filterEffect_filter (st : State) :
  filteredHistory (filterEffect st)
  = filter (fun r => material_passes st r && prediction_passes st r)
      (history st).
Proof.
  unfold filterEffect, material_passes, prediction_passes.
  cbn [filteredHistory setCurrentPage setFilteredHistory].
  destruct (eqb (filterMaterial st) (str "all"));
    destruct (eqb (filterPrediction st) (str "all")); cbn [negb orb].
  - now rewrite filter_true.
  - reflexivity.
  - apply filter_ext. intros r. now rewrite andb_true_r.
  - apply filter_andb.
Qed.

(** X1: after the filter effect the view holds exactly the records of the
    history that pass the material filter and the outcome filter (each open
    when it is [all]), in the order and number the history has them; the
    page is 1; the history, the filters, the cookies and the trace are
    untouched. *)
Theorem filterEffect_view :
  forall st : State,
    let st' := filterEffect st in
    filteredHistory st'
    = filter (fun r => material_passes st r && prediction_passes st r)
        (history st) /\
    (forall r, In r (filteredHistory st') <->
               In r (history st) /\ material_passes st r = true /\
               prediction_passes st r = true) /\
    Subseq (filteredHistory st') (history st) /\
    currentPage st' = 1%Z /\
    history st' = history st /\
    filterMaterial st' = filterMaterial st /\
    filterPrediction st' = filterPrediction st /\
    cookies st' = cookies st /\ events st' = events st.
Proof.
  intros st st'. subst st'. pose proof (filterEffect_filter st) as Hf.
  split; [exact Hf|]. split.
  { intros r. rewrite Hf, filter_In, andb_true_iff. tauto. }
  split; [rewrite Hf; apply filter_Subseq|].
  repeat split.
Qed.

(** X2: the order of the two filters does not matter, running the effect
    again changes nothing, a view made under other filters leaves no mark
    on the next one, and with both filters at [all] the view is the whole
    history. *)
Theorem filterEffect_commutes_and_settles :
  forall (st : State) (m p : jsstring),
    filteredHistory (filterEffect st)
    = filter (material_passes st) (filter (prediction_passes st) (history st))
    /\
    filterEffect (filterEffect st) = filterEffect st /\
    filterEffect (setFilterMaterial m (filterEffect st))
    = filterEffect (setFilterMaterial m st) /\
    filterEffect (setFilterPrediction p (filterEffect st))
    = filterEffect (setFilterPrediction p st) /\
    filteredHistory
      (filterEffect (setFilterMaterial (str "all")
                       (setFilterPrediction (str "all") st)))
    = history st.
Proof.
  intros st m p. split.
  { rewrite filterEffect_filter, filter_andb. apply filter_ext.
    intros r. apply andb_comm. }
  repeat split.
Qed.

(* ================================================================== *)
(** ** The pages together *)
(* ================================================================== *)

Lemma page_window (st : State) (p : Z) :
  (1 <= p)%Z ->
  page st p
  = firstn 10 (skipn (Z.to_nat ((p - 1) * 10)) (filteredHistory st)).
Proof. intros Hp. unfold page. now rewrite currentRecords_window. Qed.

Lemma windows_concat {A} (k : nat) :
  forall l : list A,
    (length l <= 10 * k)%nat ->
    concat (List.map (fun i => firstn 10 (skipn (10 * i) l)) (seq 0 k)) = l.
Proof.
  induction k as [|k IH]; intros l Hl.
  - destruct l; [reflexivity|simpl in Hl; lia].
  - cbn [seq List.map concat]. rewrite <- seq_shift, map_map.
    replace (10 * 0)%nat with 0%nat by lia. cbn [skipn].
    transitivity (firstn 10 l ++ skipn 10 l); [f_equal|apply firstn_skipn].
    etransitivity; [|apply (IH (skipn 10 l)); rewrite length_skipn; lia].
    f_equal. apply map_ext. intros i. rewrite skipn_skipn.
    f_equal. f_equal. lia.
Qed.

Lemma pages_windows (st : State) :
  pages st
  = List.map (fun i => firstn 10 (skipn (10 * i) (filteredHistory st)))
      (seq 0 (Z.to_nat (totalPages st))).
Proof.
  unfold pages. rewrite <- seq_shift, map_map. apply map_ext. intros i.
  rewrite page_window by lia. f_equal. f_equal. lia.
Qed.

Lemma totalPages_bounds (st : State) :
  let n := Z.of_nat (length (filteredHistory st)) in
  (0 <= totalPages st)%Z /\
  (10 * (totalPages st - 1) < n <= 10 * totalPages st)%Z.
Proof.
  intros n. unfold totalPages, recordsPerPage. rewrite ceil_div_10.
  fold n.
  pose proof (Z.div_mod (n + 9) 10 ltac:(lia)) as H1.
  pose proof (Z.mod_pos_bound (n + 9) 10 ltac:(lia)) as H2.
  subst n. lia.
Qed.

(** X3: the pages from the first to the last, one after the other, are the
    whole view, each record on one page; every page before the last holds
    ten records and the last one between one and ten. *)
Theorem pages_partition_the_view :
  forall st : State,
    concat (pages st) = filteredHistory st /\
    length (pages st) = Z.to_nat (totalPages st) /\
    (forall p, (1 <= p < totalPages st)%Z -> length (page st p) = 10%nat) /\
    (forall p, (1 <= p)%Z -> p = totalPages st ->
               (1 <= length (page st p) <= 10)%nat) /\
    (filteredHistory st = [] <-> pages st = []).
Proof.
  intros st. destruct (totalPages_bounds st) as [H0 Hb].
  split.
  { rewrite pages_windows. apply windows_concat. lia. }
  split.
  { unfold pages. now rewrite length_map, length_seq. }
  split.
  { intros p Hp. rewrite page_window by lia.
    rewrite length_firstn, length_skipn. lia. }
  split.
  { intros p Hp ->. rewrite page_window by lia.
    rewrite length_firstn, length_skipn. lia. }
  unfold pages. split.
  - intros He. rewrite He in Hb. cbn [length] in Hb.
    replace (totalPages st) with 0%Z by lia. reflexivity.
  - intros He. apply (f_equal (@length _)) in He.
    rewrite length_map, length_seq in He. cbn [length] in He.
    destruct (filteredHistory st); [reflexivity|]. cbn [length] in Hb. lia.
Qed.

Lemma pages_partition_the_view_witness :
  let st := session [] (numbered 25) in
  length (page st 2) = 10%nat /\
  (1 <= length (page st 3) <= 10)%nat /\
  List.map (@length _) (pages st) = [10; 10; 5]%nat.
Proof.
  intros st.
  destruct (pages_partition_the_view st) as [_ [_ [Hfull [Hlast _]]]].
  split; [apply Hfull; vm_compute; split; [discriminate|reflexivity]|].
  split; [apply Hlast; [lia|reflexivity]|reflexivity].
Defined.

(** X4: the view does not clamp the page index: page 0 and every page
    after the last one are empty, and a negative page index counts from
    the end of the view, so that it can show records (with 25 records,
    page -1 shows the sixth to the fifteenth). *)
Theorem pages_out_of_range :
  forall st : State,
    (currentPage st = 0%Z \/ (totalPages st < currentPage st)%Z ->
       currentRecords st = []) /\
    ((currentPage st < 0)%Z ->
       let n := Z.of_nat (length (filteredHistory st)) in
       let first := Z.to_nat (n + (currentPage st - 1) * 10) in
       let last := Z.to_nat (n + currentPage st * 10) in
       currentRecords st
       = firstn (last - first) (skipn first (filteredHistory st))).
Proof.
  intros st. destruct (totalPages_bounds st) as [H0 Hb]. split.
  - intros [Hz|Hlate].
    + unfold currentRecords, endIndex, startIndex, recordsPerPage, slice.
      rewrite Hz.
      change ((0 - 1) * 10 <? 0)%Z with true.
      change ((0 - 1) * 10 + 10 <? 0)%Z with false. cbv iota.
      replace (Z.to_nat _) with 0%nat by lia. reflexivity.
    + rewrite currentRecords_window by lia.
      rewrite skipn_all2 by lia. reflexivity.
  - intros Hneg n first last.
    unfold currentRecords, endIndex, startIndex, recordsPerPage, slice.
    fold n.
    assert (E1 : ((currentPage st - 1) * 10 <? 0)%Z = true)
      by (apply Z.ltb_lt; lia).
    assert (E2 : ((currentPage st - 1) * 10 + 10 <? 0)%Z = true)
      by (apply Z.ltb_lt; lia).
    rewrite E1, E2. subst first last. f_equal; [lia|f_equal; lia].
Qed.

Lemma pages_out_of_range_witness :
  let st := setCurrentPage (-1) (session [] (numbered 25)) in
  (currentPage st < 0)%Z /\
  List.map remarks (currentRecords st)
  = List.map (fun t => Some (str t))
      ["6"; "7"; "8"; "9"; "10"; "11"; "12"; "13"; "14"; "15"]%string /\
  currentRecords (setCurrentPage 4 st) = [].
Proof.
  intros st. destruct (pages_out_of_range st) as [_ Hneg].
  destruct (pages_out_of_range (setCurrentPage 4 st)) as [Hlate _].
  assert (Hp : (currentPage st < 0)%Z) by (simpl; lia).
  split; [exact Hp|]. split.
  - rewrite (Hneg Hp). reflexivity.
  - apply Hlate. right. vm_compute. reflexivity.
Defined.

(* ================================================================== *)
(** ** Editing a remark *)
(* ================================================================== *)

Lemma handleRemarksEdit_history (P : Platform) (now : Z)
  (recordId text : jsstring) (st : State) :
  history (handleRemarksEdit now recordId text st)
  = List.map (fun r => if eqb (id r) recordId then with_remarks text r else r)
      (history st).
Proof. reflexivity. Qed.

Lemma remark_map_absent (recordId text : jsstring)
  (h : list PredictionRecord) :
  ~ In recordId (List.map id h) ->
  List.map (fun r => if eqb (id r) recordId then with_remarks text r else r) h
  = h.
Proof.
  induction h as [|r h IH]; intros Hn; [reflexivity|]. cbn [List.map].
  destruct (eqb (id r) recordId) eqn:E.
  - apply eqb_eq in E. exfalso. apply Hn. now left.
  - f_equal. apply IH. intros H. apply Hn. now right.
Qed.

(** X5: saving a remark changes nothing but remarks: the history keeps
    its length and order, every record keeps its identifier, material,
    parameters, label and time stamp, the records carrying the identifier
    get the new remark and the others keep theirs; the editor is closed,
    the whole history is written to the cookie once, and no notice is
    shown. *)
Theorem remark_edit_changes_only_remarks :
  forall (P : Platform) (now : Z) (recordId text : jsstring) (st : State),
    let st' := handleRemarksEdit now recordId text st in
    length (history st') = length (history st) /\
    (forall i r, nth_error (history st) i = Some r ->
       nth_error (history st') i
       = Some (if eqb (id r) recordId then with_remarks text r else r)) /\
    List.map id (history st') = List.map id (history st) /\
    List.map material (history st') = List.map material (history st) /\
    List.map params (history st') = List.map params (history st) /\
    List.map prediction (history st') = List.map prediction (history st) /\
    List.map timestamp (history st') = List.map timestamp (history st) /\
    editingRemarks st' = None /\ tempRemarks st' = [] /\
    events st' = CookieAssign (history_write now (history st')) :: events st /\
    cookies st'
    = Cookie.assign (cookies st) (history_write now (history st')).
Proof.
  intros P now recordId text st st'. subst st'.
  rewrite !handleRemarksEdit_history.
  split; [apply length_map|]. split.
  { intros i r Hr. now rewrite nth_error_map, Hr. }
  repeat split;
    rewrite map_map; apply map_ext; intros r;
    now destruct (eqb (id r) recordId).
Qed.

Lemma remark_edit_changes_only_remarks_witness :
  let st := handleRemarksEdit (P := utc_platform) 1762150030000
              (str "1762150000000") (str "uniform film") one_prediction in
  List.map remarks (history st) = [Some (str "uniform film")] /\
  List.map id (history st) = [str "1762150000000"].
Proof.
  intros st.
  destruct (remark_edit_changes_only_remarks utc_platform 1762150030000
              (str "1762150000000") (str "uniform film") one_prediction)
    as [_ [Hnth [Hid _]]].
  split.
  - specialize (Hnth 0%nat _ eq_refl). subst st.
    destruct (history (handleRemarksEdit _ _ _ one_prediction))
      as [|r [|r' h]] eqn:E; try discriminate.
    injection Hnth as ->. reflexivity.
  - subst st. rewrite Hid. reflexivity.
Defined.

(** X6: the last remark saved for an identifier is the one that stays,
    remarks saved for different identifiers do not disturb each other, and
    saving a remark for an identifier no record carries leaves the history
    as it is, though the cookie is written all the same. *)
Theorem remark_edit_last_wins :
  forall (P : Platform) (now1 now2 : Z) (id1 id2 text1 text2 : jsstring)
         (st : State),
    history (handleRemarksEdit now2 id1 text2
               (handleRemarksEdit now1 id1 text1 st))
    = history (handleRemarksEdit now2 id1 text2 st) /\
    (id1 <> id2 ->
       history (handleRemarksEdit now2 id2 text2
                  (handleRemarksEdit now1 id1 text1 st))
       = history (handleRemarksEdit now1 id1 text1
                    (handleRemarksEdit now2 id2 text2 st))) /\
    (~ In id1 (List.map id (history st)) ->
       history (handleRemarksEdit now1 id1 text1 st) = history st /\
       events (handleRemarksEdit now1 id1 text1 st)
       = CookieAssign (history_write now1 (history st)) :: events st).
Proof.
  intros P now1 now2 id1 id2 text1 text2 st. split; [|split].
  - rewrite !handleRemarksEdit_history, map_map. apply map_ext. intros r.
    destruct (eqb (id r) id1) eqn:E; cbn [with_remarks id]; now rewrite E.
  - intros Hne. rewrite !handleRemarksEdit_history, !map_map.
    apply map_ext. intros r.
    destruct (eqb (id r) id1) eqn:E1; destruct (eqb (id r) id2) eqn:E2;
      cbn [with_remarks id]; rewrite ?E1, ?E2; try reflexivity.
    apply eqb_eq in E1, E2. congruence.
  - intros Habsent.
    assert (Hh : history (handleRemarksEdit now1 id1 text1 st) = history st).
    { rewrite handleRemarksEdit_history. now apply remark_map_absent. }
    split; [exact Hh|]. rewrite <- Hh. reflexivity.
Qed.

Lemma remark_edit_last_wins_witness :
  let st := handleRemarksEdit (P := utc_platform) 1762150030000
              (str "1699999999999") (str "uniform film") one_prediction in
  history st = history one_prediction /\
  length (filter is_cookie_write (events st)) = 2%nat.
Proof.
  intros st.
  destruct (remark_edit_last_wins utc_platform 1762150030000 0
              (str "1699999999999") (str "1762150000000")
              (str "uniform film") [] one_prediction) as [_ [_ Habsent]].
  destruct Habsent as [Hh He].
  - vm_compute. intros [H|[]]. discriminate H.
  - split; [exact Hh|]. subst st. rewrite He. reflexivity.
Defined.

(* ================================================================== *)
(** ** The remark editor *)
(* ================================================================== *)

Lemma typing_sets_draft (texts : list jsstring) :
  forall st : State,
    exists draft,
      fold_left (fun s t => onRemarksInput t s) texts st
      = setTempRemarks draft st.
Proof.
  induction texts as [|t texts IH]; intros st.
  - now exists (tempRemarks st).
  - cbn [fold_left]. destruct (IH (onRemarksInput t st)) as [draft ->].
    now exists draft.
Qed.

(** X7: opening the editor of a record, typing into it and cancelling
    leaves everything as it was before the editor was opened: the history
    is not changed, nothing is written to the cookie and nothing is
    shown. *)
Theorem remark_editor_cancel_restores :
  forall (record : PredictionRecord) (texts : list jsstring) (st : State),
    editingRemarks st = None -> tempRemarks st = [] ->
    onCancelRemarks
      (fold_left (fun s t => onRemarksInput t s) texts
         (onEditRemarks record st))
    = st.
Proof.
  intros record texts st He Ht.
  destruct (typing_sets_draft texts (onEditRemarks record st)) as [draft ->].
  unfold onCancelRemarks, onEditRemarks.
  destruct st. cbn in He, Ht. subst. reflexivity.
Qed.

Lemma remark_editor_cancel_restores_witness :
  onCancelRemarks
    (fold_left (fun s t => onRemarksInput t s) [str "thin"; str "thin film"]
       (onEditRemarks (sample_record "1762150000000" None) one_prediction))
  = one_prediction.
Proof.
  apply (remark_editor_cancel_restores
           (sample_record "1762150000000" None)
           [str "thin"; str "thin film"] one_prediction);
    reflexivity.
Defined.

Lemma remark_map_same (h : list PredictionRecord) (r : PredictionRecord)
  (text : jsstring) :
  NoDup (List.map id h) -> In r h -> remarks r = Some text ->
  List.map (fun x => if eqb (id x) (id r) then with_remarks text x else x) h
  = h.
Proof.
  intros Hnd Hin Hr. rewrite <- (map_id h) at 2. apply map_ext_in.
  intros x Hx. destruct (eqb (id x) (id r)) eqn:E; [|reflexivity].
  apply eqb_eq in E.
  assert (x = r) as ->.
  { clear Hr. induction h as [|y h IH]; [contradiction|].
    inversion Hnd as [|? ? Hy Hnd']; subst.
    destruct Hx as [->|Hx], Hin as [->|Hin]; auto.
    - exfalso. apply Hy. rewrite E. now apply in_map.
    - exfalso. apply Hy. rewrite <- E. now apply in_map. }
  destruct r. cbn in Hr. subst. reflexivity.
Qed.

(** X8: opening the editor of a record and saving without typing, in a
    history whose identifiers are distinct: a record that has a remark is
    left as it is; a record that has none gets the empty text as its remark,
    which the page shows as before (No remarks) though the history, and so
    the text written to the cookie, is no longer the same. *)
Theorem remark_editor_save_untouched :
  forall (P : Platform) (now : Z) (record : PredictionRecord) (st : State),
    NoDup (List.map id (history st)) -> In record (history st) ->
    let st' := onSaveRemarks now record (onEditRemarks record st) in
    (forall text, remarks record = Some text -> text <> [] ->
       history st' = history st) /\
    (remarks record = None ->
       In (with_remarks [] record) (history st') /\
       history st' <> history st /\
       List.map shownRemarks (history st')
       = List.map shownRemarks (history st)).
Proof.
  intros P now record st Hnd Hin st'. subst st'.
  unfold onSaveRemarks, onEditRemarks.
  cbn [tempRemarks setTempRemarks setEditingRemarks].
  rewrite handleRemarksEdit_history.
  cbn [history setTempRemarks setEditingRemarks].
  split.
  - intros text Hr Hne. unfold remarks_or. rewrite Hr.
    destruct (eqb text []) eqn:E; [apply eqb_eq in E; contradiction|].
    now apply remark_map_same.
  - intros Hr. unfold remarks_or. rewrite Hr. split; [|split].
    + apply in_map_iff. exists record. now rewrite eqb_refl.
    + intros Heq.
      assert (Hw : In (with_remarks [] record) (history st)).
      { rewrite <- Heq. apply in_map_iff. exists record.
        now rewrite eqb_refl. }
      assert (with_remarks [] record = record) as Hsame.
      { clear Heq. revert Hnd Hin Hw.
        induction (history st) as [|y h IH]; [contradiction|].
        intros Hnd Hin Hw. inversion Hnd as [|? ? Hy Hnd']; subst.
        destruct Hin as [->|Hin], Hw as [Hw|Hw]; auto.
        - exfalso. apply Hy.
          change (id record) with (id (with_remarks [] record)).
          now apply in_map.
        - exfalso. apply Hy. subst y. cbn [with_remarks id].
          now apply in_map. }
      apply (f_equal remarks) in Hsame. cbn in Hsame. congruence.
    + rewrite map_map. apply map_ext_in. intros x Hx.
      destruct (eqb (id x) (id record)) eqn:E; [|reflexivity].
      apply eqb_eq in E.
      assert (x = record) as ->.
      { clear Hr. revert Hnd Hin Hx.
        induction (history st) as [|y h IH]; [contradiction|].
        intros Hnd Hin Hx. inversion Hnd as [|? ? Hy Hnd']; subst.
        destruct Hx as [->|Hx], Hin as [->|Hin]; auto.
        - exfalso. apply Hy. rewrite E. now apply in_map.
        - exfalso. apply Hy. rewrite <- E. now apply in_map. }
      unfold shownRemarks, remarks_or. cbn [with_remarks remarks].
      now rewrite Hr.
Qed.

Lemma remark_editor_save_untouched_witness :
  let record := sample_record "1762150000000" None in
  let st := session [] [record] in
  let st' := onSaveRemarks (P := utc_platform) 1762150030000 record
               (onEditRemarks record st) in
  List.map remarks (history st') = [Some []] /\
  List.map shownRemarks (history st') = [str "No remarks"].
Proof.
  intros record st st'.
  assert (Hnd : NoDup (List.map id (history st))).
  { repeat constructor. intros []. }
  assert (Hin : In record (history st)) by now left.
  destruct (remark_editor_save_untouched utc_platform 1762150030000
              record st Hnd Hin) as [_ Hnone].
  destruct (Hnone eq_refl) as [_ [_ Hshown]].
  split; [reflexivity|]. subst st'. rewrite Hshown. reflexivity.
Defined.

(* ================================================================== *)
(** ** The inputs of the form *)
(* ================================================================== *)

Lemma lookup_obj_set_same (ps : props) (k : jsstring) (v : jsval) :
  lookup k (obj_set ps k v) = Some v.
Proof.
  induction ps as [|[k' v'] ps IH]; cbn [obj_set lookup].
  - now rewrite eqb_refl.
  - destruct (eqb k' k) eqn:E; cbn [lookup]; now rewrite E.
Qed.





(** X10: a numeric input stores the number its text was parsed to, or 0
    when that is [NaN] or zero; what it stores is never [NaN], and the
    validator then finds the field wrong exactly when the parsed number is
    not greater than zero. *)
Theorem numeric_input_never_stores_NaN :
  forall (field : jsstring) (parsed : number) (st : State),
    let st' := onNumberChange field parsed st in
    lookup field (formData st') = Some (JNum (or_zero parsed)) /\
    isNaN (or_zero parsed) = false /\
    (parsed = NaN -> or_zero parsed = of_Z 0) /\
    (gt_zero parsed = true -> or_zero parsed = parsed) /\
    bad_number (formData st') field = negb (gt_zero parsed).
Proof.
  intros field parsed st st'. subst st'. unfold onNumberChange.
  cbn [handleInputChange formData]. unfold bad_number.
  rewrite lookup_obj_set_same.
  split; [reflexivity|]. unfold or_zero, truthy.
  destruct parsed as [| | |m e]; cbn; try (repeat split; congruence).
  destruct (m =? 0)%Z eqn:E; cbn.
  - apply Z.eqb_eq in E. subst m. repeat split; try discriminate.
  - apply Z.eqb_neq in E. repeat split; try discriminate.
    rewrite orb_false_r.
    destruct (m <=? 0)%Z eqn:L; destruct (0 <? m)%Z eqn:G; try reflexivity.
    + apply Z.leb_le in L. apply Z.ltb_lt in G. lia.
    + apply Z.leb_gt in L. apply Z.ltb_ge in G. lia.
Qed.

Lemma numeric_input_never_stores_NaN_witness :
  lookup (str "reactionTime")
    (formData (onNumberChange (str "reactionTime") NaN ready))
  = Some (JNum (of_Z 0)) /\
  fst (Remote.validateForm (onNumberChange (str "reactionTime") NaN ready))
  = false.
Proof.
  destruct (numeric_input_never_stores_NaN (str "reactionTime") NaN ready)
    as [Hget [_ [Hnan _]]].
  split; [|reflexivity]. rewrite Hget, (Hnan eq_refl). reflexivity.
Defined.

(* ================================================================== *)
(** ** Badges and the choice of a material *)
(* ================================================================== *)

Lemma In_predictions (p : jsval) :
  In p predictions <->
  p = JStr (str "excellent") \/ p = JStr (str "qualified") \/
  p = JStr (str "no yield").
Proof. unfold predictions. cbn [In]. intuition congruence. Qed.

Lemma Remote_color_default (p : jsval) :
  Remote.getPredictionColor p = Remote.getPredictionColor JUndefined <->
  ~ In p predictions.
Proof.
  rewrite In_predictions.
  destruct p as [| |b|x|s|items|props];
    try (split; [intros _ H; intuition discriminate|reflexivity]).
  unfold Remote.getPredictionColor.
  destruct (eqb s (str "excellent")) eqn:E1;
    [apply eqb_eq in E1; subst s; split;
     [intros H; vm_compute in H; discriminate H|intros H; exfalso; auto]|].
  destruct (eqb s (str "qualified")) eqn:E2;
    [apply eqb_eq in E2; subst s; split;
     [intros H; vm_compute in H; discriminate H|intros H; exfalso; auto]|].
  destruct (eqb s (str "no yield")) eqn:E3;
    [apply eqb_eq in E3; subst s; split;
     [intros H; vm_compute in H; discriminate H|intros H; exfalso; auto]|].
  apply eqb_neq in E1, E2, E3.
  split; [intros _ H; intuition congruence|reflexivity].
Qed.

Lemma Simulated_color_default (p : jsval) :
  Simulated.getPredictionColor p = Simulated.getPredictionColor JUndefined <->
  ~ In p predictions.
Proof.
  rewrite In_predictions.
  destruct p as [| |b|x|s|items|props];
    try (split; [intros _ H; intuition discriminate|reflexivity]).
  unfold Simulated.getPredictionColor.
  destruct (eqb s (str "excellent")) eqn:E1;
    [apply eqb_eq in E1; subst s; split;
     [intros H; vm_compute in H; discriminate H|intros H; exfalso; auto]|].
  destruct (eqb s (str "qualified")) eqn:E2;
    [apply eqb_eq in E2; subst s; split;
     [intros H; vm_compute in H; discriminate H|intros H; exfalso; auto]|].
  destruct (eqb s (str "no yield")) eqn:E3;
    [apply eqb_eq in E3; subst s; split;
     [intros H; vm_compute in H; discriminate H|intros H; exfalso; auto]|].
  apply eqb_neq in E1, E2, E3.
  split; [intros _ H; intuition congruence|reflexivity].
Qed.

(** X11: a badge gets the neutral colour exactly when its label is none
    of excellent, qualified and no yield (a label that is not a string
    included); the three labels get three different colours; and every
    label the fallback can draw is one of the three, so it is never shown
    in the neutral colour.  This holds for the colours of both variants. *)
Theorem getPredictionColor_neutral_iff_unknown :
  forall p : jsval,
    (Remote.getPredictionColor p = Remote.getPredictionColor JUndefined <->
     ~ In p predictions) /\
    (Simulated.getPredictionColor p = Simulated.getPredictionColor JUndefined
     <-> ~ In p predictions) /\
    (forall q, In p predictions -> In q predictions ->
       Remote.getPredictionColor p = Remote.getPredictionColor q \/
       Simulated.getPredictionColor p = Simulated.getPredictionColor q ->
       p = q) /\
    (forall r : Q, (0 <= r)%Q -> (r < 1)%Q ->
       Simulated.getPredictionColor (sample r)
       <> Simulated.getPredictionColor JUndefined).
Proof.
  intros p. split; [apply Remote_color_default|].
  split; [apply Simulated_color_default|]. split.
  - intros q Hp Hq Hc. apply In_predictions in Hp, Hq.
    destruct Hp as [-> | [-> | ->]], Hq as [-> | [-> | ->]]; try reflexivity;
      exfalso; destruct Hc as [Hc|Hc]; vm_compute in Hc; discriminate Hc.
  - intros r H0 H1 Hc. apply Simulated_color_default in Hc. apply Hc.
    now apply sample_in_predictions.
Qed.

Lemma getPredictionColor_neutral_iff_unknown_witness :
  Simulated.getPredictionColor (sample (7 # 10))
  <> Simulated.getPredictionColor JUndefined /\
  Remote.getPredictionColor (JStr (str "Excellent"))
  = Remote.getPredictionColor JUndefined.
Proof.
  destruct (getPredictionColor_neutral_iff_unknown (JStr (str "Excellent")))
    as [[_ Hneutral] [_ [_ Hdrawn]]].
  split.
  - apply Hdrawn; [discriminate|reflexivity].
  - apply Hneutral. intros H. apply In_predictions in H.
    destruct H as [H|[H|H]]; vm_compute in H; discriminate H.
Defined.

Lemma Remote_material_found (st : State) :
  Remote.getCurrentMaterial st = None <->
  ~ In (selectedMaterial st) (List.map Remote.value Remote.materials).
Proof.
  unfold Remote.getCurrentMaterial, Remote.materials.
  cbn [find List.map Remote.value In].
  repeat match goal with
    | |- context [eqb (str ?v) (selectedMaterial st)] =>
        let E := fresh "E" in
        destruct (eqb (str v) (selectedMaterial st)) eqn:E;
        [apply eqb_eq in E; split; [discriminate|intros H; exfalso; auto 6]|
         apply eqb_neq in E]
    end.
  split; [intros _ H; intuition congruence|reflexivity].
Qed.

(** X12: pressing the button of a material makes that material the
    current one, whose names the form then shows; the current material is
    missing exactly when the selected value is none of the four options;
    in the variant that calls the server, choosing another material clears
    the prediction on display and choosing the same one changes nothing,
    while in the other variant the prediction stays on display under the
    name of the newly chosen material; the history, the form, the cookies
    and the trace are never touched. *)
Theorem material_choice :
  forall st : State,
    (forall m, In m Remote.materials ->
       Remote.getCurrentMaterial (Remote.onSelectMaterial m st) = Some m) /\
    (forall m, In m Simulated.materials ->
       Simulated.getCurrentMaterial (Simulated.onSelectMaterial m st)
       = Some m) /\
    (Remote.getCurrentMaterial st = None <->
     ~ In (selectedMaterial st) (List.map Remote.value Remote.materials)) /\
    (forall m, Remote.value m <> selectedMaterial st ->
       currentPrediction (Remote.onSelectMaterial m st) = None) /\
    (forall m, Remote.value m = selectedMaterial st ->
       Remote.onSelectMaterial m st = st) /\
    (forall m,
       currentPrediction (Simulated.onSelectMaterial m st)
       = currentPrediction st) /\
    (forall m,
       history (Remote.onSelectMaterial m st) = history st /\
       formData (Remote.onSelectMaterial m st) = formData st /\
       cookies (Remote.onSelectMaterial m st) = cookies st /\
       events (Remote.onSelectMaterial m st) = events st).
Proof.
  intros st. split; [|split; [|split; [|split; [|split; [|split]]]]].
  - intros m Hm. unfold Remote.onSelectMaterial.
    destruct (eqb (Remote.value m) (selectedMaterial st)) eqn:E.
    + apply eqb_eq in E. unfold Remote.getCurrentMaterial. rewrite <- E.
      unfold Remote.materials in Hm. cbn [In] in Hm.
      destruct Hm as [<- | [<- | [<- | [<- | []]]]]; reflexivity.
    + unfold Remote.getCurrentMaterial.
      cbn [selectedMaterial setSelectedMaterial setCurrentPrediction].
      unfold Remote.materials in Hm. cbn [In] in Hm.
      destruct Hm as [<- | [<- | [<- | [<- | []]]]]; reflexivity.
  - intros m Hm. unfold Simulated.onSelectMaterial,
      Simulated.getCurrentMaterial.
    cbn [selectedMaterial setSelectedMaterial].
    unfold Simulated.materials in Hm. cbn [In] in Hm.
    destruct Hm as [<- | [<- | [<- | [<- | []]]]]; reflexivity.
  - apply Remote_material_found.
  - intros m Hne. unfold Remote.onSelectMaterial.
    destruct (eqb (Remote.value m) (selectedMaterial st)) eqn:E;
      [apply eqb_eq in E; contradiction|reflexivity].
  - intros m He. unfold Remote.onSelectMaterial.
    now rewrite He, eqb_refl.
  - reflexivity.
  - intros m. unfold Remote.onSelectMaterial.
    destruct (eqb (Remote.value m) (selectedMaterial st)); repeat split.
Qed.

Lemma material_choice_witness :
  let st := one_prediction in
  let m := {| Remote.value := str "wse2"; Remote.label := str "WSe" ++ [8322%N];
              Remote.fullName := str "Tungsten Diselenide";
              Remote.ratio := str "W/Se"; Remote.metal := str "W";
              Remote.chalcogen := str "Se";
              Remote.color := str "from-purple-500 to-violet-600" |} in
  currentPrediction st = Some (JStr (str "excellent")) /\
  Remote.getCurrentMaterial (Remote.onSelectMaterial m st) = Some m /\
  currentPrediction (Remote.onSelectMaterial m st) = None.
Proof.
  intros st m.
  destruct (material_choice st) as [Hfound [_ [_ [Hclear _]]]].
  split; [reflexivity|]. split.
  - apply Hfound. right. right. left. reflexivity.
  - apply Hclear. vm_compute. discriminate.
Defined.

(* ================================================================== *)
(** ** Submissions: the other ways a call can end *)
(* ================================================================== *)

(** X13: in the variant that calls the server, a response with a success
    status whose body is not JSON, cannot be read, or is [null] ends the
    submission like a failed connection: no record is made, the cookie is
    not written, the notice is the Network Error one, the prediction on
    display stays cleared and the form is released. *)
Theorem Remote_unusable_body_aborts :
  forall (P : Platform) (env : Env) (st : State) (r : Response),
    fetch env = Responded r -> ok r = true -> unusable r ->
    fst (Remote.validateForm st) = true ->
    let st' := Remote.handleSubmit env st in
    fst (Remote.run_submit env st) = Aborted /\
    history st' = history st /\
    cookies st' = cookies st /\
    filter is_cookie_write (events st') = filter is_cookie_write (events st) /\
    filter is_toast (events st')
    = network_error_toast :: filter is_toast (events st) /\
    currentPrediction st' = None /\ isLoading st' = false.
Proof.
  intros P env st r Hf Hok Hbad Hvalid.
  apply validate_with_true_state in Hvalid.
  unfold Remote.handleSubmit, Remote.run_submit, Remote.validateForm.
  rewrite Hvalid. unfold Remote.try_submit. rewrite Hf, Hok.
  destruct Hbad as [-> | ->]; repeat split.
Qed.

Lemma Remote_unusable_body_aborts_witness :
  let st := Remote.handleSubmit (P := utc_platform)
              (clock 1762150000000 (answer "oops")) ready in
  history st = [] /\
  filter is_toast (events st) = [network_error_toast].
Proof.
  intros st.
  destruct (Remote_unusable_body_aborts utc_platform
              (clock 1762150000000 (answer "oops")) ready
              {| ok := true; status := 200; statusText := str "OK";
                 body := Some (str "oops") |})
    as [_ [Hh [_ [_ [Ht _]]]]];
    [reflexivity|reflexivity|left; reflexivity|reflexivity|].
  split; [exact Hh|exact Ht].
Defined.

(** X14: in the variant with the fallback, the same response (success
    status, body not JSON, unreadable or [null]) ends in a simulated
    prediction: one record with a drawn label is put in front of the
    history and written to the cookie, the notice is the usual one, and
    the form is released. *)
Theorem Simulated_unusable_body_simulates :
  forall (P : Platform) (env : Env) (st : State) (r : Response),
    fetch env = Responded r -> ok r = true -> unusable r ->
    fst (Simulated.validateForm st) = true ->
    let st' := Simulated.handleSubmit env st in
    let label := sample (random env) in
    fst (Simulated.run_submit env st) = Degraded /\
    history st' = newRecord env st label :: history st /\
    filter is_cookie_write (events st')
    = CookieAssign (history_write (cookie_now env) (history st'))
      :: filter is_cookie_write (events st) /\
    filter is_toast (events st')
    = complete_toast label :: filter is_toast (events st) /\
    currentPrediction st' = Some label /\ isLoading st' = false.
Proof.
  intros P env st r Hf Hok Hbad Hvalid.
  apply validate_with_true_state in Hvalid.
  unfold Simulated.handleSubmit, Simulated.run_submit,
    Simulated.validateForm.
  rewrite Hvalid. unfold Simulated.try_submit. rewrite Hf, Hok.
  destruct Hbad as [-> | ->]; repeat split.
Qed.

Lemma Simulated_unusable_body_simulates_witness :
  let st := Simulated.handleSubmit (P := utc_platform)
              (clock 1762150000000 (answer "null"))
              (session (Simulated.object simulated_params) []) in
  List.map prediction (history st) = [JStr (str "no yield")] /\
  isLoading st = false.
Proof.
  intros st.
  destruct (Simulated_unusable_body_simulates utc_platform
              (clock 1762150000000 (answer "null"))
              (session (Simulated.object simulated_params) [])
              {| ok := true; status := 200; statusText := str "OK";
                 body := Some (str "null") |})
    as [_ [Hh [_ [_ [_ Hl]]]]];
    [reflexivity|reflexivity|right; reflexivity|reflexivity|].
  split; [subst st; rewrite Hh; reflexivity|exact Hl].
Defined.

(** X15: a response with a success status whose JSON body has no
    [prediction] property (or is not an object) is taken as a prediction
    all the same, in both variants: one record is made whose label is
    [undefined], the notice reads Result: undefined, the panel of the
    current prediction stays hidden, and the text written to the cookie
    has no [prediction] property for that record. *)
Theorem missing_label_is_recorded_as_undefined :
  forall (P : Platform) (env : Env) (st : State) (r : Response)
         (data : jsval),
    fetch env = Responded r -> ok r = true ->
    response_json r = Some data -> get_prediction data = Some JUndefined ->
    let record := unlabelled_record env st in
    (fst (Remote.validateForm st) = true ->
       fst (Remote.run_submit env st) = Succeeded /\
       history (Remote.handleSubmit env st) = record :: history st /\
       filter is_toast (events (Remote.handleSubmit env st))
       = Toast (str "Prediction Complete") (str "Result: undefined") Default
         :: filter is_toast (events st) /\
       truthy (currentPrediction (Remote.handleSubmit env st)) = false) /\
    (fst (Simulated.validateForm st) = true ->
       fst (Simulated.run_submit env st) = Succeeded /\
       history (Simulated.handleSubmit env st) = record :: history st /\
       filter is_toast (events (Simulated.handleSubmit env st))
       = Toast (str "Prediction Complete") (str "Result: undefined") Default
         :: filter is_toast (events st) /\
       truthy (currentPrediction (Simulated.handleSubmit env st)) = false) /\
    stringify (js_of_record record)
    = stringify (js_without_prediction record).
Proof.
  intros P env st r data Hf Hok Hjson Hlabel record. split; [|split].
  - intros Hvalid. apply validate_with_true_state in Hvalid.
    unfold Remote.handleSubmit, Remote.run_submit, Remote.validateForm.
    rewrite Hvalid. unfold Remote.try_submit.
    rewrite Hf, Hok, Hjson, Hlabel. repeat split.
  - intros Hvalid. apply validate_with_true_state in Hvalid.
    unfold Simulated.handleSubmit, Simulated.run_submit,
      Simulated.validateForm.
    rewrite Hvalid. unfold Simulated.try_submit.
    rewrite Hf, Hok, Hjson, Hlabel. repeat split.
  - reflexivity.
Qed.

Lemma missing_label_is_recorded_as_undefined_witness :
  let st := Remote.handleSubmit (P := utc_platform)
              (clock 1762150000000 (answer "{}")) ready in
  List.map prediction (history st) = [JUndefined] /\
  lookup (str "prediction")
    match parse (stringify (js_of_history (history st))) with
    | Some (JArr [JObj ps]) => ps
    | _ => [(str "prediction", JNull)]
    end = None.
Proof.
  intros st.
  destruct (missing_label_is_recorded_as_undefined utc_platform
              (clock 1762150000000 (answer "{}")) ready
              {| ok := true; status := 200; statusText := str "OK";
                 body := Some (str "{}") |} (JObj []))
    as [Hremote _]; try reflexivity.
  destruct (Hremote eq_refl) as [_ [Hh _]].
  split; [subst st; rewrite Hh; reflexivity|].
  vm_compute. reflexivity.
Defined.

(** X16: a submission that passes the validator sends exactly one request,
    whatever comes back, and ends with the form released; the form and
    the selected material are as before.  The request goes to the address
    of the selected material and carries the form as JSON.  This holds in
    both variants. *)
Theorem valid_submission_sends_one_request :
  forall (P : Platform) (env : Env) (st : State),
    (fst (Remote.validateForm st) = true ->
       let st' := Remote.handleSubmit env st in
       filter is_fetch (events st')
       = Fetch (Remote.apiUrl (selectedMaterial st))
           (stringify (JObj (formData st)))
         :: filter is_fetch (events st) /\
       isLoading st' = false /\ formData st' = formData st /\
       selectedMaterial st' = selectedMaterial st) /\
    (fst (Simulated.validateForm st) = true ->
       let st' := Simulated.handleSubmit env st in
       filter is_fetch (events st')
       = Fetch (str "/predict/" ++ selectedMaterial st)
           (stringify (JObj (formData st)))
         :: filter is_fetch (events st) /\
       isLoading st' = false /\ formData st' = formData st /\
       selectedMaterial st' = selectedMaterial st).
Proof.
  intros P env st. split.
  - intros Hvalid st'. subst st'. apply validate_with_true_state in Hvalid.
    unfold Remote.handleSubmit, Remote.run_submit, Remote.validateForm.
    rewrite Hvalid. unfold Remote.try_submit.
    destruct (fetch env) as [|r]; [repeat split|].
    destruct (ok r).
    + destruct (response_json r) as [data|]; [|repeat split].
      destruct (get_prediction data); repeat split.
    + destruct (body r); repeat split.
  - intros Hvalid st'. subst st'. apply validate_with_true_state in Hvalid.
    unfold Simulated.handleSubmit, Simulated.run_submit,
      Simulated.validateForm.
    rewrite Hvalid. unfold Simulated.try_submit.
    destruct (fetch env) as [|r]; [repeat split|].
    destruct (ok r); [|repeat split].
    destruct (response_json r) as [data|]; [|repeat split].
    destruct (get_prediction data); repeat split.
Qed.

Lemma valid_submission_sends_one_request_witness :
  let st := Remote.handleSubmit (P := utc_platform)
              (clock 1762150000000 server_error) ready in
  List.map (fun e => match e with Fetch url _ => url | _ => [] end)
    (filter is_fetch (events st))
  = [str "http://127.0.0.1:5000/predict/MoS2"] /\
  isLoading st = false.
Proof.
  intros st.
  destruct (valid_submission_sends_one_request utc_platform
              (clock 1762150000000 server_error) ready) as [Hremote _].
  destruct (Hremote eq_refl) as [Hfetch [Hl _]].
  split; [subst st; rewrite Hfetch; reflexivity|exact Hl].
Defined.

Lemma storable_object (p : Remote.PredictionParams) :
  normal_params p -> storable (JObj (Remote.object p)).
Proof.
  intros [H1 [H2 [H3 [H4 H5]]]]. apply storable_props. split.
  - unfold Remote.object.
    repeat (constructor; [first [exact I|assumption]|]). constructor.
  - vm_compute.
    repeat (constructor; [cbn [In]; intuition discriminate|]). constructor.
Qed.

(** X17: the body of the request is the form as JSON: read as JSON it gives
    the nine fields with their values when the numbers are finite; a field
    at infinity, which the validator lets through, is sent as [null]. *)
Theorem request_body_reads_back_as_the_form :
  forall (P : Platform) (env : Env) (st : State)
         (p : Remote.PredictionParams),
    normal_params p ->
    (formData st = Remote.object p ->
       fst (Remote.validateForm st) = true ->
       exists body,
         filter is_fetch (events (Remote.handleSubmit env st))
         = Fetch (Remote.apiUrl (selectedMaterial st)) body
           :: filter is_fetch (events st) /\
         parse body = Some (JObj (Remote.object p))) /\
    (formData st = Remote.object (with_infinite_ratio p) ->
       fst (Remote.validateForm st) = true ->
       exists body,
         filter is_fetch (events (Remote.handleSubmit env st))
         = Fetch (Remote.apiUrl (selectedMaterial st)) body
           :: filter is_fetch (events st) /\
         parse body
         = Some (JObj (obj_set (Remote.object p)
                         (str "metalChalcogenRatio") JNull))).
Proof.
  intros P env st p Hp.
  assert (Hfetch : fst (Remote.validateForm st) = true ->
            filter is_fetch (events (Remote.handleSubmit env st))
            = Fetch (Remote.apiUrl (selectedMaterial st))
                (stringify (JObj (formData st)))
              :: filter is_fetch (events st)).
  { intros Hvalid. apply validate_with_true_state in Hvalid.
    unfold Remote.handleSubmit, Remote.run_submit, Remote.validateForm.
    rewrite Hvalid. unfold Remote.try_submit.
    destruct (fetch env) as [|r]; [reflexivity|].
    destruct (ok r).
    - destruct (response_json r) as [data|]; [|reflexivity].
      destruct (get_prediction data); reflexivity.
    - destruct (body r); reflexivity. }
  split.
  - intros Hform Hvalid. eexists. split; [apply Hfetch, Hvalid|].
    rewrite Hform. apply parse_stringify. now apply storable_object.
  - intros Hform Hvalid. eexists. split; [apply Hfetch, Hvalid|].
    rewrite Hform.
    change (stringify (JObj (Remote.object (with_infinite_ratio p))))
      with (stringify (JObj (obj_set (Remote.object p)
                               (str "metalChalcogenRatio") JNull))).
    apply parse_stringify.
    destruct Hp as [H1 [H2 [H3 [H4 H5]]]]. apply storable_props. split.
    + cbn. repeat (constructor; [first [exact I|assumption]|]). constructor.
    + vm_compute.
      repeat (constructor; [cbn [In]; intuition discriminate|]). constructor.
Qed.

Lemma request_body_reads_back_as_the_form_witness :
  (exists body,
     filter is_fetch
       (events (Remote.handleSubmit (P := utc_platform)
                  (clock 1762150000000 NetworkFailure) ready))
     = [Fetch (str "http://127.0.0.1:5000/predict/MoS2") body] /\
     parse body = Some (JObj (Remote.object sample_params))) /\
  (exists body,
     filter is_fetch
       (events (Remote.handleSubmit (P := utc_platform)
                  (clock 1762150000000 NetworkFailure)
                  (session (Remote.object infinite_params) [])))
     = [Fetch (str "http://127.0.0.1:5000/predict/MoS2") body] /\
     option_map (fun v => match v with
                          | JObj ps => lookup (str "metalChalcogenRatio") ps
                          | _ => None
                          end) (parse body)
     = Some (Some JNull)).
Proof.
  assert (Hn : normal_params sample_params).
  { repeat split; right; vm_compute; discriminate. }
  split.
  - destruct (request_body_reads_back_as_the_form utc_platform
                (clock 1762150000000 NetworkFailure) ready sample_params Hn)
      as [Hfinite _].
    destruct (Hfinite eq_refl eq_refl) as [body [Hf Hp]].
    exists body. split; [exact Hf|exact Hp].
  - destruct (request_body_reads_back_as_the_form utc_platform
                (clock 1762150000000 NetworkFailure)
                (session (Remote.object infinite_params) [])
                sample_params Hn) as [_ Hinfinite].
    destruct (Hinfinite eq_refl eq_refl) as [body [Hf Hp]].
    exists body. split; [exact Hf|]. rewrite Hp. reflexivity.
Defined.

(* ================================================================== *)
(** ** Writing and reading cookies *)
(* ================================================================== *)



Lemma store_get_other (j : Cookie.jar) (n v other : jsstring) :
  other <> n -> Cookie.get (Cookie.store j n v) other = Cookie.get j other.
Proof.
  intros Hne. induction j as [|[n' v'] j IH]; cbn [Cookie.store Cookie.get].
  - destruct (eqb n other) eqn:E; [|reflexivity].
    apply eqb_eq in E. congruence.
  - destruct (eqb n' n) eqn:E; cbn [Cookie.get].
    + destruct (eqb n' other) eqn:E'; [|reflexivity].
      apply eqb_eq in E, E'. congruence.
    + now rewrite IH.
Qed.




(** X19: whatever [document.cookie] holds, [getCookie] never returns the
    empty text (it gives null instead) nor a text with a semicolon in it:
    what it finds ends at the first semicolon. *)
Theorem getCookie_never_empty_nor_semicolon :
  forall document_cookie name saved : jsstring,
    getCookie document_cookie name = Some saved ->
    saved <> [] /\ contains 59%N saved = false.
Proof.
  intros dc name saved H. split.
  - unfold getCookie in H.
    destruct (Nat.eqb _ 2); [|discriminate].
    destruct (split _ (str ";")) as [|first rest]; [discriminate|].
    destruct (eqb first []) eqn:E; [discriminate|].
    injection H as <-. now apply eqb_neq.
  - now apply (getCookie_no_semicolon dc name).
Qed.

Lemma getCookie_never_empty_nor_semicolon_witness :
  getCookie (str "cvd_user=admin; cvd_history=[1") (str "cvd_history")
  = Some (str "[1") /\
  getCookie (str "cvd_user=admin; cvd_history=") (str "cvd_history") = None /\
  str "[1" <> [] /\ contains 59%N (str "[1") = false.
Proof.
  split; [reflexivity|]. split; [reflexivity|].
  apply (getCookie_never_empty_nor_semicolon
           (str "cvd_user=admin; cvd_history=[1") (str "cvd_history")).
  reflexivity.
Defined.

(* ================================================================== *)
(** ** Sessions: every change is written, and read back *)
(* ================================================================== *)

Lemma step_effect (P : Platform) (st : State) (op : Op) :
  let st' := step st op in
  let write := history_write (op_time op) (history st') in
  cookies st' = Cookie.assign (cookies st) write /\
  filter is_cookie_write (events st')
  = CookieAssign write :: filter is_cookie_write (events st) /\
  filteredHistory st'
  = filter (fun r => material_passes st r && prediction_passes st r)
      (history st') /\
  currentPage st' = 1%Z /\
  filterMaterial st' = filterMaterial st /\
  filterPrediction st' = filterPrediction st.
Proof.
  destruct op as [env label|now recordId text|now recordId];
    cbv zeta; unfold step; rewrite filterEffect_filter; repeat split.
Qed.

Lemma run_filters (P : Platform) (ops : list Op) :
  forall st,
    filterMaterial (run ops st) = filterMaterial st /\
    filterPrediction (run ops st) = filterPrediction st.
Proof.
  induction ops as [|op ops IH] using rev_ind; intros st; [now split|].
  rewrite run_snoc.
  destruct (step_effect P (run ops st) op) as [_ [_ [_ [_ [Hm Hp]]]]].
  destruct (IH st) as [Hm' Hp']. split; congruence.
Qed.


(** X20: along any session of submissions recorded, remarks saved and
    records deleted, every operation assigns the cookie exactly once, with
    the whole history as it is after the operation; and after each
    operation the view is the history passed through the two filters, at
    page 1. *)
Theorem session_writes_every_change :
  forall (P : Platform) (ops : list Op) (op : Op) (st : State),
    let before := run ops st in
    let st' := run (ops ++ [op]) st in
    length (filter is_cookie_write (events st'))
    = (length ops + 1 + length (filter is_cookie_write (events st)))%nat /\
    filter is_cookie_write (events st')
    = CookieAssign (history_write (op_time op) (history st'))
      :: filter is_cookie_write (events before) /\
    cookies st'
    = Cookie.assign (cookies before)
        (history_write (op_time op) (history st')) /\
    filteredHistory st'
    = filter (fun r => material_passes st r && prediction_passes st r)
        (history st') /\
    currentPage st' = 1%Z.
Proof.
  intros P ops op st before st'. subst before st'. rewrite run_snoc.
  destruct (step_effect P (run ops st) op) as [Hc [He [Hf [Hp _]]]].
  split.
  { rewrite He. cbn [length]. clear.
    induction ops as [|o ops IH] using rev_ind; [reflexivity|].
    rewrite run_snoc, length_app. cbn [length].
    destruct (step_effect P (run ops st) o) as [_ [He _]].
    rewrite He. cbn [length]. lia. }
  split; [exact He|]. split; [exact Hc|]. split; [|exact Hp].
  rewrite Hf. destruct (run_filters P ops st) as [Hm Hq].
  apply filter_ext. intros r. unfold material_passes, prediction_passes.
  now rewrite Hm, Hq.
Qed.



(* ================================================================== *)
(** ** The login page *)
(* ================================================================== *)

Lemma assign_loginCookie (j : Cookie.jar) :
  Cookie.assign j Auth.loginCookie
  = Cookie.store j (str "cvd_user") (str "admin").
Proof. reflexivity. Qed.

Lemma handleLogin_cases (T : Auth.Texts) (st : Auth.State) :
  (Auth.loginData st = admin_credentials /\
   Auth.handleLogin T st
   = Auth.emit (Auth.Navigate (str "/"))
       (Auth.emit (Auth.Toast (Auth.login_successful T)
                     (Auth.welcome_back T) Default)
          (Auth.assignCookie Auth.loginCookie st))) \/
  (Auth.loginData st <> admin_credentials /\
   exists description,
     Auth.handleLogin T st
     = Auth.emit (Auth.Toast (Auth.login_failed T) description Destructive)
         st).
Proof.
  unfold Auth.handleLogin.
  destruct (Auth.loginData st) as [u p] eqn:Ed. cbn [Auth.Login.username
    Auth.Login.password].
  destruct (eqb u []) eqn:Eu; cbn [orb].
  { right. apply eqb_eq in Eu. subst u.
    split; [discriminate|eexists; reflexivity]. }
  destruct (eqb p []) eqn:Ep; cbn [orb].
  { right. apply eqb_eq in Ep. subst p.
    split; [discriminate|eexists; reflexivity]. }
  destruct (eqb u (str "admin")) eqn:Ea; cbn [andb].
  - destruct (eqb p (str "admin")) eqn:Eb.
    + left. apply eqb_eq in Ea, Eb. subst. split; reflexivity.
    + right. apply eqb_neq in Eb.
      split; [intros H; injection H; congruence|eexists; reflexivity].
  - right. apply eqb_neq in Ea.
    split; [intros H; injection H; congruence|eexists; reflexivity].
Qed.

(** X22: the login succeeds for the name admin with the password admin
    and for nothing else.  When it succeeds the page assigns the cookie
    [cvd_user], shows a notice and navigates to the platform; [getCookie]
    then finds admin under [cvd_user], and the history cookie is what it
    was, so that the platform loads the same history as before the login.
    When it fails there is one destructive notice, no cookie is written
    and the page stays.  The form is left as typed either way. *)
Theorem login_only_for_admin :
  forall (T : Auth.Texts) (st : Auth.State),
    Cookie.jar_ok (Auth.cookies st) ->
    let st' := Auth.handleLogin T st in
    (Auth.loginData st = admin_credentials ->
       filter is_navigation (Auth.events st')
       = Auth.Navigate (str "/") :: filter is_navigation (Auth.events st) /\
       filter is_login_cookie_write (Auth.events st')
       = Auth.CookieAssign Auth.loginCookie
         :: filter is_login_cookie_write (Auth.events st) /\
       getCookie (Cookie.read (Auth.cookies st')) (str "cvd_user")
       = Some (str "admin") /\
       getCookie (Cookie.read (Auth.cookies st')) (str "cvd_history")
       = getCookie (Cookie.read (Auth.cookies st)) (str "cvd_history") /\
       load (Cookie.read (Auth.cookies st'))
       = load (Cookie.read (Auth.cookies st))) /\
    (Auth.loginData st <> admin_credentials ->
       (exists description,
          Auth.events st'
          = Auth.Toast (Auth.login_failed T) description Destructive
            :: Auth.events st) /\
       Auth.cookies st' = Auth.cookies st) /\
    Auth.loginData st' = Auth.loginData st /\
    Auth.activeTab st' = Auth.activeTab st.
Proof.
  intros T st Hjar st'. subst st'.
  destruct (handleLogin_cases T st) as [[Hd ->]|[Hd [description ->]]].
  - split; [|split; [intros H; contradiction|split; reflexivity]].
    intros _. cbn [Auth.events Auth.cookies Auth.emit Auth.assignCookie
                   filter is_navigation is_login_cookie_write].
    split; [reflexivity|]. split; [reflexivity|].
    rewrite assign_loginCookie.
    assert (Hok : Cookie.jar_ok
                    (Cookie.store (Auth.cookies st) (str "cvd_user")
                       (str "admin"))).
    { apply store_ok; [exact Hjar|]. repeat split. }
    assert (Hh : getCookie
                   (Cookie.read (Cookie.store (Auth.cookies st)
                                   (str "cvd_user") (str "admin")))
                   (str "cvd_history")
                 = getCookie (Cookie.read (Auth.cookies st))
                     (str "cvd_history")).
    { rewrite !getCookie_read by (assumption || reflexivity).
      rewrite store_get_other; [reflexivity|]. vm_compute. discriminate. }
    split; [|split; [exact Hh|]].
    + rewrite getCookie_read by (assumption || reflexivity).
      now rewrite store_get.
    + unfold load. now rewrite Hh.
  - split; [intros H; contradiction|].
    split; [|split; reflexivity].
    intros _. split; [exists description|]; reflexivity.
Qed.

Lemma login_only_for_admin_witness :
  let jar := [(str "cvd_history", str "[]")] in
  let page := Auth.initial Auth.english jar in
  getCookie (Cookie.read (Auth.cookies
                            (login_with Auth.english (str "admin")
                               (str "admin") page)))
    (str "cvd_user") = Some (str "admin") /\
  Auth.cookies (login_with Auth.english (str "admin") (str "Admin") page)
  = jar.
Proof.
  intros jar page.
  assert (Hjar : Cookie.jar_ok jar).
  { split; vm_compute.
    - repeat constructor.
    - repeat (constructor; [cbn [In]; intuition discriminate|]).
      constructor. }
  split.
  - destruct (login_only_for_admin Auth.english
                (Auth.onLoginPassword (str "admin")
                   (Auth.onLoginUsername (str "admin") page)) Hjar)
      as [Hadmin _].
    destruct (Hadmin eq_refl) as [_ [_ [Huser _]]]. exact Huser.
  - destruct (login_only_for_admin Auth.english
                (Auth.onLoginPassword (str "Admin")
                   (Auth.onLoginUsername (str "admin") page)) Hjar)
      as [_ [Hother _]].
    destruct Hother as [_ Hc]; [vm_compute; discriminate|exact Hc].
Defined.

Lemma handleRegister_cases (T : Auth.Texts) (st : Auth.State) :
  (registration_filled (Auth.registerData st) /\
   Auth.handleRegister T st
   = Auth.setRegisterData (Auth.emptyRegisterData T)
       (Auth.setActiveTab (str "login")
          (Auth.emit (Auth.Toast (Auth.registration_successful T)
                        (Auth.account_created T) Default) st))) \/
  (~ registration_filled (Auth.registerData st) /\
   exists description,
     Auth.handleRegister T st
     = Auth.emit (Auth.Toast (Auth.registration_failed T) description
                    Destructive) st).
Proof.
  unfold Auth.handleRegister, registration_filled.
  destruct (Auth.registerData st) as [u e l p c].
  cbn [Auth.Register.username Auth.Register.email Auth.Register.password
       Auth.Register.confirmPassword].
  destruct (eqb u []) eqn:Eu; cbn [orb].
  { right. apply eqb_eq in Eu. split; [tauto|eexists; reflexivity]. }
  destruct (eqb e []) eqn:Ee; cbn [orb].
  { right. apply eqb_eq in Ee. split; [tauto|eexists; reflexivity]. }
  destruct (eqb p []) eqn:Ep; cbn [orb].
  { right. apply eqb_eq in Ep. split; [tauto|eexists; reflexivity]. }
  destruct (eqb p c) eqn:Ec; cbn [negb].
  - left. apply eqb_neq in Eu, Ee, Ep. apply eqb_eq in Ec.
    split; [tauto|reflexivity].
  - right. apply eqb_neq in Ec. split; [tauto|eexists; reflexivity].
Qed.

(** X23: a registration is accepted exactly when name, e-mail address and
    password are filled in and the password is repeated (the laboratory
    name is never looked at): the page then shows a notice, clears the
    form and goes to the login tab; otherwise it shows one destructive
    notice and keeps the form.  Neither a registration nor a request for a
    password reset writes a cookie or navigates, and a registration is not
    remembered: a login with the registered name and password is accepted
    only if they are admin and admin. *)
Theorem registration_is_not_remembered :
  forall (T : Auth.Texts) (st : Auth.State),
    let d := Auth.registerData st in
    let st' := Auth.handleRegister T st in
    (registration_filled d ->
       Auth.events st'
       = Auth.Toast (Auth.registration_successful T) (Auth.account_created T)
           Default :: Auth.events st /\
       Auth.activeTab st' = str "login" /\
       Auth.registerData st' = Auth.emptyRegisterData T) /\
    (~ registration_filled d ->
       (exists description,
          Auth.events st'
          = Auth.Toast (Auth.registration_failed T) description Destructive
            :: Auth.events st) /\
       Auth.registerData st' = d /\ Auth.activeTab st' = Auth.activeTab st) /\
    Auth.cookies st' = Auth.cookies st /\
    Auth.cookies (Auth.handleForgotPassword T st) = Auth.cookies st /\
    filter is_navigation (Auth.events st')
    = filter is_navigation (Auth.events st) /\
    filter is_navigation (Auth.events (Auth.handleForgotPassword T st))
    = filter is_navigation (Auth.events st) /\
    (filter is_navigation
       (Auth.events (login_with T (Auth.Register.username d)
                       (Auth.Register.password d) st'))
     <> filter is_navigation (Auth.events st) ->
     Auth.Register.username d = str "admin" /\
     Auth.Register.password d = str "admin").
Proof.
  intros T st d st'. subst d st'.
  assert (Hforgot : Auth.cookies (Auth.handleForgotPassword T st)
                    = Auth.cookies st /\
                    filter is_navigation
                      (Auth.events (Auth.handleForgotPassword T st))
                    = filter is_navigation (Auth.events st)).
  { unfold Auth.handleForgotPassword.
    destruct (eqb (Auth.forgotEmail st) []); split; reflexivity. }
  destruct Hforgot as [Hfc Hfn].
  assert (Hlogin : forall s : Auth.State,
            filter is_navigation (Auth.events s)
            = filter is_navigation (Auth.events st) ->
            filter is_navigation
              (Auth.events
                 (login_with T
                    (Auth.Register.username (Auth.registerData st))
                    (Auth.Register.password (Auth.registerData st)) s))
            <> filter is_navigation (Auth.events st) ->
            Auth.Register.username (Auth.registerData st) = str "admin" /\
            Auth.Register.password (Auth.registerData st) = str "admin").
  { intros s Hs Hnav. unfold login_with in Hnav.
    destruct (handleLogin_cases T
                (Auth.onLoginPassword
                   (Auth.Register.password (Auth.registerData st))
                   (Auth.onLoginUsername
                      (Auth.Register.username (Auth.registerData st)) s)))
      as [[Hd _]|[_ [description Hl]]].
    - cbn in Hd. injection Hd as Hu Hp. now split.
    - exfalso. apply Hnav. rewrite Hl. cbn. exact Hs. }
  destruct (handleRegister_cases T st) as [[Hd Hr]|[Hd [description Hr]]];
    rewrite Hr.
  - split; [intros _; repeat split|].
    split; [intros H; contradiction|].
    split; [reflexivity|]. split; [exact Hfc|].
    split; [reflexivity|]. split; [exact Hfn|].
    apply Hlogin. reflexivity.
  - split; [intros H; contradiction|].
    split; [intros _; split; [exists description; reflexivity|now split]|].
    split; [reflexivity|]. split; [exact Hfc|].
    split; [reflexivity|]. split; [exact Hfn|].
    apply Hlogin. reflexivity.
Qed.

Lemma registration_is_not_remembered_witness :
  let d := {| Auth.Register.username := str "li";
              Auth.Register.email := str "li@zju.edu.cn";
              Auth.Register.labName := None;
              Auth.Register.password := str "s3cret";
              Auth.Register.confirmPassword := str "s3cret" |} in
  let page := Auth.setRegisterData d (Auth.initial Auth.chinese []) in
  let st := Auth.handleRegister Auth.chinese page in
  registration_filled d /\
  Auth.activeTab st = str "login" /\
  Auth.registerData st = Auth.emptyRegisterData Auth.chinese /\
  filter is_navigation
    (Auth.events (login_with Auth.chinese (str "li") (str "s3cret") st))
  = [].
Proof.
  intros d page st.
  assert (Hd : registration_filled d).
  { repeat split; discriminate. }
  destruct (registration_is_not_remembered Auth.chinese page)
    as [Hok _].
  destruct (Hok Hd) as [_ [Htab Hform]].
  split; [exact Hd|]. split; [exact Htab|]. split; [exact Hform|].
  reflexivity.
Defined.

(* ================================================================== *)
(** ** The validator of the variant with the fallback *)
(* ================================================================== *)

Lemma find_first {A} (f : A -> bool) (pre post : list A) (x : A) :
  Forall (fun y => f y = false) pre -> f x = true ->
  find f (pre ++ x :: post) = Some x.
Proof.
  intros Hpre Hx. induction Hpre as [|y pre Hy _ IH]; cbn [app find].
  - now rewrite Hx.
  - now rewrite Hy.
Qed.

Lemma find_none_iff {A} (f : A -> bool) (l : list A) :
  find f l = None <-> forall x, In x l -> f x = false.
Proof.
  split; [apply find_none|]. intros H.
  induction l as [|a l IH]; [reflexivity|]. cbn [find].
  rewrite (H a) by now left. apply IH. intros x Hx. apply H. now right.
Qed.

(** X24: the validator of the variant with the fallback, on any form: it
    accepts exactly when the four selects hold a text that is not empty
    and none of the five numeric fields holds a number that is [NaN] or
    not greater than zero (a numeric field that is missing or holds no
    number is let through); an accepted form changes nothing; a refused
    one gives one Validation Error notice, for the first empty select in
    the order of the list and, when there is none, for the first wrong
    number, and the names in the notice are w s ratio, h ar ratio,
    w temperature, s temperature and reaction time. *)
Theorem Simulated_validateForm_characterized :
  forall st : State,
    let fd := formData st in
    (fst (Simulated.validateForm st) = true <->
       (forall f, In f Simulated.requiredFields ->
                  truthy (lookup f fd) = true) /\
       (forall f x, In f Simulated.numericFields ->
                    lookup f fd = Some (JNum x) -> accepted_number x = true))
    /\
    (fst (Simulated.validateForm st) = true ->
       snd (Simulated.validateForm st) = st) /\
    (forall pre f post,
       Simulated.requiredFields = pre ++ f :: post ->
       Forall (fun g => truthy (lookup g fd) = true) pre ->
       truthy (lookup f fd) = false ->
       Simulated.validateForm st
       = (false,
          emit (validation_toast (str "Please select " ++ field_words f))
            st)) /\
    (forall pre f post,
       (forall g, In g Simulated.requiredFields ->
                  truthy (lookup g fd) = true) ->
       Simulated.numericFields = pre ++ f :: post ->
       Forall (fun g => bad_number fd g = false) pre ->
       bad_number fd f = true ->
       Simulated.validateForm st
       = (false,
          emit (validation_toast
                  (str "Please enter a valid " ++ field_words f)) st)) /\
    List.map field_words Simulated.numericFields
    = [str "w s ratio"; str "h ar ratio"; str "w temperature";
       str "s temperature"; str "reaction time"].
Proof.
  intros st fd. unfold Simulated.validateForm, validate_with. fold fd.
  assert (Hreq : find (missing fd) Simulated.requiredFields = None <->
                 forall f, In f Simulated.requiredFields ->
                           truthy (lookup f fd) = true).
  { rewrite find_none_iff. unfold missing.
    split; intros H f Hf; specialize (H f Hf);
      destruct (truthy (lookup f fd)); auto; discriminate. }
  assert (Hnum : find (bad_number fd) Simulated.numericFields = None <->
                 forall f x, In f Simulated.numericFields ->
                             lookup f fd = Some (JNum x) ->
                             accepted_number x = true).
  { rewrite find_none_iff. unfold bad_number, accepted_number. split.
    - intros H f x Hf Hx. specialize (H f Hf). rewrite Hx in H.
      apply orb_false_iff in H as [-> ->]. reflexivity.
    - intros H f Hf. destruct (lookup f fd) as [[| | |x| | |]|] eqn:E;
        try reflexivity.
      specialize (H f x Hf E). apply andb_true_iff in H as [H1 H2].
      apply negb_true_iff in H1, H2. now rewrite H1, H2. }
  split; [|split; [|split; [|split]]].
  - destruct (find (missing fd) Simulated.requiredFields) eqn:E1.
    { split; [discriminate|]. intros [H _]. apply Hreq in H. discriminate. }
    destruct (find (bad_number fd) Simulated.numericFields) eqn:E2.
    { split; [discriminate|]. intros [_ H]. apply Hnum in H. discriminate. }
    split; [|reflexivity]. intros _. split; [now apply Hreq|now apply Hnum].
  - destruct (find (missing fd) Simulated.requiredFields);
      [discriminate|].
    destruct (find (bad_number fd) Simulated.numericFields);
      [discriminate|reflexivity].
  - intros pre f post Hl Hpre Hf. rewrite Hl.
    rewrite (find_first (missing fd) pre post f); [reflexivity| |].
    + eapply Forall_impl; [|exact Hpre]. intros g Hg. unfold missing.
      now rewrite Hg.
    + unfold missing. now rewrite Hf.
  - intros pre f post Hall Hl Hpre Hf.
    apply Hreq in Hall. rewrite Hall, Hl.
    now rewrite (find_first (bad_number fd) pre post f).
  - reflexivity.
Qed.

Lemma Simulated_validateForm_characterized_witness :
  let st := onNumberChange (str "wTemperature") NaN
              (session (Simulated.object simulated_params) []) in
  Simulated.validateForm st
  = (false,
     emit (validation_toast (str "Please enter a valid w temperature")) st).
Proof.
  intros st.
  destruct (Simulated_validateForm_characterized st)
    as [_ [_ [_ [Hnum _]]]].
  apply (Hnum [str "wSRatio"; str "hArRatio"] (str "wTemperature")
           [str "sTemperature"; str "reactionTime"]).
  - intros g Hg. unfold Simulated.requiredFields in Hg. cbn [In] in Hg.
    destruct Hg as [<- | [<- | [<- | [<- | []]]]]; reflexivity.
  - reflexivity.
  - repeat constructor.
  - reflexivity.
Defined.

(* ================================================================== *)
(** ** The words of a field name *)
(* ================================================================== *)

Lemma is_upper_lower (c : N) :
  is_upper c = true -> is_upper (c + 32) = false.
Proof.
  unfold is_upper. intros H. apply andb_true_iff in H as [H1 H2].
  apply N.leb_le in H1, H2. apply andb_false_iff. right.
  apply N.leb_gt. lia.
Qed.

(** X25: the words a validation notice makes of a field name written in
    Basic Latin letters: no capital letter is left, a space stands before
    every place a capital stood and nowhere else (so the text is longer by
    the number of capitals), and a name without capitals is kept as it
    is. *)
Theorem field_words_shape :
  forall field : jsstring,
    basic_latin field ->
    Forall (fun c => is_upper c = false) (field_words field) /\
    length (field_words field) = (length field + capitals field)%nat /\
    (contains 32%N field = false ->
       filter (fun c => negb (c =? 32)%N) (field_words field)
       = toLowerCase field) /\
    (capitals field = 0%nat -> field_words field = field).
Proof.
  intros field _. unfold field_words, capitals.
  induction field as [|c s [IH1 [IH2 [IH3 IH4]]]].
  - repeat split; constructor.
  - cbn [space_before_capitals filter contains].
    destruct (is_upper c) eqn:E; cbn [toLowerCase List.map length filter].
    + change (is_upper 32) with false. cbv iota. rewrite E.
      assert (Hc : (c =? 32)%N = false).
      { unfold is_upper in E. apply andb_true_iff in E as [E1 _].
        apply N.leb_le in E1. apply N.eqb_neq. lia. }
      assert (Hl : ((c + 32 =? 32)%N = false)).
      { unfold is_upper in E. apply andb_true_iff in E as [E1 _].
        apply N.leb_le in E1. apply N.eqb_neq. lia. }
      split; [|split; [|split]].
      * constructor; [reflexivity|]. constructor; [|exact IH1].
        now apply is_upper_lower.
      * fold (toLowerCase (space_before_capitals s)). rewrite IH2.
        cbn [length]. lia.
      * intros Hs. change (32 =? 32)%N with true. cbn [negb].
        rewrite Hl. cbn [negb]. rewrite Hc in Hs.
        cbn [orb] in Hs.
        fold (toLowerCase (space_before_capitals s)).
        fold (toLowerCase s). now rewrite (IH3 Hs).
      * discriminate.
    + rewrite E.
      fold (toLowerCase (space_before_capitals s)). fold (toLowerCase s).
      split; [|split; [|split]].
      * constructor; [exact E|exact IH1].
      * rewrite IH2. cbn [length]. lia.
      * intros Hs. destruct (c =? 32)%N eqn:Hc.
        { discriminate Hs. }
        cbn [orb negb] in *.
        now rewrite (IH3 Hs).
      * intros H0. now rewrite (IH4 H0).
Qed.

Lemma field_words_shape_witness :
  field_words (str "metalChalcogenRatio") = str "metal chalcogen ratio" /\
  length (field_words (str "metalChalcogenRatio")) = 21%nat /\
  field_words (str "pressure") = str "pressure".
Proof.
  assert (H : basic_latin (str "metalChalcogenRatio"))
    by (vm_compute; repeat constructor).
  destruct (field_words_shape (str "metalChalcogenRatio") H)
    as [_ [Hlen _]].
  split; [reflexivity|]. split; [rewrite Hlen; reflexivity|].
  assert (H' : basic_latin (str "pressure"))
    by (vm_compute; repeat constructor).
  destruct (field_words_shape (str "pressure") H') as [_ [_ [_ Hsame]]].
  apply Hsame. reflexivity.
Defined.
